(** * A shallow embedding of the 2d-platformer simulation core

    The repository holds several variants of one pygame platformer
    ([main.py], [game_full.py], [game_ultra.py], [game_final.py]).  Each
    variant is embedded in a module of its own, with the names of the
    source.  Sprite animation, sound, fonts and drawing never feed back
    into the simulated state and are left out. *)

From Stdlib Require Import ZArith QArith Qabs Qround List Bool Lia.
Import ListNotations.

Open Scope Z_scope.

(** ** Python numbers

    Integers are unbounded ([Z]).  The floats of the variants with gravity
    [0.5] are multiples of one half of small magnitude, which binary
    floating point represents and adds exactly; they are embedded as
    rationals kept in lowest terms, so that equal floats are equal terms. *)

Module Float.

Definition add (a b : Q) : Q := Qred (a + b).
Definition sub (a b : Q) : Q := Qred (a - b).
Definition mul (a b : Q) : Q := Qred (a * b).

Definition of_int (z : Z) : Q := inject_Z z.

(** [a < b], [a <= b] and [abs a] on floats. *)
Definition ltb (a b : Q) : bool := negb (Qle_bool b a).
Definition leb (a b : Q) : bool := Qle_bool a b.
Definition abs (a : Q) : Q := Qabs a.

(** Conversion of a float to a C [int], as pygame does when a float is
    assigned to a coordinate of a [Rect]: the fractional part is dropped,
    rounding toward zero. *)
Definition to_int (q : Q) : Z := Z.quot (Qnum q) (Zpos (Qden q)).

Definition half : Q := 1 # 2.

End Float.

(** ** pygame.Rect

    A rectangle with integer coordinates.  The virtual attributes
    [right], [bottom] and [centerx] are computed from the stored ones, and
    assigning to one of them moves the rectangle without resizing it.
    pygame keeps the coordinates in C integers; the games stay far from
    their limits and the coordinates are taken unbounded here. *)

Module Rect.

Record t : Set := mk { x : Z; y : Z; w : Z; h : Z }.

Definition left (r : t) : Z := x r.
Definition top (r : t) : Z := y r.
Definition right (r : t) : Z := x r + w r.
Definition bottom (r : t) : Z := y r + h r.
Definition centerx (r : t) : Z := x r + w r / 2.

Definition set_x (r : t) (v : Z) : t := mk v (y r) (w r) (h r).
Definition set_y (r : t) (v : Z) : t := mk (x r) v (w r) (h r).
Definition set_left (r : t) (v : Z) : t := set_x r v.
Definition set_top (r : t) (v : Z) : t := set_y r v.
Definition set_right (r : t) (v : Z) : t := set_x r (v - w r).
Definition set_bottom (r : t) (v : Z) : t := set_y r (v - h r).
Definition set_midbottom (r : t) (mx my : Z) : t :=
  mk (mx - w r / 2) (my - h r) (w r) (h r).

(** [r.x += v] and [r.y += v] with [v] a float: the sum is a float, and
    storing it converts it back to an integer. *)
Definition add_x (r : t) (v : Q) : t :=
  set_x r (Float.to_int (Float.add (Float.of_int (x r)) v)).
Definition add_y (r : t) (v : Q) : t :=
  set_y r (Float.to_int (Float.add (Float.of_int (y r)) v)).

(** [a.colliderect(b)]: rectangles that only touch along an edge do not
    collide, and a rectangle of zero width or height collides with
    nothing. *)
Definition colliderect (a b : t) : bool :=
  if (w a =? 0) || (h a =? 0) || (w b =? 0) || (h b =? 0) then false
  else (Z.min (x a) (x a + w a) <? Z.max (x b) (x b + w b))
       && (Z.min (y a) (y a + h a) <? Z.max (y b) (y b + h b))
       && (Z.max (x a) (x a + w a) >? Z.min (x b) (x b + w b))
       && (Z.max (y a) (y a + h a) >? Z.min (y b) (y b + h b)).

End Rect.

(** ** The snapshot of pressed keys *)

Record Keys : Set := mkKeys {
  K_LEFT : bool; K_RIGHT : bool; K_UP : bool; K_SPACE : bool;
  K_a : bool; K_d : bool; K_w : bool; K_f : bool
}.

Definition no_keys : Keys :=
  mkKeys false false false false false false false false.

(** ** main.py *)

Module MainPy.

Record Player : Set := mkPlayer {
  rect : Rect.t;
  vx : Z;
  vy : Q;
  on_ground : bool
}.

(** Body of the loop of the horizontal pass. *)
Definition horizontal_step (vx : Z) (r plat : Rect.t) : Rect.t :=
  if Rect.colliderect r plat then
    if vx >? 0 then Rect.set_right r (Rect.left plat)
    else if vx <? 0 then Rect.set_left r (Rect.right plat)
    else r
  else r.

(** Body of the loop of the vertical pass. *)
Definition vertical_step (p : Player) (plat : Rect.t) : Player :=
  if Rect.colliderect (rect p) plat then
    if Float.ltb 0%Q (vy p) then
      mkPlayer (Rect.set_bottom (rect p) (Rect.top plat)) (vx p) 0%Q true
    else if Float.ltb (vy p) 0%Q then
      mkPlayer (Rect.set_top (rect p) (Rect.bottom plat)) (vx p) 0%Q
               (on_ground p)
    else p
  else p.

(** The vertical pass, from [self.on_ground = False] on; the rectangle
    has been translated by [vy] already. *)
Definition vertical_collisions (platforms : list Rect.t) (p : Player)
  : Player :=
  fold_left vertical_step platforms
            (mkPlayer (rect p) (vx p) (vy p) false).

(** [self.vy += 0.5], capped at [10]. *)
Definition apply_gravity (v : Q) : Q :=
  let v := Float.add v Float.half in
  if Float.ltb 10%Q v then 10%Q else v.

(** [Player.update(keys, platforms)]; [platforms] lists the rectangles of
    the platform sprites in the iteration order of their group. *)
Definition update (keys : Keys) (platforms : list Rect.t) (p : Player)
  : Player :=
  let vx := 0 in
  let vx := if K_LEFT keys then -5 else vx in
  let vx := if K_RIGHT keys then 5 else vx in
  let vy := if K_SPACE keys && on_ground p then (-12)%Q else vy p in
  let vy := apply_gravity vy in
  let r := Rect.set_x (rect p) (Rect.x (rect p) + vx) in
  let r := fold_left (horizontal_step vx) platforms r in
  let r := Rect.add_y r vy in
  vertical_collisions platforms (mkPlayer r vx vy (on_ground p)).

End MainPy.

(** ** Helpers shared by the variants *)

(** Python's [range(n)]. *)
Definition range (n : Z) : list Z := map Z.of_nat (seq 0 (Z.to_nat n)).

(** [l[i]] on a Python list: a negative index counts from the end, and an
    index out of range raises [IndexError] ([None]). *)
Definition getitem {A : Type} (l : list A) (i : Z) : option A :=
  let n := Z.of_nat (List.length l) in
  if (i <? - n) || (i >=? n) then None
  else nth_error l (Z.to_nat (if i <? 0 then n + i else i)).

(** Sizes of the images the variants load; the files are not part of the
    sources, so their sizes are parameters of the model. *)
Record Assets : Set := mkAssets {
  platform_w : Z; platform_h : Z;
  player_w : Z; player_h : Z;
  coin_w : Z; coin_h : Z;
  enemy_w : Z; enemy_h : Z
}.

(** ** game_full.py *)

Module GameFull.

Definition screen_width : Z := 1000.
Definition screen_height : Z := 600.

Record Player : Set := mkPlayer {
  rect : Rect.t;
  vel_y : Q;
  on_ground : bool
}.

(** [Player.handle_input]: the horizontal delta and the player after a
    possible jump. *)
Definition handle_input (keys : Keys) (p : Player) : Q * Player :=
  let dx := 0%Q in
  let dx := if K_LEFT keys || K_a keys then (-5)%Q else dx in
  let dx := if K_RIGHT keys || K_d keys then 5%Q else dx in
  if (K_SPACE keys || K_w keys || K_UP keys) && on_ground p
  then (dx, mkPlayer (rect p) (-12)%Q false)
  else (dx, p).

(** [self.vel_y += 0.5], capped at [10]. *)
Definition apply_gravity (v : Q) : Q :=
  let v := Float.add v Float.half in
  if Float.ltb 10%Q v then 10%Q else v.

(** Body of the loop over the platforms in [Player.update]. *)
Definition vertical_step (p : Player) (plat : Rect.t) : Player :=
  if Rect.colliderect (rect p) plat then
    if Float.ltb 0%Q (vel_y p)
       && Float.leb (Float.sub (Float.of_int (Rect.bottom (rect p)))
                               (vel_y p))
                    (Float.of_int (Rect.top plat))
    then mkPlayer (Rect.set_bottom (rect p) (Rect.top plat)) 0%Q true
    else if Float.ltb (vel_y p) 0%Q
            && Float.leb (Float.of_int (Rect.bottom plat))
                         (Float.sub (Float.of_int (Rect.top (rect p)))
                                    (vel_y p))
    then mkPlayer (Rect.set_top (rect p) (Rect.bottom plat)) 0%Q
                  (on_ground p)
    else p
  else p.

(** The collision loop of [Player.update], from
    [self.on_ground = False] on. *)
Definition vertical_collisions (platforms : list Rect.t) (p : Player)
  : Player :=
  fold_left vertical_step platforms (mkPlayer (rect p) (vel_y p) false).

(** [Player.update(platforms)]. *)
Definition update (platforms : list Rect.t) (p : Player) : Player :=
  let v := apply_gravity (vel_y p) in
  let r := Rect.add_y (rect p) v in
  vertical_collisions platforms (mkPlayer r v (on_ground p)).

Definition reset_position (x y : Z) (p : Player) : Player :=
  mkPlayer (Rect.set_y (Rect.set_x (rect p) x) y) 0%Q false.

(** An [AnimatedCoin]; [coin_id] stands for the identity of the Python
    object, which is what [list.remove] compares. *)
Record AnimatedCoin : Set := mkCoin {
  coin_id : nat;
  coin_rect : Rect.t
}.

Record Enemy : Set := mkEnemy {
  enemy_rect : Rect.t;
  min_x : Z;
  max_x : Z;
  speed : Z
}.

(** [Enemy.update]. *)
Definition enemy_update (e : Enemy) : Enemy :=
  let x := Rect.x (enemy_rect e) + speed e in
  if (x <? min_x e) || (x >? max_x e) then
    mkEnemy (Rect.set_x (enemy_rect e)
                        (Z.max (Z.min x (max_x e)) (min_x e)))
            (min_x e) (max_x e) (speed e * -1)
  else mkEnemy (Rect.set_x (enemy_rect e) x) (min_x e) (max_x e) (speed e).

(** One entry of the list [generate_levels] returns: the dictionary with
    the keys ['platforms'], ['coins'], ['enemies'] and ['length']. *)
Record LevelData : Set := mkLevelData {
  data_platforms : list (Z * Z);
  data_coins : list (Z * Z);
  data_enemies : list (Z * Z * Z * Z);
  data_length : Z
}.

(** Body of the loop over [j] in [generate_levels]. *)
Definition place_platform (a : Assets) (base_y step_x : Z)
           (acc : LevelData) (j : Z) : LevelData :=
  let x := 100 + j * step_x in
  let y_offset := - ((j mod 5) * 40) in
  let y := base_y + y_offset in
  let platforms := data_platforms acc ++ [(x, y)] in
  let coins :=
    if j mod 2 =? 0 then
      data_coins acc
        ++ [(x + (platform_w a - coin_w a) / 2, y - coin_h a - 10)]
    else data_coins acc in
  let enemies :=
    if j mod 3 =? 1 then
      data_enemies acc
        ++ [(x + (platform_w a - enemy_w a) / 2, y,
             x, x + platform_w a - enemy_w a)]
    else data_enemies acc in
  mkLevelData platforms coins enemies (data_length acc).

(** Body of the loop over [i] in [generate_levels]. *)
Definition generate_level (screen_height : Z) (a : Assets) (i : Z)
  : LevelData :=
  let level_length := 1400 + 300 * i in
  let base_y := screen_height - platform_h a - 40 in
  let num_platforms := 8 + i / 2 in
  let step_x := Z.max 220 ((level_length - 200) / num_platforms) in
  fold_left (place_platform a base_y step_x) (range num_platforms)
            (mkLevelData [] [] [] level_length).

Definition generate_levels (num_levels screen_height : Z) (a : Assets)
  : list LevelData :=
  fold_left (fun levels i => levels ++ [generate_level screen_height a i])
            (range num_levels) [].

(** The coins of a level are fresh objects: the [k]-th gets identity
    [k]. *)
Fixpoint make_coins (a : Assets) (k : nat) (l : list (Z * Z))
  : list AnimatedCoin :=
  match l with
  | [] => []
  | (x, y) :: l' =>
      mkCoin k (Rect.mk x y (coin_w a) (coin_h a)) :: make_coins a (S k) l'
  end.

(** [Enemy(x, platform_y, min_x, max_x, image, hurt_sound)]. *)
Definition new_enemy (a : Assets) (d : Z * Z * Z * Z) : Enemy :=
  let '(x, platform_y, min_x, max_x) := d in
  mkEnemy (Rect.mk x (platform_y - enemy_h a) (enemy_w a) (enemy_h a))
          min_x max_x 2.

(** The closure [load_level] of [main]. *)
Definition load_level (a : Assets) (levels : list LevelData) (i : Z)
  : option (list Rect.t * list AnimatedCoin * list Enemy * Z) :=
  match getitem levels i with
  | None => None
  | Some data =>
      Some (map (fun xy => Rect.mk (fst xy) (snd xy)
                                   (platform_w a) (platform_h a))
                (data_platforms data),
            make_coins a 0 (data_coins data),
            map (new_enemy a) (data_enemies data),
            data_length data)
  end.

(** [coins.remove(coin)]: the first occurrence of the object is dropped;
    [None] stands for the [ValueError] of an absent object. *)
Fixpoint remove (c : AnimatedCoin) (l : list AnimatedCoin)
  : option (list AnimatedCoin) :=
  match l with
  | [] => None
  | c' :: l' =>
      if Nat.eqb (coin_id c') (coin_id c) then Some l'
      else option_map (cons c') (remove c l')
  end.

(** Body of the loop [for coin in coins[:]] of [main]. *)
Definition collect_step (player_rect : Rect.t)
           (st : option (list AnimatedCoin * Z)) (coin : AnimatedCoin)
  : option (list AnimatedCoin * Z) :=
  match st with
  | None => None
  | Some (coins, score) =>
      if Rect.colliderect player_rect (coin_rect coin) then
        option_map (fun coins' => (coins', score + 1)) (remove coin coins)
      else Some (coins, score)
  end.

(** The coin loop: it runs over a copy of the list and removes from the
    list itself. *)
Definition collect_coins (player_rect : Rect.t)
           (coins : list AnimatedCoin) (score : Z)
  : option (list AnimatedCoin * Z) :=
  fold_left (collect_step player_rect) coins (Some (coins, score)).

(** The enemy loop of [main]: the first enemy the player touches costs a
    life and sends the player back to the start; the loop then breaks. *)
Fixpoint enemy_collision (enemies : list Enemy) (lives : Z) (p : Player)
  : Z * Player :=
  match enemies with
  | [] => (lives, p)
  | enemy :: rest =>
      if Rect.colliderect (rect p) (enemy_rect enemy) then
        (lives - 1, reset_position 100 (screen_height - 200) p)
      else enemy_collision rest lives p
  end.

(** The camera update at the end of the frame. *)
Definition camera (player_rect : Rect.t) (level_length : Z) : Z :=
  let offset_x := Rect.x player_rect - screen_width / 2 in
  let offset_x := if offset_x <? 0 then 0 else offset_x in
  let max_offset := level_length - screen_width in
  if offset_x >? max_offset then max_offset else offset_x.

(** The local variables of [main] that the loop reads and writes. *)
Record Game : Set := mkGame {
  levels : list LevelData;
  current_level : Z;
  score : Z;
  lives : Z;
  game_over : bool;
  game_completed : bool;
  platforms : list Rect.t;
  coins : list AnimatedCoin;
  enemies : list Enemy;
  level_length : Z;
  player : Player;
  offset_x : Z
}.

(** The simulation part of one iteration of the main loop, guarded by
    [if not game_over and not game_completed]. *)
Definition simulate (a : Assets) (keys : Keys) (g : Game) : option Game :=
  let (dx, p) := handle_input keys (player g) in
  let r := Rect.add_x (rect p) dx in
  let r := if Rect.x r <? 0 then Rect.set_x r 0 else r in
  let r := if Rect.x r >? level_length g - Rect.w r
           then Rect.set_x r (level_length g - Rect.w r) else r in
  let p := update (platforms g) (mkPlayer r (vel_y p) (on_ground p)) in
  let enemies := map enemy_update (enemies g) in
  match collect_coins (rect p) (coins g) (score g) with
  | None => None
  | Some (coins, score) =>
      let (lives, p) := enemy_collision enemies (lives g) p in
      let game_over := if lives <=? 0 then true else game_over g in
      let advance :=
        match coins with
        | [] =>
            let current_level := current_level g + 1 in
            if current_level >=? Z.of_nat (List.length (levels g)) then
              Some (current_level, true,
                    (platforms g, coins, enemies, level_length g), p)
            else
              option_map
                (fun l => (current_level, game_completed g, l,
                           reset_position 100 (screen_height - 200) p))
                (load_level a (levels g) current_level)
        | _ :: _ =>
            Some (current_level g, game_completed g,
                  (platforms g, coins, enemies, level_length g), p)
        end in
      match advance with
      | None => None
      | Some (current_level, game_completed,
              (platforms, coins, enemies, level_length), p) =>
          let fell := Rect.y (rect p) >? screen_height + 300 in
          let lives := if fell then lives - 1 else lives in
          let p := if fell
                   then reset_position 100 (screen_height - 200) p
                   else p in
          let game_over :=
            if fell && (lives <=? 0) then true else game_over in
          Some (mkGame (levels g) current_level score lives game_over
                       game_completed platforms coins enemies level_length
                       p (camera (rect p) level_length))
      end
  end.

(** One iteration of [while True] in [main], drawing apart. *)
Definition frame (a : Assets) (keys : Keys) (g : Game) : option Game :=
  if negb (game_over g) && negb (game_completed g) then simulate a keys g
  else Some g.

End GameFull.

(** ** game_ultra.py *)

Module GameUltra.

Record Player : Set := mkPlayer {
  rect : Rect.t;
  vel_y : Q;
  on_ground : bool
}.

(** [Player.handle_input]: the horizontal delta and the player after a
    possible jump. *)
Definition handle_input (keys : Keys) (p : Player) : Q * Player :=
  let dx := 0%Q in
  let dx := if K_LEFT keys || K_a keys then (-5)%Q else dx in
  let dx := if K_RIGHT keys || K_d keys then 5%Q else dx in
  if (K_SPACE keys || K_UP keys || K_w keys) && on_ground p
  then (dx, mkPlayer (rect p) (-12)%Q false)
  else (dx, p).

Definition apply_gravity (p : Player) : Player :=
  let v := Float.add (vel_y p) Float.half in
  mkPlayer (rect p) (if Float.ltb 10%Q v then 10%Q else v) (on_ground p).

(** Body of the loop of the horizontal pass. *)
Definition horizontal_step (dx : Q) (r plat : Rect.t) : Rect.t :=
  if Rect.colliderect r plat then
    if Float.ltb 0%Q dx then Rect.set_right r (Rect.left plat)
    else if Float.ltb dx 0%Q then Rect.set_left r (Rect.right plat)
    else r
  else r.

(** Body of the loop of the first vertical pass. *)
Definition vertical_step (p : Player) (plat : Rect.t) : Player :=
  if Rect.colliderect (rect p) plat then
    if Float.ltb 0%Q (vel_y p) then
      mkPlayer (Rect.set_bottom (rect p) (Rect.top plat)) 0%Q true
    else if Float.ltb (vel_y p) 0%Q then
      mkPlayer (Rect.set_top (rect p) (Rect.bottom plat)) 0%Q (on_ground p)
    else p
  else p.

(** The threshold [1e-3] of the second pass. *)
Definition epsilon : Q := 1 # 1000.

(** The loop of the second pass; it breaks at the first platform the
    player is snapped to. *)
Fixpoint snap_to_platform (platforms : list Rect.t) (p : Player) : Player :=
  match platforms with
  | [] => p
  | plat :: rest =>
      if (Rect.right (rect p) >? Rect.left plat)
         && (Rect.left (rect p) <? Rect.right plat) then
        let delta := Rect.top plat - Rect.bottom (rect p) in
        if (0 <=? delta) && (delta <=? 3) then
          mkPlayer (Rect.set_bottom (rect p) (Rect.top plat)) (vel_y p) true
        else snap_to_platform rest p
      else snap_to_platform rest p
  end.

(** The second pass with its guard. *)
Definition second_pass (platforms : list Rect.t) (p : Player) : Player :=
  if negb (on_ground p) && Float.ltb (Float.abs (vel_y p)) epsilon
  then snap_to_platform platforms p
  else p.

(** The two vertical passes, from [self.on_ground = False] on. *)
Definition vertical_collisions (platforms : list Rect.t) (p : Player)
  : Player :=
  let p := fold_left vertical_step platforms
                     (mkPlayer (rect p) (vel_y p) false) in
  second_pass platforms p.

(** [Player.update(platforms, dx)]. *)
Definition update (platforms : list Rect.t) (dx : Q) (p : Player)
  : Player :=
  let r := Rect.add_x (rect p) dx in
  let r := fold_left (horizontal_step dx) platforms r in
  let p := apply_gravity (mkPlayer r (vel_y p) (on_ground p)) in
  let p := mkPlayer (Rect.add_y (rect p) (vel_y p)) (vel_y p)
                    (on_ground p) in
  vertical_collisions platforms p.

Definition reset_position (x y : Z) (p : Player) : Player :=
  mkPlayer (Rect.set_y (Rect.set_x (rect p) x) y) 0%Q true.

Record Enemy : Set := mkEnemy {
  enemy_rect : Rect.t;
  min_x : Z;
  max_x : Z;
  speed : Q
}.

(** [Enemy.update]; the speed is the float [1.5], so the new abscissa is
    converted back to an integer when it is stored. *)
Definition enemy_update (e : Enemy) : Enemy :=
  let r := Rect.add_x (enemy_rect e) (speed e) in
  if (Rect.x r <? min_x e) || (Rect.x r >? max_x e) then
    mkEnemy (Rect.set_x r (Z.max (Z.min (Rect.x r) (max_x e)) (min_x e)))
            (min_x e) (max_x e) (Float.mul (speed e) (-1)%Q)
  else mkEnemy r (min_x e) (max_x e) (speed e).

End GameUltra.

(** ** game_final.py

    [GRAVITY] is [0.8] here, which binary floating point only
    approximates; the vertical velocity of this variant is idealised as an
    exact rational.  The properties proved of this variant do not depend
    on the sums of several additions of gravity, where the two could
    part. *)

Module GameFinal.

Definition SCREEN_WIDTH : Z := 1000.
Definition SCREEN_HEIGHT : Z := 600.
Definition GRAVITY : Q := 4 # 5.
Definition PLAYER_SPEED : Z := 5.
Definition PLAYER_JUMP_VELOCITY : Z := -16.
Definition ATTACK_DURATION : Z := 15.
Definition ENEMY_SPEED : Z := 2.
Definition LEVEL_COUNT : Z := 30.

(** The sprites.  A [Platform] and a [Coin] are their rectangle; several
    coins or enemies may sit at the same place, and [enemy_id] stands for
    the identity of the enemy object, which is what [kill] goes by. *)
Definition Platform : Set := Rect.t.
Definition Coin : Set := Rect.t.

Record Enemy : Set := mkEnemy {
  enemy_id : nat;
  enemy_rect : Rect.t;
  enemy_direction : Z;
  enemy_speed : Z
}.

Record Player : Set := mkPlayer {
  rect : Rect.t;
  direction : Z;
  vel_x : Z;
  vel_y : Q;
  on_ground : bool;
  attacking : bool;
  attack_timer : Z;
  lives : Z;
  score : Z
}.

Definition set_rect (p : Player) (r : Rect.t) : Player :=
  mkPlayer r (direction p) (vel_x p) (vel_y p) (on_ground p)
           (attacking p) (attack_timer p) (lives p) (score p).

(** [pygame.sprite.spritecollide(sprite, group, dokill)]: the sprites of
    the group whose rectangle collides with the sprite's, in the order of
    the group, and the group afterwards. *)
Definition spritecollide {S : Type} (rect_of : S -> Rect.t) (r : Rect.t)
           (group : list S) (dokill : bool) : list S * list S :=
  (filter (fun s => Rect.colliderect r (rect_of s)) group,
   if dokill
   then filter (fun s => negb (Rect.colliderect r (rect_of s))) group
   else group).

(** [enemy.kill()]: the object leaves the group. *)
Definition kill (e : Enemy) (group : list Enemy) : list Enemy :=
  filter (fun e' => negb (Nat.eqb (enemy_id e') (enemy_id e))) group.

(** [Player.handle_input(keys)]. *)
Definition handle_input (keys : Keys) (p : Player) : Player :=
  if negb (attacking p) then
    let vel_x := 0 in
    let direction := direction p in
    let '(vel_x, direction) :=
      if K_LEFT keys || K_a keys then (- PLAYER_SPEED, -1)
      else (vel_x, direction) in
    let '(vel_x, direction) :=
      if K_RIGHT keys || K_d keys then (PLAYER_SPEED, 1)
      else (vel_x, direction) in
    let '(vel_y, on_ground) :=
      if (K_SPACE keys || K_w keys || K_UP keys) && on_ground p
      then (Float.of_int PLAYER_JUMP_VELOCITY, false)
      else (vel_y p, on_ground p) in
    let '(attacking, attack_timer) :=
      if K_f keys then (true, ATTACK_DURATION)
      else (attacking p, attack_timer p) in
    mkPlayer (rect p) direction vel_x vel_y on_ground attacking
             attack_timer (lives p) (score p)
  else p.

(** [Player.handle_horizontal_collisions]: the colliding platforms are
    collected first, then the loop clamps against each of them. *)
Definition horizontal_step (vel_x : Z) (r : Rect.t) (plat : Platform)
  : Rect.t :=
  if vel_x >? 0 then Rect.set_right r (Rect.left plat)
  else if vel_x <? 0 then Rect.set_left r (Rect.right plat)
  else r.

Definition handle_horizontal_collisions (platforms : list Platform)
           (p : Player) : Player :=
  let collisions :=
    fst (spritecollide (fun s => s) (rect p) platforms false) in
  set_rect p (fold_left (horizontal_step (vel_x p)) collisions (rect p)).

(** Body of the loop of the first pass of
    [Player.handle_vertical_collisions]. *)
Definition vertical_step (p : Player) (plat : Platform) : Player :=
  if Float.ltb 0%Q (vel_y p) then
    mkPlayer (Rect.set_bottom (rect p) (Rect.top plat)) (direction p)
             (vel_x p) 0%Q true (attacking p) (attack_timer p) (lives p)
             (score p)
  else if Float.ltb (vel_y p) 0%Q then
    mkPlayer (Rect.set_top (rect p) (Rect.bottom plat)) (direction p)
             (vel_x p) 0%Q (on_ground p) (attacking p) (attack_timer p)
             (lives p) (score p)
  else p.

Definition epsilon : Q := 1 # 1000.

(** The loop of the second pass; it breaks at the first platform the
    player is snapped to. *)
Fixpoint snap_to_platform (platforms : list Platform) (p : Player)
  : Player :=
  match platforms with
  | [] => p
  | plat :: rest =>
      if (Rect.right (rect p) >? Rect.left plat)
         && (Rect.left (rect p) <? Rect.right plat) then
        let delta := Rect.top plat - Rect.bottom (rect p) in
        if (0 <=? delta) && (delta <=? 3) then
          mkPlayer (Rect.set_bottom (rect p) (Rect.top plat)) (direction p)
                   (vel_x p) (vel_y p) true (attacking p) (attack_timer p)
                   (lives p) (score p)
        else snap_to_platform rest p
      else snap_to_platform rest p
  end.

Definition handle_vertical_collisions (platforms : list Platform)
           (p : Player) : Player :=
  let p := mkPlayer (rect p) (direction p) (vel_x p) (vel_y p) false
                    (attacking p) (attack_timer p) (lives p) (score p) in
  let collisions :=
    fst (spritecollide (fun s => s) (rect p) platforms false) in
  let p := fold_left vertical_step collisions p in
  if negb (on_ground p) && Float.ltb (Float.abs (vel_y p)) epsilon
  then snap_to_platform platforms p
  else p.

(** The coin block of [Player.update]. *)
Definition collect_coins (coins : list Coin) (p : Player)
  : list Coin * Player :=
  let (coin_hits, coins) := spritecollide (fun s => s) (rect p) coins true in
  (coins,
   match coin_hits with
   | [] => p
   | _ :: _ =>
       mkPlayer (rect p) (direction p) (vel_x p) (vel_y p) (on_ground p)
                (attacking p) (attack_timer p) (lives p)
                (score p + Z.of_nat (List.length coin_hits))
   end).

(** What a contact does to a player who is not attacking. *)
Definition hurt (p : Player) : Player :=
  mkPlayer (Rect.set_x (rect p) (Rect.x (rect p) - direction p * 20))
           (direction p) (vel_x p) 0%Q false (attacking p)
           (attack_timer p) (lives p - 1) (score p).

(** The loop over [enemy_hits] in [Player.update]; it breaks after the
    first contact that hurts. *)
Fixpoint enemy_loop (enemy_hits enemies : list Enemy) (p : Player)
  : list Enemy * Player :=
  match enemy_hits with
  | [] => (enemies, p)
  | enemy :: rest =>
      if attacking p then enemy_loop rest (kill enemy enemies) p
      else (enemies, hurt p)
  end.

(** The enemy block of [Player.update]. *)
Definition collide_enemies (enemies : list Enemy) (p : Player)
  : list Enemy * Player :=
  let enemy_hits := fst (spritecollide enemy_rect (rect p) enemies false) in
  enemy_loop enemy_hits enemies p.

(** The attack timer block of [Player.update]. *)
Definition update_attack_timer (p : Player) : Player :=
  if attacking p then
    let attack_timer := attack_timer p - 1 in
    mkPlayer (rect p) (direction p) (vel_x p) (vel_y p) (on_ground p)
             (if attack_timer <=? 0 then false else attacking p)
             attack_timer (lives p) (score p)
  else p.

(** [Player.update()], on the player and the groups it shares with the
    game. *)
Definition update (platforms : list Platform) (coins : list Coin)
           (enemies : list Enemy) (p : Player)
  : list Coin * list Enemy * Player :=
  let p := mkPlayer (rect p) (direction p) (vel_x p)
                    (Float.add (vel_y p) GRAVITY) (on_ground p)
                    (attacking p) (attack_timer p) (lives p) (score p) in
  let p := set_rect p (Rect.set_x (rect p) (Rect.x (rect p) + vel_x p)) in
  let p := handle_horizontal_collisions platforms p in
  let p := set_rect p (Rect.add_y (rect p) (vel_y p)) in
  let p := handle_vertical_collisions platforms p in
  let (coins, p) := collect_coins coins p in
  let (enemies, p) := collide_enemies enemies p in
  let p := update_attack_timer p in
  (coins, enemies, p).

(** The camera block of [Game.run]. *)
Definition camera (player_rect : Rect.t) (world_width : Z) : Z :=
  let camera_x := Rect.centerx player_rect - SCREEN_WIDTH / 2 in
  Z.max 0 (Z.min camera_x (world_width - SCREEN_WIDTH)).

(** [Enemy.update(camera_dx)]; [platforms] is the group the enemy was
    given at its creation, as it stands when the enemy is updated. *)
Definition enemy_update (platforms : list Platform) (camera_dx : Z)
           (e : Enemy) : Enemy :=
  let r := Rect.set_x (enemy_rect e)
                      (Rect.x (enemy_rect e)
                       + enemy_direction e * enemy_speed e) in
  let below := Rect.set_y r (Rect.y r + 5) in
  let on_platform := existsb (Rect.colliderect below) platforms in
  let '(r, direction) :=
    if negb on_platform then
      let direction := enemy_direction e * -1 in
      (Rect.set_x r (Rect.x r + direction * enemy_speed e * 2), direction)
    else (r, enemy_direction e) in
  mkEnemy (enemy_id e) (Rect.set_x r (Rect.x r - camera_dx)) direction
          (enemy_speed e).

(** Events of the pygame queue, as far as the game tells them apart. *)
Inductive Event : Set :=
| QUIT
| KEYDOWN (key : Z)
| OTHER.

Definition K_r : Z := 114.

(** [range(0, stop, step)] for a positive [step]. *)
Definition range_step (stop step : Z) : list Z :=
  map (fun k => k * step) (range ((stop + step - 1) / step)).

(** [max(l)] of a list of integers; [None] when the list is empty. *)
Definition list_max (l : list Z) : option Z :=
  match l with
  | [] => None
  | x :: l' => Some (fold_left Z.max l' x)
  end.

(** [l.sort(key=lambda p: (p.rect.y, p.rect.x))]: a stable sort. *)
Definition key_leb (p q : Platform) : bool :=
  (Rect.y p <? Rect.y q)
  || ((Rect.y p =? Rect.y q) && (Rect.x p <=? Rect.x q)).

Fixpoint insert_sorted (p : Platform) (l : list Platform) : list Platform :=
  match l with
  | [] => [p]
  | q :: l' => if key_leb p q then p :: l else q :: insert_sorted p l'
  end.

Definition sort (l : list Platform) : list Platform :=
  fold_right insert_sorted [] l.

Section Game.

(** Python's global random generator: its state, [random.seed(a)],
    which replaces the state, [random.randint(a, b)], and the index
    [random.choice] picks in a sequence of a given length. *)
Variable Rng : Type.
Variable seed : Z -> Rng.
Variable randint : Z -> Z -> Rng -> Z * Rng.
Variable choice : nat -> Rng -> nat * Rng.

(** Body of the loop over [p] in [generate_levels]. *)
Definition place_platform (width : Z) (st : list (Z * Z) * Rng) (p : Z)
  : list (Z * Z) * Rng :=
  let (level_platforms, g) := st in
  let (x, g) := randint 50 (width - 200) g in
  let (y, g) := randint 200 (SCREEN_HEIGHT - 150) g in
  (level_platforms ++ [(x, y)], g).

(** Body of the loop over [i] in [generate_levels]. *)
Definition generate_level (st : list (list (Z * Z)) * Rng) (i : Z)
  : list (list (Z * Z)) * Rng :=
  let (levels, g) := st in
  let base_width := 2000 in
  let width := base_width + i * 400 in
  let level_platforms := [(0, SCREEN_HEIGHT - 40)] in
  let g := seed i in
  let platform_count := 8 + i / 2 in
  let (level_platforms, g) :=
    fold_left (place_platform width) (range platform_count)
              (level_platforms, g) in
  (levels ++ [level_platforms], g).

(** [Game.generate_levels(count)], from a state of the generator. *)
Definition generate_levels (count : Z) (g : Rng)
  : list (list (Z * Z)) * Rng :=
  fold_left generate_level (range count) ([], g).

Record Game : Type := mkGame {
  running : bool;
  platforms : list Platform;
  coins : list Coin;
  enemies : list Enemy;
  player : Player;
  level_index : Z;
  levels : list (list (Z * Z));
  world_width : Z;
  game_over : bool;
  game_won : bool;
  last_camera_x : option Z;
  rng : Rng
}.

(** The platforms [load_level] spawns for one entry of the level. *)
Definition spawn_platform (a : Assets) (world_width : Z)
           (platforms : list Platform) (xy : Z * Z) : list Platform :=
  let (x, y) := xy in
  if y >=? SCREEN_HEIGHT - 40 then
    fold_left
      (fun platforms tx =>
         platforms ++ [Rect.mk tx y (platform_w a) (platform_h a)])
      (range_step world_width (platform_w a)) platforms
  else platforms ++ [Rect.mk x y (platform_w a) (platform_h a)].

(** Body of the loop that spawns the coins. *)
Definition spawn_coin (a : Assets) (platform_list : list Platform)
           (d : Platform) (st : list Coin * Rng) (_ : Z)
  : list Coin * Rng :=
  let (coins, g) := st in
  let (k, g) := choice (List.length platform_list) g in
  let plat := nth k platform_list d in
  (coins ++ [Rect.set_midbottom (Rect.mk 0 0 (coin_w a) (coin_h a))
                                (Rect.centerx plat) (Rect.top plat)],
   g).

(** Body of the loop that spawns the enemies; the constructor of
    [Enemy] draws the direction. *)
Definition spawn_enemy (a : Assets) (platform_list : list Platform)
           (d : Platform) (st : list Enemy * Rng) (_ : Z)
  : list Enemy * Rng :=
  let (enemies, g) := st in
  let (k, g) := choice (List.length platform_list) g in
  let plat := nth k platform_list d in
  let (c, g) := choice 2 g in
  let direction := nth c [-1; 1] 1 in
  (enemies
     ++ [mkEnemy (List.length enemies)
                 (Rect.set_midbottom
                    (Rect.mk 0 0 (enemy_w a) (enemy_h a))
                    (Rect.centerx plat) (Rect.top plat))
                 direction ENEMY_SPEED],
   g).

(** [Game.load_level(index)]; [None] stands for the exception of an
    index out of range or of a level without platforms. *)
Definition load_level (a : Assets) (index : Z) (g : Game)
  : option Game :=
  match getitem (levels g) index with
  | None => None
  | Some level_platforms =>
      match list_max (map fst level_platforms) with
      | None => None
      | Some m =>
          let world_width := m + 500 in
          let platforms :=
            fold_left (spawn_platform a world_width) level_platforms []
          in
          let coin_count := 6 + index / 2 in
          let platform_list :=
            filter (fun p => Rect.y p <? SCREEN_HEIGHT - 50) platforms in
          let n := Z.of_nat (List.length platform_list) in
          let (coins, r) :=
            match platform_list with
            | [] => ([], seed (index + 100))
            | d :: _ =>
                fold_left (spawn_coin a platform_list d)
                          (range (Z.min coin_count n))
                          ([], seed (index + 100))
            end in
          let enemy_count := 3 + index / 3 in
          let (enemies, r) :=
            match platform_list with
            | [] => ([], seed (index + 200))
            | d :: _ =>
                fold_left (spawn_enemy a platform_list d)
                          (range (Z.min enemy_count n))
                          ([], seed (index + 200))
            end in
          let p := player g in
          let spawn_plats :=
            filter (fun p => Rect.y p <? SCREEN_HEIGHT - 50) platforms in
          let '(r', vel_y) :=
            match sort spawn_plats with
            | plat :: _ =>
                (Rect.set_midbottom (rect p) (Rect.x plat + 20)
                                    (Rect.top plat), 0%Q)
            | [] =>
                (Rect.set_midbottom (rect p) 50 (SCREEN_HEIGHT - 50),
                 vel_y p)
            end in
          Some (mkGame (running g) platforms coins enemies
                       (mkPlayer r' (direction p) (vel_x p) vel_y
                                 (on_ground p) (attacking p)
                                 (attack_timer p) 3 0)
                       (level_index g) (levels g) world_width false false
                       (last_camera_x g) r)
      end
  end.

(** The event loop at the head of an iteration of [Game.run]. *)
Definition quit_requested (events : list Event) : bool :=
  existsb (fun e => match e with QUIT => true | _ => false end) events.

(** Respawn after a fall, in [Game.run]. *)
Definition fall (g : Game) : Game :=
  let p := player g in
  if Rect.top (rect p) >? SCREEN_HEIGHT then
    let lives := lives p - 1 in
    let spawn_plats :=
      filter (fun p => Rect.y p <? SCREEN_HEIGHT - 50) (platforms g) in
    let p :=
      match spawn_plats with
      | plat :: _ =>
          mkPlayer (Rect.set_midbottom (rect p) (Rect.x plat + 20)
                                       (Rect.top plat))
                   (direction p) (vel_x p) 0%Q true (attacking p)
                   (attack_timer p) lives (score p)
      | [] =>
          mkPlayer (rect p) (direction p) (vel_x p) (vel_y p)
                   (on_ground p) (attacking p) (attack_timer p) lives
                   (score p)
      end in
    mkGame (running g) (platforms g) (coins g) (enemies g) p
           (level_index g) (levels g) (world_width g)
           (if lives <=? 0 then true else game_over g) (game_won g)
           (last_camera_x g) (rng g)
  else g.

(** The block of [Game.run] under the second test of
    [not self.game_over and not self.game_won]. *)
Definition update_entities (a : Assets) (g : Game) : option Game :=
  let camera_x := camera (rect (player g)) (world_width g) in
  let camera_dx :=
    camera_x - match last_camera_x g with Some c => c | None => 0 end in
  let '(coins, enemies, p) :=
    update (platforms g) (coins g) (enemies g) (player g) in
  let enemies := map (enemy_update (platforms g) camera_dx) enemies in
  let shift := fun r : Rect.t => Rect.set_x r (Rect.x r - camera_dx) in
  let platforms := map shift (platforms g) in
  let coins := map shift coins in
  let g := mkGame (running g) platforms coins enemies p (level_index g)
                  (levels g) (world_width g) (game_over g) (game_won g)
                  (Some camera_x) (rng g) in
  if (Nat.eqb (List.length coins) 0) && negb (game_over g) then
    let level_index := level_index g + 1 in
    let g := mkGame (running g) platforms coins enemies p level_index
                    (levels g) (world_width g) (game_over g) (game_won g)
                    (Some camera_x) (rng g) in
    if level_index >=? Z.of_nat (List.length (levels g)) then
      Some (fall (mkGame (running g) platforms coins enemies p level_index
                         (levels g) (world_width g) (game_over g) true
                         (Some camera_x) (rng g)))
    else load_level a level_index g
  else Some (fall g).

(** One iteration of the loop of [Game.run], up to the game over and
    win screens. *)
Definition run_frame (a : Assets) (keys : Keys) (events : list Event)
           (g : Game) : option Game :=
  let g := if quit_requested events
           then mkGame false (platforms g) (coins g) (enemies g)
                       (player g) (level_index g) (levels g)
                       (world_width g) (game_over g) (game_won g)
                       (last_camera_x g) (rng g)
           else g in
  let g := if negb (game_over g) && negb (game_won g)
           then mkGame (running g) (platforms g) (coins g) (enemies g)
                       (handle_input keys (player g)) (level_index g)
                       (levels g) (world_width g) (game_over g)
                       (game_won g) (last_camera_x g) (rng g)
           else g in
  if negb (game_over g) && negb (game_won g) then update_entities a g
  else Some g.

(** Body of the loop over the events in [handle_game_over] and in
    [handle_win]; the flag is [waiting]. *)
Definition wait_event (a : Assets) (st : option (Game * bool))
           (event : Event) : option (Game * bool) :=
  match st with
  | None => None
  | Some (g, waiting) =>
      match event with
      | QUIT =>
          Some (mkGame false (platforms g) (coins g) (enemies g)
                       (player g) (level_index g) (levels g)
                       (world_width g) (game_over g) (game_won g)
                       (last_camera_x g) (rng g), false)
      | KEYDOWN key =>
          if key =? K_r then
            let g := mkGame (running g) (platforms g) (coins g)
                            (enemies g) (player g) 0 (levels g)
                            (world_width g) (game_over g) (game_won g)
                            (last_camera_x g) (rng g) in
            option_map (fun g => (g, false))
                       (load_level a (level_index g) g)
          else Some (g, waiting)
      | OTHER => Some (g, waiting)
      end
  end.

(** [Game.handle_game_over()]: the loop [while waiting and
    self.running], fed with the batches of events its iterations
    read.  The result is the game and [waiting] when the loop ends or
    the batches run out. *)
Fixpoint handle_game_over (a : Assets) (batches : list (list Event))
         (g : Game) : option (Game * bool) :=
  match batches with
  | [] => Some (g, true)
  | events :: rest =>
      if running g then
        match fold_left (wait_event a) events (Some (g, true)) with
        | None => None
        | Some (g, waiting) =>
            if waiting then handle_game_over a rest g
            else Some (g, false)
        end
      else Some (g, true)
  end.

(** [Game.handle_win()] runs the same loop. *)
Definition handle_win := handle_game_over.

End Game.

Arguments mkGame {Rng}.
Arguments running {Rng}.
Arguments platforms {Rng}.
Arguments coins {Rng}.
Arguments enemies {Rng}.
Arguments player {Rng}.
Arguments level_index {Rng}.
Arguments levels {Rng}.
Arguments world_width {Rng}.
Arguments game_over {Rng}.
Arguments game_won {Rng}.
Arguments last_camera_x {Rng}.
Arguments rng {Rng}.
Arguments place_platform {Rng}.
Arguments generate_level {Rng}.
Arguments generate_levels {Rng}.
Arguments spawn_coin {Rng}.
Arguments spawn_enemy {Rng}.
Arguments load_level {Rng}.
Arguments fall {Rng}.
Arguments update_entities {Rng}.
Arguments run_frame {Rng}.
Arguments wait_event {Rng}.
Arguments handle_game_over {Rng}.
Arguments handle_win {Rng}.

End GameFinal.

(** A small linear congruential generator, to run the definitions that
    draw random numbers on examples. *)
Module Lcg.

Definition next (g : Z) : Z := (g * 1103515245 + 12345) mod 2147483648.

Definition seed (a : Z) : Z := a mod 2147483648.

Definition randint (a b : Z) (g : Z) : Z * Z :=
  (a + next g mod (b - a + 1), next g).

Definition choice (n : nat) (g : Z) : nat * Z :=
  (Z.to_nat (next g mod Z.of_nat n), next g).

End Lcg.

(** ** game_full.py: the start and the loop of [main] *)

Module GameFullMain.

(** The variables of [main] when it enters its loop: thirty levels, the
    first one loaded, the player at [(100, screen_height - 200)]. *)
Definition initial (a : Assets) : option GameFull.Game :=
  let levels := GameFull.generate_levels 30 GameFull.screen_height a in
  match GameFull.load_level a levels 0 with
  | None => None
  | Some (platforms, coins, enemies, level_length) =>
      Some (GameFull.mkGame
              levels 0 0 3 false false platforms coins enemies level_length
              (GameFull.mkPlayer
                 (Rect.mk 100 (GameFull.screen_height - 200)
                          (player_w a) (player_h a))
                 0%Q false)
              0)
  end.

(** The iterations of [while True], one per snapshot of the keys, until
    the snapshots run out or an exception ([None]) ends the program. *)
Fixpoint run (a : Assets) (inputs : list Keys) (g : GameFull.Game)
  : option GameFull.Game :=
  match inputs with
  | [] => Some g
  | keys :: rest =>
      match GameFull.frame a keys g with
      | None => None
      | Some g' => run a rest g'
      end
  end.

End GameFullMain.

(** ** Sprite animation

    The counters that pick the image to draw.  They are kept apart from
    the physics, which never reads them. *)

Module Animation.

Record t : Set := mk { frame_index : Z; frame_timer : Z }.

(** [a % n] in Python; [None] stands for [ZeroDivisionError]. *)
Definition py_mod (a n : Z) : option Z :=
  if n =? 0 then None else Some (a mod n).

(** The end of [Player.update] in game_full.py; [n] is
    [len(self.frames)]. *)
Definition full_player (n : Z) (s : t) : option t :=
  let frame_timer := frame_timer s + 1 in
  if frame_timer >=? 8 then
    option_map (fun i => mk i 0) (py_mod (frame_index s + 1) n)
  else Some (mk (frame_index s) frame_timer).

(** The end of [Player.update] in game_ultra.py; [moving] is
    [dx != 0]. *)
Definition ultra_player (n : Z) (moving : bool) (s : t) : option t :=
  if moving then
    let frame_timer := frame_timer s + 1 in
    if frame_timer >=? 8 then
      option_map (fun i => mk (i + 1) 0) (py_mod (frame_index s + 1) (n - 1))
    else Some (mk (frame_index s) frame_timer)
  else Some (mk 0 (frame_timer s)).

(** [AnimatedCoin.update] of game_full.py and game_ultra.py; the timer is
    [self.timer]. *)
Definition coin (n : Z) (s : t) : option t :=
  let timer := frame_timer s + 1 in
  if timer >=? 10 then
    option_map (fun i => mk i 0) (py_mod (frame_index s + 1) n)
  else Some (mk (frame_index s) timer).

(** [Coin.update] of game_final.py; the timer is
    [self.animation_counter], which is never reset. *)
Definition final_coin (n : Z) (s : t) : option t :=
  let animation_counter := frame_timer s + 1 in
  if animation_counter mod 10 =? 0 then
    option_map (fun i => mk i animation_counter)
               (py_mod (frame_index s + 1) n)
  else Some (mk (frame_index s) animation_counter).

(** A function of the animation applied [k] times in a row. *)
Fixpoint repeat (f : t -> option t) (k : nat) (s : t) : option t :=
  match k with
  | O => Some s
  | S k' =>
      match f s with
      | None => None
      | Some s' => repeat f k' s'
      end
  end.

End Animation.

(** ** game_final.py: the start of [Game] and the loop of [Game.run] *)

Module GameFinalMain.

(** What one iteration of [Game.run] reads: the keys held, the events of
    its event loop, and the batches of events that the game over or win
    screen reads if the iteration shows it. *)
Record Input : Set := mkInput {
  keys : Keys;
  events : list GameFinal.Event;
  screen_events : list (list GameFinal.Event)
}.

Section Run.

Variable Rng : Type.
Variable seed : Z -> Rng.
Variable randint : Z -> Z -> Rng -> Z * Rng.
Variable choice : nat -> Rng -> nat * Rng.

(** [Game.__init__], from a state of the generator.  The player is
    created at the placeholder [(100, 100)] and the groups are empty until
    [load_level(0)]; [world_width] does not exist before that call, which
    sets it. *)
Definition initial (a : Assets) (g0 : Rng) : option (GameFinal.Game Rng) :=
  let player :=
    GameFinal.mkPlayer
      (Rect.set_midbottom (Rect.mk 0 0 (player_w a) (player_h a)) 100 100)
      1 0 0%Q false false 0 3 0 in
  let (levels, r) :=
    GameFinal.generate_levels seed randint GameFinal.LEVEL_COUNT g0 in
  GameFinal.load_level
    seed choice a 0
    (GameFinal.mkGame true [] [] [] player 0 levels 0 false false None r).

(** [Game.run()]: the iterations of [while self.running], one per input,
    until the inputs run out, the game stops running, a screen waits for
    more events than it is given, or an exception ([None]) ends the
    program. *)
Fixpoint run (a : Assets) (inputs : list Input) (g : GameFinal.Game Rng)
  : option (GameFinal.Game Rng) :=
  match inputs with
  | [] => Some g
  | i :: rest =>
      if GameFinal.running g then
        match GameFinal.run_frame seed choice a (keys i) (events i) g with
        | None => None
        | Some g =>
            if GameFinal.game_over g || GameFinal.game_won g then
              match (if GameFinal.game_over g
                     then GameFinal.handle_game_over
                            seed choice a (screen_events i) g
                     else GameFinal.handle_win
                            seed choice a (screen_events i) g) with
              | None => None
              | Some (g, waiting) =>
                  if waiting && GameFinal.running g then Some g
                  else run a rest g
              end
            else run a rest g
        end
      else Some g
  end.

End Run.

Arguments initial {Rng}.
Arguments run {Rng}.

End GameFinalMain.

(** ** game_ultra.py: the levels and the loop of [main]

    The dictionaries of the levels have the keys of game_full.py and the
    class [AnimatedCoin] is the same, so that [GameFull.LevelData],
    [GameFull.AnimatedCoin], [GameFull.make_coins] and the coin loop
    [GameFull.collect_coins], which is written the same in both files,
    serve here too. *)

Module GameUltraMain.

Definition screen_width : Z := 1000.
Definition screen_height : Z := 600.

(** Body of the loop over [j] in [generate_levels]. *)
Definition place_platform (a : Assets) (base_y step : Z)
           (acc : GameFull.LevelData) (j : Z) : GameFull.LevelData :=
  let x := 100 + j * step in
  let y_offset := - ((j mod 4) * 30) in
  let y := base_y + y_offset in
  let platforms := GameFull.data_platforms acc ++ [(x, y)] in
  let coins :=
    if j mod 2 =? 0 then
      GameFull.data_coins acc
        ++ [(x + (platform_w a - coin_w a) / 2, y - coin_h a - 10)]
    else GameFull.data_coins acc in
  let enemies :=
    if j mod 4 =? 1 then
      GameFull.data_enemies acc
        ++ [(x + (platform_w a - enemy_w a) / 2, y,
             x, x + platform_w a - enemy_w a)]
    else GameFull.data_enemies acc in
  GameFull.mkLevelData platforms coins enemies (GameFull.data_length acc).

(** Body of the loop over [i] in [generate_levels]. *)
Definition generate_level (screen_height : Z) (a : Assets) (i : Z)
  : GameFull.LevelData :=
  let length := 1600 + 250 * i in
  let base_y := screen_height - platform_h a - 80 in
  let num_platforms := 10 + i / 3 in
  let step := Z.max 180 ((length - 200) / num_platforms) in
  fold_left (place_platform a base_y step) (range num_platforms)
            (GameFull.mkLevelData [] [] [] length).

Definition generate_levels (num_levels screen_height : Z) (a : Assets)
  : list GameFull.LevelData :=
  fold_left (fun levels i => levels ++ [generate_level screen_height a i])
            (range num_levels) [].

(** [Enemy(x, py, min_x, max_x, enemy_img, hurt_sound)]; the speed of an
    enemy is [1.5]. *)
Definition new_enemy (a : Assets) (d : Z * Z * Z * Z) : GameUltra.Enemy :=
  let '(x, platform_y, min_x, max_x) := d in
  GameUltra.mkEnemy
    (Rect.mk x (platform_y - enemy_h a) (enemy_w a) (enemy_h a))
    min_x max_x (3 # 2).

(** The closure [load_level] of [main]. *)
Definition load_level (a : Assets) (levels : list GameFull.LevelData)
           (idx : Z)
  : option (list Rect.t * list GameFull.AnimatedCoin
            * list GameUltra.Enemy * Z) :=
  match getitem levels idx with
  | None => None
  | Some data =>
      Some (map (fun xy => Rect.mk (fst xy) (snd xy)
                                   (platform_w a) (platform_h a))
                (GameFull.data_platforms data),
            GameFull.make_coins a 0 (GameFull.data_coins data),
            map (new_enemy a) (GameFull.data_enemies data),
            GameFull.data_length data)
  end.

(** [spawn_x] and [spawn_y], read off [platforms[0]]. *)
Definition spawn (a : Assets) (platforms : list Rect.t) : option (Z * Z) :=
  match getitem platforms 0 with
  | None => None
  | Some plat => Some (Rect.x plat + 10, Rect.y plat - player_h a)
  end.

(** The enemy loop of [main]: the first enemy the player touches costs a
    life and sends the player back to the spawn point; the loop then
    breaks. *)
Fixpoint enemy_collision (enemies : list GameUltra.Enemy) (lives : Z)
         (spawn_x spawn_y : Z) (p : GameUltra.Player)
  : Z * GameUltra.Player :=
  match enemies with
  | [] => (lives, p)
  | enemy :: rest =>
      if Rect.colliderect (GameUltra.rect p) (GameUltra.enemy_rect enemy)
      then (lives - 1, GameUltra.reset_position spawn_x spawn_y p)
      else enemy_collision rest lives spawn_x spawn_y p
  end.

(** The camera update at the end of the frame. *)
Definition camera (player_rect : Rect.t) (level_length : Z) : Z :=
  let offset_x := Rect.x player_rect - screen_width / 2 in
  let offset_x := if offset_x <? 0 then 0 else offset_x in
  let max_offset := level_length - screen_width in
  if offset_x >? max_offset then max_offset else offset_x.

(** The local variables of [main] that the loop reads and writes. *)
Record Game : Set := mkGame {
  levels : list GameFull.LevelData;
  current_level : Z;
  score : Z;
  lives : Z;
  game_over : bool;
  game_completed : bool;
  platforms : list Rect.t;
  coins : list GameFull.AnimatedCoin;
  enemies : list GameUltra.Enemy;
  level_length : Z;
  spawn_x : Z;
  spawn_y : Z;
  player : GameUltra.Player;
  offset_x : Z
}.

(** The simulation part of one iteration of the main loop, guarded by
    [if not game_over and not game_completed]. *)
Definition simulate (a : Assets) (keys : Keys) (g : Game) : option Game :=
  let (dx, p) := GameUltra.handle_input keys (player g) in
  let p := GameUltra.update (platforms g) dx p in
  let enemies := map GameUltra.enemy_update (enemies g) in
  match GameFull.collect_coins (GameUltra.rect p) (coins g) (score g) with
  | None => None
  | Some (coins, score) =>
      let (lives, p) :=
        enemy_collision enemies (lives g) (spawn_x g) (spawn_y g) p in
      let game_over := if lives <=? 0 then true else game_over g in
      let advance :=
        match coins with
        | [] =>
            let current_level := current_level g + 1 in
            if current_level >=? Z.of_nat (List.length (levels g)) then
              Some (current_level, true,
                    (platforms g, coins, enemies, level_length g),
                    (spawn_x g, spawn_y g), p)
            else
              match load_level a (levels g) current_level with
              | None => None
              | Some (platforms, coins, enemies, level_length) =>
                  match spawn a platforms with
                  | None => None
                  | Some (spawn_x, spawn_y) =>
                      Some (current_level, game_completed g,
                            (platforms, coins, enemies, level_length),
                            (spawn_x, spawn_y),
                            GameUltra.reset_position spawn_x spawn_y p)
                  end
              end
        | _ :: _ =>
            Some (current_level g, game_completed g,
                  (platforms g, coins, enemies, level_length g),
                  (spawn_x g, spawn_y g), p)
        end in
      match advance with
      | None => None
      | Some (current_level, game_completed,
              (platforms, coins, enemies, level_length),
              (spawn_x, spawn_y), p) =>
          let fell := Rect.y (GameUltra.rect p) >? screen_height + 300 in
          let lives := if fell then lives - 1 else lives in
          let p := if fell
                   then GameUltra.reset_position spawn_x spawn_y p
                   else p in
          let game_over :=
            if fell && (lives <=? 0) then true else game_over in
          Some (mkGame (levels g) current_level score lives game_over
                       game_completed platforms coins enemies level_length
                       spawn_x spawn_y p
                       (camera (GameUltra.rect p) level_length))
      end
  end.

(** One iteration of [while True] in [main], drawing apart. *)
Definition frame (a : Assets) (keys : Keys) (g : Game) : option Game :=
  if negb (game_over g) && negb (game_completed g) then simulate a keys g
  else Some g.

(** The variables of [main] when it enters its loop: thirty levels, the
    first one loaded, the player on its first platform. *)
Definition initial (a : Assets) : option Game :=
  let levels := generate_levels 30 screen_height a in
  match load_level a levels 0 with
  | None => None
  | Some (platforms, coins, enemies, level_length) =>
      match spawn a platforms with
      | None => None
      | Some (spawn_x, spawn_y) =>
          Some (mkGame
                  levels 0 0 3 false false platforms coins enemies
                  level_length spawn_x spawn_y
                  (GameUltra.mkPlayer
                     (Rect.mk spawn_x spawn_y (player_w a) (player_h a))
                     0%Q false)
                  0)
      end
  end.

(** The iterations of [while True], one per snapshot of the keys, until
    the snapshots run out or an exception ([None]) ends the program. *)
Fixpoint run (a : Assets) (inputs : list Keys) (g : Game) : option Game :=
  match inputs with
  | [] => Some g
  | keys :: rest =>
      match frame a keys g with
      | None => None
      | Some g' => run a rest g'
      end
  end.

End GameUltraMain.

(** * The vocabulary of the properties *)

(** [v] clamped into the interval from [lo] to [hi]. *)
Definition clamp (lo hi v : Z) : Z := Z.max lo (Z.min v hi).

(** game_full.py: a platform is landed on when the player collides with
    it and was above its top before the translation. *)
Definition full_lands (p : GameFull.Player) (plat : Rect.t) : bool :=
  Rect.colliderect (GameFull.rect p) plat
  && Float.leb (Float.sub (Float.of_int (Rect.bottom (GameFull.rect p)))
                          (GameFull.vel_y p))
               (Float.of_int (Rect.top plat)).

(** The test of the second pass on one platform: horizontal overlap and a
    gap of at most three units under the feet. *)
Definition within_reach (r plat : Rect.t) : bool :=
  (Rect.right r >? Rect.left plat) && (Rect.left r <? Rect.right plat)
  && (0 <=? Rect.top plat - Rect.bottom r)
  && (Rect.top plat - Rect.bottom r <=? 3).

(** The player's rectangle overlaps the coin, or the enemy. *)
Definition touches (r : Rect.t) (c : GameFull.AnimatedCoin) : bool :=
  Rect.colliderect r (GameFull.coin_rect c).

Definition hits (r : Rect.t) (e : GameFinal.Enemy) : bool :=
  Rect.colliderect r (GameFinal.enemy_rect e).

(** The identities of the coins of a list. *)
Definition ids (l : list GameFull.AnimatedCoin) : list nat :=
  map GameFull.coin_id l.

(** The coin loop of game_full.py over the successive rectangles of the
    player, one per frame, within a level. *)
Fixpoint collect_over_frames (rects : list Rect.t)
         (coins : list GameFull.AnimatedCoin) (score : Z)
  : option (list GameFull.AnimatedCoin * Z) :=
  match rects with
  | [] => Some (coins, score)
  | r :: rest =>
      match GameFull.collect_coins r coins score with
      | None => None
      | Some (coins', score') => collect_over_frames rest coins' score'
      end
  end.

(** What [Game.run] does to the player in one frame of play:
    [handle_input], then [update]. *)
Definition player_frame
           (input : Keys * list GameFinal.Platform * list GameFinal.Coin
                    * list GameFinal.Enemy) (p : GameFinal.Player)
  : GameFinal.Player :=
  let '(keys, platforms, coins, enemies) := input in
  snd (GameFinal.update platforms coins enemies
                        (GameFinal.handle_input keys p)).

(** Successive frames, each with its keys and its groups. *)
Definition player_frames
           (inputs : list (Keys * list GameFinal.Platform
                           * list GameFinal.Coin * list GameFinal.Enemy))
           (p : GameFinal.Player) : GameFinal.Player :=
  fold_left (fun p input => player_frame input p) inputs p.

(** The fields the attack mechanism reads and writes, with [vel_x]. *)
Definition attack_state (p : GameFinal.Player) : bool * Z * Z :=
  (GameFinal.attacking p, GameFinal.attack_timer p, GameFinal.vel_x p).

(** The enemy is within its patrol bounds. *)
Definition full_in_bounds (e : GameFull.Enemy) : Prop :=
  GameFull.min_x e <= Rect.x (GameFull.enemy_rect e) <= GameFull.max_x e.

Definition ultra_in_bounds (e : GameUltra.Enemy) : Prop :=
  GameUltra.min_x e <= Rect.x (GameUltra.enemy_rect e) <= GameUltra.max_x e.

(** An entry of ['enemies']: the origin lies between the bounds. *)
Definition origin_in_bounds (d : Z * Z * Z * Z) : Prop :=
  let '(x, _, min_x, max_x) := d in min_x <= x <= max_x.

(** The platforms of level [i] of game_final.py: the ground, then the
    draws that follow [random.seed(i)]. *)
Definition final_level {Rng : Type} (seed : Z -> Rng)
           (randint : Z -> Z -> Rng -> Z * Rng) (i : Z) : list (Z * Z) :=
  fst (fold_left (GameFinal.place_platform randint (2000 + i * 400))
                 (range (8 + i / 2))
                 ([(0, GameFinal.SCREEN_HEIGHT - 40)], seed i)).

(** What [load_level] spawns: the sprites and the width of the world. *)
Definition layout {Rng : Type} (g : GameFinal.Game Rng)
  : list GameFinal.Platform * list GameFinal.Coin * list GameFinal.Enemy * Z :=
  (GameFinal.platforms g, GameFinal.coins g, GameFinal.enemies g,
   GameFinal.world_width g).

(** The game with [running] set, and with [level_index] set. *)
Definition set_running {Rng : Type} (b : bool) (g : GameFinal.Game Rng)
  : GameFinal.Game Rng :=
  GameFinal.mkGame b (GameFinal.platforms g) (GameFinal.coins g)
                   (GameFinal.enemies g) (GameFinal.player g)
                   (GameFinal.level_index g) (GameFinal.levels g)
                   (GameFinal.world_width g) (GameFinal.game_over g)
                   (GameFinal.game_won g) (GameFinal.last_camera_x g)
                   (GameFinal.rng g).

Definition set_level_index {Rng : Type} (i : Z) (g : GameFinal.Game Rng)
  : GameFinal.Game Rng :=
  GameFinal.mkGame (GameFinal.running g) (GameFinal.platforms g)
                   (GameFinal.coins g) (GameFinal.enemies g)
                   (GameFinal.player g) i (GameFinal.levels g)
                   (GameFinal.world_width g) (GameFinal.game_over g)
                   (GameFinal.game_won g) (GameFinal.last_camera_x g)
                   (GameFinal.rng g).

(** Two games that differ at most in [running]: same player, sprites,
    score, lives, level and flags. *)
Definition same_simulation {Rng : Type} (g g' : GameFinal.Game Rng) : Prop :=
  set_running true g = set_running true g'.

(** The event is the key that restarts the game. *)
Definition is_restart (e : GameFinal.Event) : bool :=
  match e with
  | GameFinal.KEYDOWN key => key =? GameFinal.K_r
  | _ => false
  end.

(** The rectangle stands on one of the platforms: its bottom is at the
    top of the platform and their horizontal extents overlap. *)
Definition stands_on (r : Rect.t) (platforms : list Rect.t) : Prop :=
  exists plat,
    In plat platforms
    /\ Rect.bottom r = Rect.top plat
    /\ Rect.left r < Rect.right plat
    /\ Rect.left plat < Rect.right r.

(** Image sizes are not negative. *)
Definition wide (r : Rect.t) : Prop := 0 <= Rect.w r.

(** game_full.py: a platform is hit from below when the player collides
    with it and had its top under the bottom of the platform before the
    translation. *)
Definition full_bumps (p : GameFull.Player) (plat : Rect.t) : bool :=
  Rect.colliderect (GameFull.rect p) plat
  && Float.leb (Float.of_int (Rect.bottom plat))
               (Float.sub (Float.of_int (Rect.top (GameFull.rect p)))
                          (GameFull.vel_y p)).

(** The vertical speeds between a jump and the cap of the fall. *)
Definition speed_in_range (v : Q) : Prop := (-12 <= v)%Q /\ (v <= 10)%Q.

(** game_full.py: the player is within the level horizontally. *)
Definition full_in_world (g : GameFull.Game) : Prop :=
  0 <= Rect.left (GameFull.rect (GameFull.player g))
  /\ Rect.right (GameFull.rect (GameFull.player g))
     <= GameFull.level_length g.

(** game_full.py: the start position [(100, ...)] leaves room for the
    player in the level loaded and in every level of the list. *)
Definition full_fits (g : GameFull.Game) : Prop :=
  100 + Rect.w (GameFull.rect (GameFull.player g))
  <= GameFull.level_length g
  /\ Forall (fun d => 100 + Rect.w (GameFull.rect (GameFull.player g))
                      <= GameFull.data_length d)
            (GameFull.levels g).

(** Sizes of images and a snapshot of the keys to run the loops on. *)
Definition sample_assets : Assets := mkAssets 120 20 40 60 20 20 40 40.

Definition key_right : Keys :=
  mkKeys false true false false false false false false.

(** game_full.py: the state in which coins are told apart and the rank of
    the level is not negative; the loop raises no exception from it. *)
Definition full_sound (g : GameFull.Game) : Prop :=
  NoDup (ids (GameFull.coins g)) /\ 0 <= GameFull.current_level g.

(** game_full.py: the player is at the start of a level, at rest. *)
Definition full_at_start (p : GameFull.Player) : Prop :=
  Rect.x (GameFull.rect p) = 100
  /\ Rect.y (GameFull.rect p) = GameFull.screen_height - 200
  /\ GameFull.vel_y p = 0%Q
  /\ GameFull.on_ground p = false.

(** game_full.py: a level that cannot be ended: one of its coins lies
    wholly beyond the length of the level, where the player cannot go. *)
Definition full_stuck (g : GameFull.Game) : Prop :=
  NoDup (ids (GameFull.coins g))
  /\ 0 <= Rect.w (GameFull.rect (GameFull.player g))
  /\ GameFull.game_completed g = false
  /\ exists c,
       In c (GameFull.coins g)
       /\ GameFull.level_length g <= Rect.x (GameFull.coin_rect c)
       /\ 0 <= Rect.w (GameFull.coin_rect c).

(** game_final.py: the order of the keys [(p.rect.y, p.rect.x)]. *)
Definition key_le (p q : Rect.t) : Prop :=
  Rect.y p < Rect.y q \/ (Rect.y p = Rect.y q /\ Rect.x p <= Rect.x q).

(** game_final.py: the platforms above the ground, where [load_level]
    spawns. *)
Definition raised (platforms : list GameFinal.Platform)
  : list GameFinal.Platform :=
  filter (fun p => Rect.y p <? GameFinal.SCREEN_HEIGHT - 50) platforms.

(** The head of a list is below all its elements in that order. *)
Definition least_first (l : list Rect.t) : Prop :=
  match l with
  | [] => True
  | h :: _ => forall q, In q l -> key_le h q
  end.

(** A game of game_final.py before [load_level]: one level with its
    ground and two platforms, and a player that falls at speed 5. *)
Definition sample_final_game : GameFinal.Game Z :=
  GameFinal.mkGame
    true [] [] []
    (GameFinal.mkPlayer (Rect.mk 80 40 40 60) 1 0 5 false false 0 3 0)
    0 [[(0, 560); (300, 400); (100, 300)]] 0 false false None 0.

(** game_final.py: the sprite of the given size that [load_level] puts on
    a platform, [midbottom] at the middle of the top of the platform. *)
Definition put_on (w h : Z) (plat : GameFinal.Platform) : Rect.t :=
  Rect.set_midbottom (Rect.mk 0 0 w h) (Rect.centerx plat) (Rect.top plat).

(** game_final.py: the camera offset the game remembers,
    [getattr(self, 'last_camera_x', 0)]. *)
Definition camera_of {Rng : Type} (g : GameFinal.Game Rng) : Z :=
  match GameFinal.last_camera_x g with
  | Some c => c
  | None => 0
  end.

(** The rectangle moved right by the offset of the camera. *)
Definition to_world (c : Z) (r : Rect.t) : Rect.t :=
  Rect.set_x r (Rect.x r + c).

(** game_final.py: the player as [Player.update] leaves it in a frame. *)
Definition final_updated {Rng : Type} (g : GameFinal.Game Rng)
  : GameFinal.Player :=
  snd (GameFinal.update (GameFinal.platforms g) (GameFinal.coins g)
                        (GameFinal.enemies g) (GameFinal.player g)).

(** A game of game_final.py in play: a player with one life left on a
    platform, touched by an enemy, and a coin out of reach. *)
Definition sample_final_frame : GameFinal.Game Z :=
  GameFinal.mkGame
    true [Rect.mk 0 500 400 20] [Rect.mk 300 100 20 20]
    [GameFinal.mkEnemy 0 (Rect.mk 120 460 40 40) 1 2]
    (GameFinal.mkPlayer (Rect.mk 100 440 40 60) 1 0 0 true false 0 1 0)
    0 [[(0, 560); (300, 400)]; [(0, 560); (300, 400)]] 800 false false
    None 0.

(** game_final.py: where [generate_levels] draws a platform of level
    [i]. *)
Definition drawn_in_level (i : Z) (xy : Z * Z) : Prop :=
  50 <= fst xy <= 2000 + i * 400 - 200
  /\ 200 <= snd xy <= GameFinal.SCREEN_HEIGHT - 150.

(** [Platform(x, y, image)] for an entry of a level. *)
Definition platform_at (a : Assets) (xy : Z * Z) : GameFinal.Platform :=
  Rect.mk (fst xy) (snd xy) (platform_w a) (platform_h a).

(** game_final.py: the game holds the levels that [generate_levels] made
    and its level index is not negative; the program raises no exception
    from such a state. *)
Definition final_sound {Rng : Type} (seed : Z -> Rng)
           (randint : Z -> Z -> Rng -> Z * Rng) (g0 : Rng)
           (g : GameFinal.Game Rng) : Prop :=
  GameFinal.levels g
  = fst (GameFinal.generate_levels seed randint GameFinal.LEVEL_COUNT g0)
  /\ 0 <= GameFinal.level_index g.

(** The rectangle one unit lower. *)
Definition sunk (r : Rect.t) : Rect.t := Rect.set_y r (Rect.y r + 1).

(** The rectangle rests on platforms: it overlaps none, and one unit
    lower it overlaps some, all of which have their top at its bottom. *)
Definition rests_on (r : Rect.t) (platforms : list Rect.t) : Prop :=
  0 <= Rect.y r
  /\ (forall q, In q platforms -> Rect.colliderect r q = false)
  /\ (exists q, In q platforms /\ Rect.colliderect (sunk r) q = true)
  /\ (forall q, In q platforms -> Rect.colliderect (sunk r) q = true ->
                Rect.top q = Rect.bottom r).

Definition key_space : Keys :=
  mkKeys false false false true false false false false.

(** game_ultra.py: the state in which the loop raises no exception.  The
    coins are told apart, the levels are those of [generate_levels], the
    spawn point is read off the first platform of the level, and the
    player has the size of its image. *)
Definition ultra_sound (a : Assets) (g : GameUltraMain.Game) : Prop :=
  NoDup (ids (GameUltraMain.coins g))
  /\ 0 <= GameUltraMain.current_level g
  /\ GameUltraMain.levels g
     = GameUltraMain.generate_levels 30 GameUltraMain.screen_height a
  /\ (exists P rest,
         GameUltraMain.platforms g = P :: rest
         /\ Rect.w P = platform_w a
         /\ GameUltraMain.spawn_x g = Rect.x P + 10
         /\ GameUltraMain.spawn_y g = Rect.y P - player_h a)
  /\ Rect.w (GameUltra.rect (GameUltraMain.player g)) = player_w a
  /\ Rect.h (GameUltra.rect (GameUltraMain.player g)) = player_h a.

(** The rectangle put against a platform that is in its way: on its left
    when the move is to the right, on its right otherwise. *)
Definition put_against (to_right : bool) (r plat : Rect.t) : Rect.t :=
  if to_right then Rect.set_right r (Rect.left plat)
  else Rect.set_left r (Rect.right plat).

(** game_final.py: the ground [load_level] lays, tiles of the platform
    image side by side from 0 across the world, at the height of the
    ground entry of a generated level. *)
Definition ground_tiles (a : Assets) (world_width : Z)
  : list GameFinal.Platform :=
  map (fun tx => Rect.mk tx (GameFinal.SCREEN_HEIGHT - 40)
                         (platform_w a) (platform_h a))
      (GameFinal.range_step world_width (platform_w a)).

(** * Properties *)

(** ** The definitions at work *)

(** main.py as it starts: the player is created with its bottom at 500
    over the ground [Platform(0, 560, 800, 40)].  The first frame makes the
    velocity one half and moves nothing; after sixteen frames the player
    stands on the ground. *)
Example main_free_fall :
  let platforms := [Rect.mk 0 560 800 40; Rect.mk 200 450 120 20;
                    Rect.mk 400 350 150 20; Rect.mk 650 250 100 20] in
  let p := MainPy.mkPlayer (Rect.mk 100 440 40 60) 0 0%Q false in
  MainPy.update no_keys platforms p
  = MainPy.mkPlayer (Rect.mk 100 440 40 60) 0 (1 # 2)%Q false
  /\ Nat.iter 16 (MainPy.update no_keys platforms) p
     = MainPy.mkPlayer (Rect.mk 100 500 40 60) 0 0%Q true.
Proof. split; vm_compute; reflexivity. Qed.

(** The first level of game_full.py for a platform of 120 by 20, a coin
    of 20 by 20 and an enemy 40 wide. *)
Example full_first_level :
  GameFull.generate_level 600 (mkAssets 120 20 40 60 20 20 40 40) 0
  = GameFull.mkLevelData
      [(100, 540); (320, 500); (540, 460); (760, 420); (980, 380);
       (1200, 540); (1420, 500); (1640, 460)]
      [(150, 510); (590, 430); (1030, 350); (1470, 470)]
      [(360, 500, 320, 400); (1020, 380, 980, 1060);
       (1680, 460, 1640, 1720)]
      1400.
Proof. vm_compute. reflexivity. Qed.

(** ** Tactics *)

(** Case analysis along the body of [GameFinal.load_level], once the level
    and its width are known: the pairs the spawning loops return and the
    sorted list of spawn platforms. *)
Ltac load_level_cases :=
  repeat match goal with
         | |- context [let (_, _) := ?x in _] => destruct x
         | |- context [match GameFinal.sort ?x with _ => _ end] =>
             destruct (GameFinal.sort x)
         end.

(** A test [a <? b], [a >? b] or a disjunction of the two, turned into
    the inequalities it decides. *)
Ltac bounds_of H :=
  repeat match type of H with
         | _ || _ = true => apply orb_true_iff in H; destruct H as [H | H]
         | _ || _ = false =>
             let H' := fresh H in
             apply orb_false_iff in H; destruct H as [H H']; bounds_of H'
         | (_ <? _) = true => apply Z.ltb_lt in H
         | (_ <? _) = false => apply Z.ltb_ge in H
         | (_ >? _) = true => apply Z.gtb_lt in H
         | (_ >? _) = false => rewrite Z.gtb_ltb in H; apply Z.ltb_ge in H
         end.

(** ** Floats and rectangles *)

Section FloatFacts.

Lemma ltb_lt (a b : Q) : Float.ltb a b = true <-> (a < b)%Q.
Proof.
  unfold Float.ltb. rewrite negb_true_iff.
  split; intro H.
  - apply Qnot_le_lt. intro Hle. apply Qle_bool_iff in Hle. congruence.
  - apply not_true_is_false. intro Hle. apply Qle_bool_iff in Hle.
    apply (Qlt_not_le _ _ H Hle).
Qed.

Lemma ltb_ge (a b : Q) : Float.ltb a b = false <-> (b <= a)%Q.
Proof.
  unfold Float.ltb. rewrite negb_false_iff. apply Qle_bool_iff.
Qed.

Lemma leb_le (a b : Q) : Float.leb a b = true <-> (a <= b)%Q.
Proof. apply Qle_bool_iff. Qed.

Lemma ltb_irrefl (a : Q) : Float.ltb a a = false.
Proof. apply ltb_ge. apply Qle_refl. Qed.

(** On a float that is not negative the conversion is the floor. *)
Lemma to_int_nonneg (q : Q) : (0 <= q)%Q -> Float.to_int q = Qfloor q.
Proof.
  destruct q as [n d]. unfold Qle, Float.to_int, Qfloor. simpl. intro H.
  apply Z.quot_div_nonneg; lia.
Qed.

Lemma to_int_opp (q : Q) : Float.to_int (- q) = - Float.to_int q.
Proof.
  destruct q as [n d]. unfold Float.to_int. simpl.
  apply Z.quot_opp_l. lia.
Qed.

Lemma to_int_comp (a b : Q) : (a == b)%Q -> Float.to_int a = Float.to_int b.
Proof.
  intro E. destruct (Qlt_le_dec a 0) as [Hneg | Hpos].
  - assert (Ha : (0 <= - a)%Q) by (apply (Qopp_le_compat a 0); auto with qarith).
    assert (Hb : (0 <= - b)%Q) by (rewrite <- E; exact Ha).
    apply Z.opp_inj. rewrite <- !to_int_opp.
    rewrite (to_int_nonneg _ Ha), (to_int_nonneg _ Hb).
    apply Qfloor_comp. rewrite E. reflexivity.
  - assert (Hb : (0 <= b)%Q) by (rewrite <- E; exact Hpos).
    rewrite (to_int_nonneg _ Hpos), (to_int_nonneg _ Hb).
    apply Qfloor_comp. exact E.
Qed.

(** Adding a float that is not negative to an integer that is not
    negative moves it by the whole part of the float. *)
Lemma to_int_add_nonneg (z : Z) (v : Q) :
  0 <= z -> (0 <= v)%Q ->
  Float.to_int (Float.add (Float.of_int z) v) = z + Qfloor v.
Proof.
  intros Hz Hv. unfold Float.add, Float.of_int.
  rewrite (to_int_comp _ _ (Qred_correct _)).
  assert (H0 : (0 <= inject_Z z + v)%Q).
  { replace 0%Q with (0 + 0)%Q by reflexivity.
    apply Qplus_le_compat; [| exact Hv].
    change 0%Q with (inject_Z 0). rewrite <- Zle_Qle. exact Hz. }
  rewrite (to_int_nonneg _ H0).
  destruct v as [n d]. unfold Qfloor, Qplus, inject_Z. simpl.
  rewrite Z.mul_1_r.
  rewrite Z.add_comm, Z.div_add by lia. lia.
Qed.

Lemma Qfloor_small (v : Q) : (0 <= v)%Q -> (Qfloor v = 0 <-> (v < 1)%Q).
Proof.
  intro Hv. split; intro H.
  - apply Qlt_le_trans with (inject_Z (Qfloor v + 1)).
    + apply Qlt_floor.
    + rewrite H. apply Qle_refl.
  - assert (Hlo : 0 <= Qfloor v).
    { change 0 with (Qfloor 0). apply Qfloor_resp_le. exact Hv. }
    assert (Hhi : Qfloor v < 1).
    { rewrite Zlt_Qlt. apply Qle_lt_trans with v; [apply Qfloor_le | exact H]. }
    lia.
Qed.

End FloatFacts.

(** ** Vertical translation (C10) *)

Section Translation.

(** The rectangle [Player.update] hands to its collision loop is the old
    one moved by the velocity gravity has produced, in both variants. *)
Lemma full_update_translates (p : GameFull.Player) :
  GameFull.update [] p
  = GameFull.mkPlayer
      (Rect.add_y (GameFull.rect p)
                  (GameFull.apply_gravity (GameFull.vel_y p)))
      (GameFull.apply_gravity (GameFull.vel_y p)) false.
Proof. reflexivity. Qed.

Lemma main_update_translates (p : MainPy.Player) :
  MainPy.rect (MainPy.update no_keys [] p)
  = Rect.add_y (MainPy.rect p) (MainPy.apply_gravity (MainPy.vy p)).
Proof.
  unfold MainPy.update, MainPy.vertical_collisions. simpl.
  destruct (MainPy.rect p) as [x y w h]. unfold Rect.set_x. simpl.
  rewrite Z.add_0_r. reflexivity.
Qed.

Lemma add_y_whole_part (r : Rect.t) (v : Q) :
  0 <= Rect.y r -> (0 <= v)%Q ->
  Rect.y (Rect.add_y r v) = Rect.y r + Qfloor v.
Proof. intros Hy Hv. unfold Rect.add_y. simpl. apply to_int_add_nonneg; assumption. Qed.

End Translation.

(** C10, amended: positions are integers and the vertical translation
    [rect.y += vel_y] drops the fractional part of the sum.  For a
    rectangle whose ordinate is not negative and a velocity with
    [0 <= vel_y], the ordinate moves by the whole part of the velocity: it
    is unchanged when [vel_y < 1] and grows as soon as [1 <= vel_y]. *)
Theorem C10_translation_drops_fraction :
  forall (r : Rect.t) (v : Q),
    0 <= Rect.y r -> (0 <= v)%Q ->
    ((v < 1)%Q -> Rect.y (Rect.add_y r v) = Rect.y r)
    /\ ((1 <= v)%Q -> Rect.y r < Rect.y (Rect.add_y r v))
    /\ Rect.x (Rect.add_y r v) = Rect.x r.
Proof.
  intros r v Hy Hv. rewrite (add_y_whole_part r v Hy Hv).
  split; [| split].
  - intro H. apply (Qfloor_small v Hv) in H. lia.
  - intro H. assert (1 <= Qfloor v).
    { change 1 with (Qfloor 1). apply Qfloor_resp_le. exact H. }
    lia.
  - reflexivity.
Qed.

(** The first frame of free fall in game_full.py from [(100, 400)]:
    gravity makes the velocity one half and the player does not move. *)
Lemma C10_translation_drops_fraction_witness :
  let p := GameFull.mkPlayer (Rect.mk 100 400 40 60) 0%Q false in
  let v := GameFull.apply_gravity (GameFull.vel_y p) in
  v = (1 # 2)%Q
  /\ Rect.y (GameFull.rect (GameFull.update [] p)) = 400.
Proof.
  split; [reflexivity |].
  rewrite full_update_translates. simpl GameFull.rect.
  apply (C10_translation_drops_fraction (Rect.mk 100 400 40 60) (1 # 2)).
  - simpl. lia.
  - unfold Qle. simpl. lia.
  - unfold Qlt. simpl. lia.
Defined.

(** Above the top of the window the conversion rounds up: a player at
    ordinate [-1] with velocity one half moves to ordinate [0]. *)
Lemma C10_counterexample :
  let p := GameFull.mkPlayer (Rect.mk 100 (-1) 40 60) 0%Q false in
  let v := GameFull.apply_gravity (GameFull.vel_y p) in
  (0 < v)%Q /\ (v < 1)%Q
  /\ Rect.y (GameFull.rect (GameFull.update [] p))
     <> Rect.y (GameFull.rect p).
Proof.
  simpl. split; [| split].
  - reflexivity.
  - reflexivity.
  - vm_compute. discriminate.
Qed.

(** ** The first vertical pass (C1) *)

Section Landing.

(** main.py: once the velocity is zero the loop changes nothing. *)
Lemma main_step_at_rest (p : MainPy.Player) (plat : Rect.t) :
  MainPy.vy p = 0%Q -> MainPy.vertical_step p plat = p.
Proof.
  intro H. unfold MainPy.vertical_step. rewrite H.
  destruct (Rect.colliderect _ _); reflexivity.
Qed.

Lemma main_pass_at_rest (l : list Rect.t) (p : MainPy.Player) :
  MainPy.vy p = 0%Q -> fold_left MainPy.vertical_step l p = p.
Proof.
  induction l as [| plat l IH]; intro H; simpl.
  - reflexivity.
  - rewrite (main_step_at_rest p plat H). apply IH, H.
Qed.

Lemma main_pass_no_overlap (l : list Rect.t) (p : MainPy.Player) :
  (forall q, In q l -> Rect.colliderect (MainPy.rect p) q = false) ->
  fold_left MainPy.vertical_step l p = p.
Proof.
  induction l as [| plat l IH]; intro H; simpl.
  - reflexivity.
  - unfold MainPy.vertical_step at 2.
    rewrite (H plat (or_introl eq_refl)).
    apply IH. intros q Hq. apply H. right. exact Hq.
Qed.

Lemma main_lands_on_first (pre post : list Rect.t) (P : Rect.t)
      (p : MainPy.Player) :
  (0 < MainPy.vy p)%Q ->
  (forall q, In q pre -> Rect.colliderect (MainPy.rect p) q = false) ->
  Rect.colliderect (MainPy.rect p) P = true ->
  MainPy.vertical_collisions (pre ++ P :: post) p
  = MainPy.mkPlayer (Rect.set_bottom (MainPy.rect p) (Rect.top P))
                    (MainPy.vx p) 0%Q true.
Proof.
  intros Hv Hpre HP. unfold MainPy.vertical_collisions.
  rewrite fold_left_app.
  rewrite (main_pass_no_overlap pre (MainPy.mkPlayer _ _ _ false) Hpre).
  simpl. unfold MainPy.vertical_step at 2. simpl.
  rewrite HP. apply ltb_lt in Hv. rewrite Hv.
  apply main_pass_at_rest. reflexivity.
Qed.

Lemma full_step_at_rest (p : GameFull.Player) (plat : Rect.t) :
  GameFull.vel_y p = 0%Q -> GameFull.vertical_step p plat = p.
Proof.
  intro H. unfold GameFull.vertical_step. rewrite H.
  destruct (Rect.colliderect _ _); reflexivity.
Qed.

Lemma full_pass_at_rest (l : list Rect.t) (p : GameFull.Player) :
  GameFull.vel_y p = 0%Q -> fold_left GameFull.vertical_step l p = p.
Proof.
  induction l as [| plat l IH]; intro H; simpl.
  - reflexivity.
  - rewrite (full_step_at_rest p plat H). apply IH, H.
Qed.

Lemma full_step_skips (p : GameFull.Player) (plat : Rect.t) :
  (0 < GameFull.vel_y p)%Q -> full_lands p plat = false ->
  GameFull.vertical_step p plat = p.
Proof.
  intros Hv Hl. unfold GameFull.vertical_step, full_lands in *.
  destruct (Rect.colliderect _ _); [| reflexivity].
  simpl in Hl. rewrite Hl, andb_false_r.
  assert (Hn : Float.ltb (GameFull.vel_y p) 0%Q = false)
    by (apply ltb_ge, Qlt_le_weak, Hv).
  rewrite Hn. reflexivity.
Qed.

Lemma full_pass_skips (l : list Rect.t) (p : GameFull.Player) :
  (0 < GameFull.vel_y p)%Q ->
  (forall q, In q l -> full_lands p q = false) ->
  fold_left GameFull.vertical_step l p = p.
Proof.
  induction l as [| plat l IH]; intros Hv H; simpl.
  - reflexivity.
  - rewrite (full_step_skips p plat Hv (H plat (or_introl eq_refl))).
    apply IH; [exact Hv |]. intros q Hq. apply H. right. exact Hq.
Qed.

Lemma full_lands_on_first (pre post : list Rect.t) (P : Rect.t)
      (p : GameFull.Player) :
  (0 < GameFull.vel_y p)%Q ->
  (forall q, In q pre -> full_lands p q = false) ->
  full_lands p P = true ->
  GameFull.vertical_collisions (pre ++ P :: post) p
  = GameFull.mkPlayer (Rect.set_bottom (GameFull.rect p) (Rect.top P))
                      0%Q true.
Proof.
  intros Hv Hpre HP. unfold GameFull.vertical_collisions.
  rewrite fold_left_app.
  rewrite (full_pass_skips pre (GameFull.mkPlayer _ _ false) Hv Hpre).
  simpl. unfold GameFull.vertical_step at 2. simpl.
  unfold full_lands in HP. apply andb_true_iff in HP as [Hc Hg].
  rewrite Hc, Hg. apply ltb_lt in Hv. rewrite Hv. simpl.
  apply full_pass_at_rest. reflexivity.
Qed.

(** The first element of a list that passes a test. *)
Lemma first_such {A : Type} (f : A -> bool) (l : list A) (x : A) :
  In x l -> f x = true ->
  exists pre y post,
    l = pre ++ y :: post
    /\ (forall q, In q pre -> f q = false)
    /\ f y = true.
Proof.
  induction l as [| a l IH]; intros Hin Hx; [destruct Hin |].
  destruct (f a) eqn:Ha.
  - exists [], a, l. repeat split; [intros q [] | exact Ha].
  - destruct Hin as [-> | Hin]; [congruence |].
    destruct (IH Hin Hx) as (pre & y & post & E & Hpre & Hy).
    exists (a :: pre), y, post. split; [simpl; congruence |].
    split; [| exact Hy]. intros q [<- | Hq]; [exact Ha | apply Hpre, Hq].
Qed.

Lemma bottom_set_bottom (r : Rect.t) (v : Z) :
  Rect.bottom (Rect.set_bottom r v) = v.
Proof. unfold Rect.bottom, Rect.set_bottom, Rect.set_y. simpl. lia. Qed.

End Landing.

(** C1, amended: a falling player ([vel_y > 0]) ends the vertical pass
    with its bottom on the top of the first platform, in iteration order,
    that the pass lands it on, with [vel_y = 0] and [on_ground = True].
    In main.py that is the first platform the translated rectangle
    collides with; in game_full.py the collision only counts when the
    player was above the top of the platform before the translation
    ([bottom - vel_y <= top]).  Hence whenever some platform is landed
    on, the player ends grounded and at rest on one of the platforms it
    could land on, which is that platform when there is no other before
    it. *)
Theorem C1_falling_player_lands_on_first_platform :
  (forall (pre post : list Rect.t) (P : Rect.t) (p : MainPy.Player),
      (0 < MainPy.vy p)%Q ->
      (forall q, In q pre -> Rect.colliderect (MainPy.rect p) q = false) ->
      Rect.colliderect (MainPy.rect p) P = true ->
      let p' := MainPy.vertical_collisions (pre ++ P :: post) p in
      Rect.bottom (MainPy.rect p') = Rect.top P
      /\ MainPy.vy p' = 0%Q /\ MainPy.on_ground p' = true)
  /\ (forall (pre post : list Rect.t) (P : Rect.t) (p : GameFull.Player),
         (0 < GameFull.vel_y p)%Q ->
         (forall q, In q pre -> full_lands p q = false) ->
         full_lands p P = true ->
         let p' := GameFull.vertical_collisions (pre ++ P :: post) p in
         Rect.bottom (GameFull.rect p') = Rect.top P
         /\ GameFull.vel_y p' = 0%Q /\ GameFull.on_ground p' = true)
  /\ (forall (platforms : list Rect.t) (P : Rect.t) (p : MainPy.Player),
         In P platforms -> (0 < MainPy.vy p)%Q ->
         Rect.colliderect (MainPy.rect p) P = true ->
         let p' := MainPy.vertical_collisions platforms p in
         MainPy.vy p' = 0%Q /\ MainPy.on_ground p' = true
         /\ exists Q, In Q platforms
                      /\ Rect.colliderect (MainPy.rect p) Q = true
                      /\ Rect.bottom (MainPy.rect p') = Rect.top Q)
  /\ (forall (platforms : list Rect.t) (P : Rect.t) (p : GameFull.Player),
         In P platforms -> (0 < GameFull.vel_y p)%Q ->
         full_lands p P = true ->
         let p' := GameFull.vertical_collisions platforms p in
         GameFull.vel_y p' = 0%Q /\ GameFull.on_ground p' = true
         /\ exists Q, In Q platforms /\ full_lands p Q = true
                      /\ Rect.bottom (GameFull.rect p') = Rect.top Q).
Proof.
  split; [| split; [| split]].
  - intros pre post P p Hv Hpre HP p'; subst p'.
    rewrite (main_lands_on_first pre post P p Hv Hpre HP). simpl.
    split; [apply bottom_set_bottom | split; reflexivity].
  - intros pre post P p Hv Hpre HP p'; subst p'.
    rewrite (full_lands_on_first pre post P p Hv Hpre HP). simpl.
    split; [apply bottom_set_bottom | split; reflexivity].
  - intros platforms P p Hin Hv HP p'; subst p'.
    destruct (first_such (Rect.colliderect (MainPy.rect p)) platforms P
                         Hin HP) as (pre & Q & post & -> & Hpre & HQ).
    rewrite (main_lands_on_first pre post Q p Hv Hpre HQ). simpl.
    split; [reflexivity |]. split; [reflexivity |].
    exists Q. split; [apply in_elt |]. split; [exact HQ |].
    apply bottom_set_bottom.
  - intros platforms P p Hin Hv HP p'; subst p'.
    destruct (first_such (full_lands p) platforms P Hin HP)
      as (pre & Q & post & -> & Hpre & HQ).
    rewrite (full_lands_on_first pre post Q p Hv Hpre HQ). simpl.
    split; [reflexivity |]. split; [reflexivity |].
    exists Q. split; [apply in_elt |]. split; [exact HQ |].
    apply bottom_set_bottom.
Qed.

(** A fall of one unit onto the ground of main.py, [Platform(0, 560, 800,
    40)], behind a platform the player does not touch; and the same fall in
    game_full.py. *)
Lemma C1_falling_player_lands_on_first_platform_witness :
  (let p := MainPy.mkPlayer (Rect.mk 100 501 40 60) 0 1%Q false in
   let p' := MainPy.vertical_collisions
               ([Rect.mk 200 450 120 20] ++ Rect.mk 0 560 800 40 :: []) p in
   Rect.bottom (MainPy.rect p') = 560
   /\ MainPy.vy p' = 0%Q /\ MainPy.on_ground p' = true)
  /\ (let p := GameFull.mkPlayer (Rect.mk 100 501 40 60) 1%Q false in
      let p' := GameFull.vertical_collisions
                  ([Rect.mk 200 450 120 20] ++ Rect.mk 0 560 800 40 :: []) p
      in
      Rect.bottom (GameFull.rect p') = 560
      /\ GameFull.vel_y p' = 0%Q /\ GameFull.on_ground p' = true).
Proof.
  split.
  - apply (proj1 C1_falling_player_lands_on_first_platform
                 [Rect.mk 200 450 120 20] [] (Rect.mk 0 560 800 40)
                 (MainPy.mkPlayer (Rect.mk 100 501 40 60) 0 1%Q false)).
    + reflexivity.
    + intros q [<- | []]. reflexivity.
    + reflexivity.
  - apply (proj1 (proj2 C1_falling_player_lands_on_first_platform)
                 [Rect.mk 200 450 120 20] [] (Rect.mk 0 560 800 40)
                 (GameFull.mkPlayer (Rect.mk 100 501 40 60) 1%Q false)).
    + reflexivity.
    + intros q [<- | []]. reflexivity.
    + reflexivity.
Defined.

(** Two platforms with different tops under a falling player in main.py:
    the player collides with both and ends on the first, so its bottom is
    not the top of the second. *)
Lemma C1_counterexample :
  let P1 := Rect.mk 0 100 100 20 in
  let P2 := Rect.mk 0 105 100 20 in
  let p := MainPy.mkPlayer (Rect.mk 10 50 40 60) 0 5%Q false in
  let p' := MainPy.vertical_collisions [P1; P2] p in
  In P2 [P1; P2]
  /\ (0 < MainPy.vy p)%Q
  /\ Rect.colliderect (MainPy.rect p) P2 = true
  /\ Rect.bottom (MainPy.rect p') <> Rect.top P2.
Proof.
  simpl. split; [right; left; reflexivity |].
  split; [reflexivity |]. split; [reflexivity |].
  vm_compute. discriminate.
Qed.

(** ** The second vertical pass (C2) *)

Section Sticking.

Lemma ultra_snap_first (platforms : list Rect.t) (p : GameUltra.Player) :
  (exists plat, In plat platforms
                /\ within_reach (GameUltra.rect p) plat = true) ->
  exists pre plat post,
    platforms = pre ++ plat :: post
    /\ (forall q, In q pre -> within_reach (GameUltra.rect p) q = false)
    /\ within_reach (GameUltra.rect p) plat = true
    /\ GameUltra.snap_to_platform platforms p
       = GameUltra.mkPlayer
           (Rect.set_bottom (GameUltra.rect p) (Rect.top plat))
           (GameUltra.vel_y p) true.
Proof.
  induction platforms as [| a l IH]; intros [plat [Hin Hr]].
  - destruct Hin.
  - destruct (within_reach (GameUltra.rect p) a) eqn:Ha.
    + exists [], a, l. split; [reflexivity |].
      split; [intros q [] |]. split; [exact Ha |].
      unfold within_reach in Ha. simpl.
      apply andb_true_iff in Ha as [Ha H4].
      apply andb_true_iff in Ha as [Ha H3].
      rewrite Ha, H3, H4. reflexivity.
    + destruct Hin as [-> | Hin]; [congruence |].
      destruct (IH (ex_intro _ plat (conj Hin Hr)))
        as (pre & q & post & E & Hpre & Hq & Hs).
      exists (a :: pre), q, post. split; [simpl; congruence |].
      split; [intros q' [<- | Hq']; [exact Ha | apply Hpre, Hq'] |].
      split; [exact Hq |].
      simpl. unfold within_reach in Ha. rewrite <- Hs.
      destruct ((Rect.right (GameUltra.rect p) >? Rect.left a)
                && (Rect.left (GameUltra.rect p) <? Rect.right a));
        [| reflexivity].
      simpl in Ha. rewrite Ha. reflexivity.
Qed.

(** The conditional part of the claim holds: when the first pass has not
    grounded the player and the velocity is under the threshold, the
    second pass snaps the player to the first platform within reach. *)
Lemma ultra_second_pass_snaps (platforms : list Rect.t)
      (p : GameUltra.Player) :
  GameUltra.on_ground p = false ->
  (Qabs (GameUltra.vel_y p) < GameUltra.epsilon)%Q ->
  (exists plat, In plat platforms
                /\ within_reach (GameUltra.rect p) plat = true) ->
  exists plat,
    In plat platforms
    /\ within_reach (GameUltra.rect p) plat = true
    /\ Rect.bottom (GameUltra.rect (GameUltra.second_pass platforms p))
       = Rect.top plat
    /\ GameUltra.on_ground (GameUltra.second_pass platforms p) = true.
Proof.
  intros Hg Hv Hex.
  destruct (ultra_snap_first platforms p Hex)
    as (pre & plat & post & E & _ & Hr & Hs).
  exists plat. split; [rewrite E; apply in_elt |]. split; [exact Hr |].
  unfold GameUltra.second_pass. rewrite Hg.
  apply ltb_lt in Hv. unfold Float.abs. rewrite Hv. simpl. rewrite Hs.
  simpl. split; [apply bottom_set_bottom | reflexivity].
Qed.

Lemma add_x_zero (r : Rect.t) : Rect.add_x r 0%Q = r.
Proof.
  destruct r as [x y w h]. unfold Rect.add_x, Rect.set_x. simpl.
  f_equal. unfold Float.add, Float.of_int.
  rewrite (to_int_comp _ (inject_Z x)).
  - unfold Float.to_int. simpl. apply Z.quot_1_r.
  - rewrite Qred_correct. apply Qplus_0_r.
Qed.

Lemma ultra_horizontal_no_overlap (dx : Q) (l : list Rect.t) (r : Rect.t) :
  (forall q, In q l -> Rect.colliderect r q = false) ->
  fold_left (GameUltra.horizontal_step dx) l r = r.
Proof.
  induction l as [| a l IH]; intro H; simpl; [reflexivity |].
  unfold GameUltra.horizontal_step at 2.
  rewrite (H a (or_introl eq_refl)). apply IH.
  intros q Hq. apply H. right. exact Hq.
Qed.

Lemma ultra_vertical_no_overlap (l : list Rect.t) (p : GameUltra.Player) :
  (forall q, In q l -> Rect.colliderect (GameUltra.rect p) q = false) ->
  fold_left GameUltra.vertical_step l p = p.
Proof.
  induction l as [| a l IH]; intro H; simpl; [reflexivity |].
  unfold GameUltra.vertical_step at 2.
  rewrite (H a (or_introl eq_refl)). apply IH.
  intros q Hq. apply H. right. exact Hq.
Qed.

(** A player of game_ultra.py that stands still, whatever it stands on:
    with no input and no platform inside its rectangle, one update leaves
    it where it is, falling at one half and not grounded.  The second pass
    never runs for it, since gravity is added before the test. *)
Lemma ultra_resting_player_loses_ground (platforms : list Rect.t)
      (p : GameUltra.Player) :
  GameUltra.vel_y p = 0%Q ->
  0 <= Rect.y (GameUltra.rect p) ->
  (forall q, In q platforms ->
             Rect.colliderect (GameUltra.rect p) q = false) ->
  GameUltra.update platforms 0%Q p
  = GameUltra.mkPlayer (GameUltra.rect p) (1 # 2)%Q false.
Proof.
  intros Hv Hy Hno. unfold GameUltra.update.
  rewrite add_x_zero. rewrite (ultra_horizontal_no_overlap _ _ _ Hno).
  unfold GameUltra.apply_gravity. simpl. rewrite Hv.
  change (Float.add 0 Float.half) with (1 # 2)%Q.
  change (Float.ltb 10 (1 # 2)) with false. cbv iota.
  assert (E : Rect.add_y (GameUltra.rect p) (1 # 2) = GameUltra.rect p).
  { destruct (GameUltra.rect p) as [x y w h]. unfold Rect.add_y, Rect.set_y.
    simpl in *. f_equal.
    rewrite to_int_add_nonneg; [| exact Hy | unfold Qle; simpl; lia].
    change (Qfloor (1 # 2)) with 0. lia. }
  rewrite E. unfold GameUltra.vertical_collisions. simpl.
  rewrite (ultra_vertical_no_overlap platforms
             (GameUltra.mkPlayer (GameUltra.rect p) (1 # 2) false) Hno).
  reflexivity.
Qed.

End Sticking.

(** C2, at the input where the code departs from it: in game_ultra.py a
    player stands on the platform [Rect(0, 500, 200, 20)] with
    [vel_y = 0] and [on_ground = True], and no key is pressed.  After the
    frame the player has not moved and is not grounded; the frame after, it
    sinks one unit into the platform and is put back. *)
Theorem C2_resting_player_is_not_kept_grounded :
  let platform := Rect.mk 0 500 200 20 in
  let p := GameUltra.mkPlayer (Rect.mk 10 440 40 60) 0%Q true in
  let frame := fun p =>
    let (dx, p) := GameUltra.handle_input no_keys p in
    GameUltra.update [platform] dx p in
  Rect.bottom (GameUltra.rect p) = Rect.top platform
  /\ within_reach (GameUltra.rect p) platform = true
  /\ frame p = GameUltra.mkPlayer (Rect.mk 10 440 40 60) (1 # 2)%Q false
  /\ frame (frame p) = p.
Proof.
  cbv zeta. split; [reflexivity |]. split; [reflexivity |].
  split; vm_compute; reflexivity.
Qed.

(** The same player in game_final.py, where gravity is [0.8]. *)
Lemma final_resting_player_loses_ground :
  let platform := Rect.mk 0 500 200 20 in
  let p := GameFinal.mkPlayer (Rect.mk 10 440 40 60) 1 0 0%Q true false 0 3 0
  in
  GameFinal.update [platform] [] [] (GameFinal.handle_input no_keys p)
  = ([], [],
     GameFinal.mkPlayer (Rect.mk 10 440 40 60) 1 0 (4 # 5)%Q false false 0 3
                        0).
Proof. vm_compute. reflexivity. Qed.

(** ** The camera (C3) *)

Section Camera.

Lemma clamp_bounds (lo hi v : Z) : lo <= hi -> lo <= clamp lo hi v <= hi.
Proof. unfold clamp. lia. Qed.

Lemma final_camera_clamp (r : Rect.t) (world_width : Z) :
  GameFinal.camera r world_width
  = clamp 0 (Z.max 0 (world_width - GameFinal.SCREEN_WIDTH))
          (Rect.centerx r - GameFinal.SCREEN_WIDTH / 2).
Proof. unfold GameFinal.camera, clamp. lia. Qed.

Lemma full_camera_clamp (r : Rect.t) (level_length : Z) :
  GameFull.screen_width <= level_length ->
  GameFull.camera r level_length
  = clamp 0 (Z.max 0 (level_length - GameFull.screen_width))
          (Rect.x r - GameFull.screen_width / 2).
Proof.
  unfold GameFull.camera, clamp, GameFull.screen_width. intro H.
  change (1000 / 2) with 500.
  destruct (Rect.x r - 500 <? 0) eqn:E1;
    [apply Z.ltb_lt in E1 | apply Z.ltb_ge in E1].
  - destruct (0 >? level_length - 1000) eqn:E2; [| lia].
    apply Z.gtb_lt in E2. lia.
  - destruct (Rect.x r - 500 >? level_length - 1000) eqn:E2.
    + apply Z.gtb_lt in E2. lia.
    + rewrite Z.gtb_ltb in E2. apply Z.ltb_ge in E2. lia.
Qed.

(** game_full.py computes the offset last in the frame, from the player
    as the frame leaves it. *)
Lemma full_camera_after_update (a : Assets) (keys : Keys)
      (g g' : GameFull.Game) :
  GameFull.simulate a keys g = Some g' ->
  GameFull.offset_x g'
  = GameFull.camera (GameFull.rect (GameFull.player g'))
                    (GameFull.level_length g').
Proof.
  unfold GameFull.simulate.
  destruct (GameFull.handle_input keys (GameFull.player g)) as [dx p].
  destruct (GameFull.collect_coins _ _ _) as [[coins score] |];
    [| discriminate].
  destruct (GameFull.enemy_collision _ _ _) as [lives p'].
  destruct coins as [| c coins].
  - destruct (GameFull.current_level g + 1 >=? _).
    + intro E. injection E as <-. reflexivity.
    + destruct (GameFull.load_level _ _ _) as [[[[pl co] en] len] |];
        [| discriminate].
      intro E. injection E as <-. reflexivity.
  - intro E. injection E as <-. reflexivity.
Qed.

Section FinalCamera.

Variable Rng : Type.
Variable seed : Z -> Rng.
Variable choice : nat -> Rng -> nat * Rng.

Lemma load_level_keeps_camera (a : Assets) (index : Z)
      (g g' : GameFinal.Game Rng) :
  GameFinal.load_level seed choice a index g = Some g' ->
  GameFinal.last_camera_x g' = GameFinal.last_camera_x g.
Proof.
  unfold GameFinal.load_level.
  destruct (getitem (GameFinal.levels g) index) as [lp |]; [| discriminate].
  destruct (GameFinal.list_max (map fst lp)) as [m |]; [| discriminate].
  load_level_cases;
    intro E; injection E as <-; reflexivity.
Qed.

Lemma fall_keeps_camera (g : GameFinal.Game Rng) :
  GameFinal.last_camera_x (GameFinal.fall g) = GameFinal.last_camera_x g.
Proof.
  unfold GameFinal.fall.
  destruct (Rect.top _ >? GameFinal.SCREEN_HEIGHT); reflexivity.
Qed.

(** game_final.py computes the offset first in the update block, from the
    player as the frame before left it. *)
Lemma final_camera_before_update (a : Assets) (g g' : GameFinal.Game Rng) :
  GameFinal.update_entities seed choice a g = Some g' ->
  GameFinal.last_camera_x g'
  = Some (GameFinal.camera (GameFinal.rect (GameFinal.player g))
                           (GameFinal.world_width g)).
Proof.
  unfold GameFinal.update_entities.
  destruct (GameFinal.update _ _ _ _) as [[coins enemies] p].
  cbn [GameFinal.game_over GameFinal.level_index GameFinal.levels].
  destruct (Nat.eqb _ 0 && negb (GameFinal.game_over g)).
  - destruct (GameFinal.level_index g + 1 >=? _).
    + intro E. injection E as <-. rewrite fall_keeps_camera. reflexivity.
    + intro E. apply load_level_keeps_camera in E. rewrite E. reflexivity.
  - intro E. injection E as <-. rewrite fall_keeps_camera. reflexivity.
Qed.

End FinalCamera.

End Camera.

(** ** Level generation in game_full.py (C8, and the lengths C3 needs) *)

Section Generation.

Lemma fold_left_snoc {A B : Type} (f : B -> A) (l : list B) (acc : list A) :
  fold_left (fun acc x => acc ++ [f x]) l acc = acc ++ map f l.
Proof.
  revert acc. induction l as [| x l IH]; intro acc; simpl.
  - symmetry. apply app_nil_r.
  - rewrite IH, <- app_assoc. reflexivity.
Qed.

Lemma range_length (n : Z) : List.length (range n) = Z.to_nat n.
Proof. unfold range. rewrite length_map, length_seq. reflexivity. Qed.

Lemma range_nth (n : Z) (i : nat) :
  (i < Z.to_nat n)%nat -> nth_error (range n) i = Some (Z.of_nat i).
Proof.
  intro H. unfold range. rewrite nth_error_map.
  rewrite nth_error_seq.
  apply Nat.ltb_lt in H. rewrite H. reflexivity.
Qed.

Lemma range_In (n k : Z) : In k (range n) <-> 0 <= k < n.
Proof.
  unfold range. rewrite in_map_iff. split.
  - intros [i [<- Hi]]. apply in_seq in Hi. lia.
  - intro H. exists (Z.to_nat k). split; [lia |]. apply in_seq. lia.
Qed.

Lemma full_generate_levels_map (n sh : Z) (a : Assets) :
  GameFull.generate_levels n sh a
  = map (GameFull.generate_level sh a) (range n).
Proof.
  unfold GameFull.generate_levels.
  apply (fold_left_snoc (GameFull.generate_level sh a) (range n) []).
Qed.

Lemma full_generate_levels_nth (n sh : Z) (a : Assets) (i : nat) :
  (i < Z.to_nat n)%nat ->
  nth_error (GameFull.generate_levels n sh a) i
  = Some (GameFull.generate_level sh a (Z.of_nat i)).
Proof.
  intro H. rewrite full_generate_levels_map, nth_error_map.
  rewrite (range_nth n i H). reflexivity.
Qed.

Lemma full_place_platform_length (a : Assets) (base_y step_x : Z)
      (l : list Z) (acc : GameFull.LevelData) :
  GameFull.data_length
    (fold_left (GameFull.place_platform a base_y step_x) l acc)
  = GameFull.data_length acc.
Proof.
  revert acc. induction l as [| j l IH]; intro acc; simpl.
  - reflexivity.
  - rewrite IH. reflexivity.
Qed.

Lemma full_level_length (sh : Z) (a : Assets) (i : Z) :
  GameFull.data_length (GameFull.generate_level sh a i) = 1400 + 300 * i.
Proof. unfold GameFull.generate_level. apply full_place_platform_length. Qed.

(** Every level game_full.py generates is longer than the window is
    wide. *)
Lemma full_levels_exceed_window (n sh : Z) (a : Assets)
      (d : GameFull.LevelData) :
  In d (GameFull.generate_levels n sh a) ->
  GameFull.screen_width <= GameFull.data_length d.
Proof.
  rewrite full_generate_levels_map, in_map_iff.
  intros [i [<- Hi]]. apply range_In in Hi.
  rewrite full_level_length. unfold GameFull.screen_width. lia.
Qed.

End Generation.

(** C3, amended: the offset game_final.py computes is
    [player.rect.centerx - SCREEN_WIDTH // 2] clamped into
    [[0, max(0, world_width - SCREEN_WIDTH)]].  game_full.py tracks the
    left edge of the player instead of its centre: for a level at least as
    long as the window is wide, which every generated level is, its offset
    is [player.rect.x - screen_width // 2] clamped into
    [[0, level_length - screen_width]].  In both the offset lies in the
    interval, is [0] while the tracked abscissa is at most half a window
    from the origin, and is the upper bound once it is within half a
    window of the right end.  game_full.py computes it once per frame from
    the player as the frame leaves it; game_final.py computes it once per
    frame too, but before the player is updated. *)
Theorem C3_camera_offset_is_clamped :
  (forall (r : Rect.t) (world_width : Z),
      let offset := GameFinal.camera r world_width in
      let max_offset := Z.max 0 (world_width - GameFinal.SCREEN_WIDTH) in
      offset = clamp 0 max_offset
                     (Rect.centerx r - GameFinal.SCREEN_WIDTH / 2)
      /\ 0 <= offset <= max_offset
      /\ (Rect.centerx r <= GameFinal.SCREEN_WIDTH / 2 -> offset = 0)
      /\ (world_width - GameFinal.SCREEN_WIDTH / 2 <= Rect.centerx r ->
          offset = max_offset))
  /\ (forall (r : Rect.t) (level_length : Z),
         GameFull.screen_width <= level_length ->
         let offset := GameFull.camera r level_length in
         let max_offset := level_length - GameFull.screen_width in
         offset = clamp 0 (Z.max 0 max_offset)
                        (Rect.x r - GameFull.screen_width / 2)
         /\ 0 <= offset <= max_offset
         /\ (Rect.x r <= GameFull.screen_width / 2 -> offset = 0)
         /\ (level_length - GameFull.screen_width / 2 <= Rect.x r ->
             offset = max_offset))
  /\ (forall (a : Assets) (keys : Keys) (g g' : GameFull.Game),
         GameFull.simulate a keys g = Some g' ->
         GameFull.offset_x g'
         = GameFull.camera (GameFull.rect (GameFull.player g'))
                           (GameFull.level_length g'))
  /\ (forall (Rng : Type) (seed : Z -> Rng)
             (choice : nat -> Rng -> nat * Rng) (a : Assets)
             (g g' : GameFinal.Game Rng),
         GameFinal.update_entities seed choice a g = Some g' ->
         GameFinal.last_camera_x g'
         = Some (GameFinal.camera (GameFinal.rect (GameFinal.player g))
                                  (GameFinal.world_width g))).
Proof.
  split; [| split; [| split]].
  - intros r W offset max_offset. subst offset max_offset.
    rewrite final_camera_clamp. unfold clamp, GameFinal.SCREEN_WIDTH.
    change (1000 / 2) with 500. lia.
  - intros r L H offset max_offset. subst offset max_offset.
    rewrite (full_camera_clamp r L H).
    unfold clamp, GameFull.screen_width in *.
    change (1000 / 2) with 500. lia.
  - exact full_camera_after_update.
  - exact final_camera_before_update.
Qed.

(** The first level of game_full.py is 1400 long; a player at abscissa
    [700] gives the offset [200]. *)
Lemma C3_camera_offset_is_clamped_witness :
  GameFull.screen_width <= 1400
  /\ GameFull.camera (Rect.mk 700 400 40 60) 1400 = 200.
Proof.
  split; [unfold GameFull.screen_width; lia |].
  destruct (proj1 (proj2 C3_camera_offset_is_clamped)
                  (Rect.mk 700 400 40 60) 1400) as [E _].
  - unfold GameFull.screen_width. lia.
  - rewrite E. reflexivity.
Defined.

(** In game_full.py a player [40] wide with its left edge at [600] has its
    centre at [620]; the offset is [100], not [620 - 500] clamped. *)
Lemma C3_counterexample :
  let r := Rect.mk 600 400 40 60 in
  let level_length := 1400 in
  GameFull.camera r level_length
  <> clamp 0 (Z.max 0 (level_length - GameFull.screen_width))
           (Rect.centerx r - GameFull.screen_width / 2).
Proof. vm_compute. discriminate. Qed.

(** ** Coin collection (C4) *)

Section Coins.

Import GameFull.

Lemma remove_middle (kept rest : list AnimatedCoin) (c : AnimatedCoin) :
  ~ In (coin_id c) (ids kept) ->
  remove c (kept ++ c :: rest) = Some (kept ++ rest).
Proof.
  induction kept as [| k kept IH]; intro H; simpl.
  - rewrite Nat.eqb_refl. reflexivity.
  - simpl in H. destruct (Nat.eqb (coin_id k) (coin_id c)) eqn:E.
    + apply Nat.eqb_eq in E. tauto.
    + rewrite IH by tauto. reflexivity.
Qed.

Lemma collect_loop (r : Rect.t) (rest kept : list AnimatedCoin) (score : Z) :
  NoDup (ids (kept ++ rest)) ->
  fold_left (collect_step r) rest (Some (kept ++ rest, score))
  = Some (kept ++ filter (fun c => negb (touches r c)) rest,
          score + Z.of_nat (List.length (filter (touches r) rest))).
Proof.
  revert kept score.
  induction rest as [| c rest IH]; intros kept score Hnd; simpl.
  - rewrite Z.add_0_r. reflexivity.
  - change (Rect.colliderect r (coin_rect c)) with (touches r c).
    destruct (touches r c) eqn:E; simpl.
    + rewrite remove_middle.
      * simpl. rewrite IH.
        -- f_equal. f_equal. lia.
        -- unfold ids in *. rewrite map_app in *. simpl in Hnd.
           apply NoDup_remove_1 in Hnd. exact Hnd.
      * unfold ids in *. rewrite map_app in Hnd. simpl in Hnd.
        apply NoDup_remove_2 in Hnd. intro Hin. apply Hnd.
        apply in_or_app. left. exact Hin.
    + change (kept ++ c :: rest) with (kept ++ [c] ++ rest).
      rewrite app_assoc. rewrite IH.
      * rewrite <- app_assoc. reflexivity.
      * rewrite <- app_assoc. exact Hnd.
Qed.

Lemma full_collect_coins_filter (r : Rect.t) (coins : list AnimatedCoin)
      (score : Z) :
  NoDup (ids coins) ->
  collect_coins r coins score
  = Some (filter (fun c => negb (touches r c)) coins,
          score + Z.of_nat (List.length (filter (touches r) coins))).
Proof. intro H. apply (collect_loop r coins [] score H). Qed.

Lemma filter_ids_NoDup (f : AnimatedCoin -> bool) (l : list AnimatedCoin) :
  NoDup (ids l) -> NoDup (ids (filter f l)).
Proof.
  induction l as [| c l IH]; simpl; intro H; [constructor |].
  inversion H as [| ? ? Hn Hl]; subst.
  destruct (f c); simpl; [constructor |]; auto.
  intro Hin. apply Hn. unfold ids in *. apply in_map_iff in Hin.
  destruct Hin as [c' [E Hc']]. apply filter_In in Hc'.
  apply in_map_iff. exists c'. tauto.
Qed.

Lemma filter_split_length {A : Type} (f : A -> bool) (l : list A) :
  (List.length (filter f l)
   + List.length (filter (fun x => negb (f x)) l))%nat
  = List.length l.
Proof.
  induction l as [| x l IH]; simpl; [reflexivity |].
  destruct (f x); simpl; lia.
Qed.

Lemma collect_over_frames_filter (rects : list Rect.t)
      (coins : list AnimatedCoin) (score : Z) :
  NoDup (ids coins) ->
  collect_over_frames rects coins score
  = Some (filter (fun c => negb (existsb (fun r => touches r c) rects)) coins,
          score
          + Z.of_nat (List.length
                        (filter (fun c => existsb (fun r => touches r c) rects)
                                coins))).
Proof.
  revert coins score.
  induction rects as [| r rects IH]; intros coins score Hnd; simpl.
  - f_equal. f_equal.
    + induction coins as [| c l IHl]; simpl; [reflexivity |].
      inversion Hnd; subst. f_equal. auto.
    + replace (filter (fun _ => false) coins) with (@nil AnimatedCoin).
      * simpl. lia.
      * clear. induction coins; simpl; auto.
  - rewrite (full_collect_coins_filter r coins score Hnd).
    rewrite IH by (apply filter_ids_NoDup, Hnd).
    f_equal. f_equal.
    + clear. induction coins as [| c l IHl]; simpl; [reflexivity |].
      destruct (touches r c); simpl; [exact IHl |].
      destruct (existsb _ rects); simpl; [exact IHl | f_equal; exact IHl].
    + rewrite <- Z.add_assoc. f_equal. rewrite <- Nat2Z.inj_add. f_equal.
      clear. induction coins as [| c l IHl]; simpl; [reflexivity |].
      destruct (touches r c); simpl; [lia |].
      destruct (existsb _ rects); simpl; lia.
Qed.

Lemma final_collect_coins_filter (coins : list GameFinal.Coin)
      (p : GameFinal.Player) :
  let hit := Rect.colliderect (GameFinal.rect p) in
  GameFinal.collect_coins coins p
  = (filter (fun c => negb (hit c)) coins,
     GameFinal.mkPlayer
       (GameFinal.rect p) (GameFinal.direction p) (GameFinal.vel_x p)
       (GameFinal.vel_y p) (GameFinal.on_ground p) (GameFinal.attacking p)
       (GameFinal.attack_timer p) (GameFinal.lives p)
       (GameFinal.score p + Z.of_nat (List.length (filter hit coins)))).
Proof.
  intro hit. unfold GameFinal.collect_coins, GameFinal.spritecollide.
  fold hit. f_equal.
  destruct (filter hit coins); simpl.
  - rewrite Z.add_0_r. destruct p; reflexivity.
  - reflexivity.
Qed.

(** A whole frame of game_full.py changes the score by the number of
    coins that left the live list, and by nothing else; when the last coin
    goes, the level changes and the list is the one of the next level. *)
Lemma full_frame_score (a : Assets) (keys : Keys) (g g' : Game) :
  NoDup (ids (coins g)) ->
  frame a keys g = Some g' ->
  score g'
  = score g
    + Z.of_nat (List.length (coins g)
                - (if current_level g' =? current_level g
                   then List.length (coins g') else 0%nat)).
Proof.
  intros Hnd. unfold frame.
  destruct (negb (game_over g) && negb (game_completed g)).
  - unfold simulate.
    destruct (handle_input keys (player g)) as [dx p].
    match goal with
    | |- context [collect_coins ?r (coins g) (score g)] =>
        rewrite (full_collect_coins_filter r (coins g) (score g) Hnd);
        pose proof (filter_split_length (touches r) (coins g)) as Hlen;
        set (left := filter (fun c => negb (touches r c)) (coins g)) in *;
        set (gone := filter (touches r) (coins g)) in *
    end.
    destruct (enemy_collision _ _ _) as [lives' p'].
    destruct left as [| c left].
    + destruct (current_level g + 1 >=? _).
      * intro E. injection E as <-. simpl in *.
        destruct (Z.eqb_spec (current_level g + 1) (current_level g)); lia.
      * destruct (load_level _ _ _) as [[[[pl co] en] len] |];
          [| discriminate].
        intro E. injection E as <-. simpl in *.
        destruct (Z.eqb_spec (current_level g + 1) (current_level g)); lia.
    + intro E. injection E as <-. simpl in *.
      rewrite Z.eqb_refl. lia.
  - intro E. injection E as <-. rewrite Z.eqb_refl. lia.
Qed.

End Coins.

(** C4: in a frame of game_full.py every live coin the player's rectangle
    overlaps leaves the live list, the others stay, and the score grows by
    one for each coin that left; so does it in game_final.py.  Over any
    sequence of frames within a level no coin comes back, a coin is gone
    exactly when some frame's rectangle overlapped it, and the score has
    grown by the number of coins gone.  A whole frame of game_full.py
    changes the score by the number of coins it removed and in no other
    way. *)
Theorem C4_each_coin_scores_once :
  forall (coins : list GameFull.AnimatedCoin) (score : Z),
    NoDup (map GameFull.coin_id coins) ->
    (forall r : Rect.t,
        exists coins',
          GameFull.collect_coins r coins score
          = Some (coins',
                  score + Z.of_nat (List.length coins - List.length coins'))
          /\ (forall c, In c coins' <->
                        In c coins /\ touches r c = false))
    /\ (forall rects : list Rect.t,
           exists coins',
             collect_over_frames rects coins score
             = Some (coins',
                     score
                     + Z.of_nat (List.length coins - List.length coins'))
             /\ (forall c, In c coins' <->
                           In c coins
                           /\ forall r, In r rects -> touches r c = false))
    /\ (forall (group : list GameFinal.Coin) (p : GameFinal.Player),
           let (group', p') := GameFinal.collect_coins group p in
           GameFinal.score p'
           = GameFinal.score p
             + Z.of_nat (List.length group - List.length group')
           /\ (forall c, In c group' <->
                         In c group
                         /\ Rect.colliderect (GameFinal.rect p) c = false))
    /\ (forall (a : Assets) (keys : Keys) (g g' : GameFull.Game),
           GameFull.coins g = coins -> GameFull.score g = score ->
           GameFull.frame a keys g = Some g' ->
           GameFull.score g'
           = score
             + Z.of_nat
                 (List.length coins
                  - (if GameFull.current_level g'
                        =? GameFull.current_level g
                     then List.length (GameFull.coins g') else 0%nat))).
Proof.
  intros coins score Hnd. split; [| split; [| split]];
    [| | | intros a keys g g' <- <- E;
           apply (full_frame_score a keys g g' Hnd E)].
  - intro r. exists (filter (fun c => negb (touches r c)) coins). split.
    + rewrite (full_collect_coins_filter r coins score Hnd).
      pose proof (filter_split_length (touches r) coins) as E.
      replace (List.length coins
               - List.length (filter (fun c => negb (touches r c)) coins))%nat
        with (List.length (filter (touches r) coins)) by lia.
      reflexivity.
    + intro c. rewrite filter_In, negb_true_iff. reflexivity.
  - intro rects.
    set (hit := fun c => existsb (fun r => touches r c) rects).
    exists (filter (fun c => negb (hit c)) coins). split.
    + rewrite (collect_over_frames_filter rects coins score Hnd).
      fold hit. pose proof (filter_split_length hit coins) as E.
      replace (List.length coins
               - List.length (filter (fun c => negb (hit c)) coins))%nat
        with (List.length (filter hit coins)) by lia.
      reflexivity.
    + intro c. rewrite filter_In, negb_true_iff. unfold hit.
      split; intros [Hin H]; (split; [exact Hin |]).
      * intros r Hr. destruct (touches r c) eqn:E; [| reflexivity].
        assert (existsb (fun r => touches r c) rects = true)
          by (apply existsb_exists; exists r; auto).
        congruence.
      * apply not_true_is_false. intro Hex.
        apply existsb_exists in Hex as [r [Hr Ht]].
        rewrite (H r Hr) in Ht. discriminate.
  - intros group p. rewrite final_collect_coins_filter. simpl. split.
    + pose proof (filter_split_length
                    (Rect.colliderect (GameFinal.rect p)) group) as E.
      unfold GameFinal.Coin in *. lia.
    + intro c. rewrite filter_In, negb_true_iff. reflexivity.
Qed.

(** Two coins of the first level of game_full.py and a player that walks
    into the first one. *)
Lemma C4_each_coin_scores_once_witness :
  let c0 := GameFull.mkCoin 0 (Rect.mk 130 470 20 20) in
  let c1 := GameFull.mkCoin 1 (Rect.mk 570 390 20 20) in
  NoDup (map GameFull.coin_id [c0; c1])
  /\ exists coins',
      collect_over_frames
        [Rect.mk 95 440 40 60; Rect.mk 100 440 40 60] [c0; c1] 0
      = Some (coins', 0 + Z.of_nat (2 - List.length coins'))
      /\ (forall c, In c coins' <->
                    In c [c0; c1]
                    /\ forall r,
                        In r [Rect.mk 95 440 40 60; Rect.mk 100 440 40 60] ->
                        touches r c = false).
Proof.
  intros c0 c1.
  assert (H : NoDup (map GameFull.coin_id [c0; c1])).
  { simpl. constructor; [simpl; intros [E | []]; discriminate |].
    constructor; [intros [] | constructor]. }
  split; [exact H |].
  exact (proj1 (proj2 (C4_each_coin_scores_once [c0; c1] 0 H))
               [Rect.mk 95 440 40 60; Rect.mk 100 440 40 60]).
Defined.

(** ** Contact with an enemy (C5) *)

Section EnemyContact.

Import GameFinal.

Lemma kill_all (l enemies : list Enemy) (p : Player) :
  attacking p = true ->
  enemy_loop l enemies p
  = (filter (fun e => negb (existsb (fun k => Nat.eqb (enemy_id e)
                                                      (enemy_id k)) l))
            enemies, p).
Proof.
  intro Ha. revert enemies.
  induction l as [| k l IH]; intro enemies; simpl.
  - f_equal. induction enemies as [| e es IHe]; simpl; congruence.
  - rewrite Ha, IH. f_equal. unfold kill.
    induction enemies as [| e es IHe]; simpl; [reflexivity |].
    destruct (Nat.eqb (enemy_id e) (enemy_id k)); simpl.
    + exact IHe.
    + destruct (existsb _ l); simpl; [exact IHe | f_equal; exact IHe].
Qed.

Lemma same_id_same_enemy (enemies : list Enemy) (a b : Enemy) :
  NoDup (map enemy_id enemies) -> In a enemies -> In b enemies ->
  enemy_id a = enemy_id b -> a = b.
Proof.
  induction enemies as [| e es IH]; simpl; intros Hnd Ha Hb E; [tauto |].
  inversion Hnd as [| ? ? Hn Hes]; subst.
  destruct Ha as [-> | Ha], Hb as [-> | Hb]; auto.
  - exfalso. apply Hn. rewrite E. apply in_map. exact Hb.
  - exfalso. apply Hn. rewrite <- E. apply in_map. exact Ha.
Qed.

Lemma attack_removes_touched (enemies : list Enemy) (p : Player) :
  NoDup (map enemy_id enemies) -> attacking p = true ->
  collide_enemies enemies p
  = (filter (fun e => negb (hits (rect p) e)) enemies, p).
Proof.
  intros Hnd Ha. unfold collide_enemies, spritecollide. simpl.
  rewrite (kill_all _ _ _ Ha). f_equal.
  apply filter_ext_in. intros e He. f_equal.
  fold (hits (rect p)).
  destruct (hits (rect p) e) eqn:E.
  - apply existsb_exists. exists e. split.
    + apply filter_In. split; assumption.
    + apply Nat.eqb_refl.
  - apply not_true_is_false. intro Hex.
    apply existsb_exists in Hex as [k [Hk Hid]].
    apply filter_In in Hk as [Hk Hhit]. apply Nat.eqb_eq in Hid.
    rewrite (same_id_same_enemy enemies e k Hnd He Hk Hid) in E.
    congruence.
Qed.

Lemma contact_hurts_once (enemies : list Enemy) (p : Player) :
  attacking p = false ->
  (exists e, In e enemies /\ hits (rect p) e = true) ->
  collide_enemies enemies p = (enemies, hurt p).
Proof.
  intros Ha [e [He Hh]]. unfold collide_enemies, spritecollide. simpl.
  fold (hits (rect p)).
  destruct (filter (hits (rect p)) enemies) as [| k l] eqn:E.
  - assert (Hin : In e (filter (hits (rect p)) enemies))
      by (apply filter_In; split; assumption).
    rewrite E in Hin. destruct Hin.
  - simpl. rewrite Ha. reflexivity.
Qed.

Lemma no_contact_no_effect (enemies : list Enemy) (p : Player) :
  (forall e, In e enemies -> hits (rect p) e = false) ->
  collide_enemies enemies p = (enemies, p).
Proof.
  intro H. unfold collide_enemies, spritecollide. simpl.
  fold (hits (rect p)).
  destruct (filter (hits (rect p)) enemies) as [| k l] eqn:E;
    [reflexivity |].
  assert (Hin : In k (filter (hits (rect p)) enemies))
    by (rewrite E; left; reflexivity).
  apply filter_In in Hin as [Hin Hk]. rewrite (H k Hin) in Hk. discriminate.
Qed.

(** game_full.py: the first enemy touched costs one life and sends the
    player back to the start of the level. *)
Lemma full_contact_resets (enemies : list GameFull.Enemy) (lives : Z)
      (p : GameFull.Player) :
  (exists e, In e enemies
             /\ Rect.colliderect (GameFull.rect p) (GameFull.enemy_rect e)
                = true) ->
  GameFull.enemy_collision enemies lives p
  = (lives - 1,
     GameFull.reset_position 100 (GameFull.screen_height - 200) p).
Proof.
  induction enemies as [| a l IH]; intros [e [He Hh]]; simpl.
  - destruct He.
  - destruct (Rect.colliderect (GameFull.rect p) (GameFull.enemy_rect a))
             eqn:E; [reflexivity |].
    apply IH. destruct He as [-> | He]; [congruence |].
    exists e. split; assumption.
Qed.

End EnemyContact.

(** What a contact does: when the player's rectangle overlaps a live
    enemy in game_final.py and the player is attacking, the overlapped
    enemies leave the live set and the player is unchanged; when it is not
    attacking, the live set is unchanged, [lives] decreases by exactly 1,
    the player is moved 20 units against its own facing direction,
    [vel_y] is set to 0 and [on_ground] to [False].  In game_full.py,
    which has no attack, [lives] decreases by exactly 1 and the player is
    put back at the start of the level, [(100, screen_height - 200)],
    with [vel_y = 0] and [on_ground = False]. *)
Lemma enemy_contact_effects :
  (forall (enemies : list GameFinal.Enemy) (p : GameFinal.Player),
      NoDup (map GameFinal.enemy_id enemies) ->
      (exists e, In e enemies /\ hits (GameFinal.rect p) e = true) ->
      let (enemies', p') := GameFinal.collide_enemies enemies p in
      (GameFinal.attacking p = true ->
       (forall e, In e enemies' <->
                  In e enemies /\ hits (GameFinal.rect p) e = false)
       /\ p' = p)
      /\ (GameFinal.attacking p = false ->
          enemies' = enemies
          /\ GameFinal.lives p' = GameFinal.lives p - 1
          /\ Rect.x (GameFinal.rect p')
             = Rect.x (GameFinal.rect p) - GameFinal.direction p * 20
          /\ Rect.y (GameFinal.rect p') = Rect.y (GameFinal.rect p)
          /\ GameFinal.vel_y p' = 0%Q
          /\ GameFinal.on_ground p' = false))
  /\ (forall (enemies : list GameFull.Enemy) (lives : Z)
             (p : GameFull.Player),
         (exists e, In e enemies
                    /\ Rect.colliderect (GameFull.rect p)
                                        (GameFull.enemy_rect e) = true) ->
         let (lives', p') := GameFull.enemy_collision enemies lives p in
         lives' = lives - 1
         /\ Rect.x (GameFull.rect p') = 100
         /\ Rect.y (GameFull.rect p') = GameFull.screen_height - 200
         /\ GameFull.vel_y p' = 0%Q
         /\ GameFull.on_ground p' = false).
Proof.
  split.
  - intros enemies p Hnd Hex.
    destruct (GameFinal.attacking p) eqn:Ha.
    + rewrite (attack_removes_touched enemies p Hnd Ha).
      split; [| discriminate]. intros _. split; [| reflexivity].
      intro e. rewrite filter_In, negb_true_iff. reflexivity.
    + rewrite (contact_hurts_once enemies p Ha Hex).
      split; [discriminate |]. intros _. simpl. repeat split; reflexivity.
  - intros enemies lives p Hex.
    rewrite (full_contact_resets enemies lives p Hex). simpl.
    repeat split; reflexivity.
Qed.

(** An attacking player of game_final.py that stands in an enemy. *)
Lemma enemy_contact_effects_example :
  let e := GameFinal.mkEnemy 0 (Rect.mk 120 120 40 40) 1 2 in
  let p := GameFinal.mkPlayer (Rect.mk 100 100 40 60) 1 0 0%Q true true 7 3 0
  in
  NoDup (map GameFinal.enemy_id [e])
  /\ (exists e', In e' [e] /\ hits (GameFinal.rect p) e' = true)
  /\ GameFinal.collide_enemies [e] p = ([], p).
Proof.
  intros e p.
  assert (Hnd : NoDup (map GameFinal.enemy_id [e]))
    by (simpl; constructor; [intros [] | constructor]).
  assert (Hex : exists e', In e' [e] /\ hits (GameFinal.rect p) e' = true)
    by (exists e; split; [left; reflexivity | reflexivity]).
  split; [exact Hnd |]. split; [exact Hex |].
  pose proof (proj1 enemy_contact_effects [e] p Hnd Hex) as H.
  destruct (GameFinal.collide_enemies [e] p) as [enemies' p'].
  destruct H as [H _]. destruct (H eq_refl) as [Hin ->]. f_equal.
  destruct enemies' as [| k l]; [reflexivity |].
  destruct (proj1 (Hin k) (or_introl eq_refl)) as [[<- | []] Hk].
  discriminate Hk.
Defined.

(** C5, where the code departs from it: a player of game_final.py that
    faces right and does not attack is touched by an enemy that stands
    behind it.  The enemy loop of [Player.update] takes exactly one life,
    leaves the enemy alive, sets [vel_y] to 0 and [on_ground] to [False],
    and moves the player 20 units against its own facing direction, here
    to the left: nearer to the enemy and still inside it, so that the next
    update takes a second life and moves it further across the enemy.  The
    player is neither displaced away from the enemy nor put back at a
    spawn point or on a platform, although the comments of the loop
    announce a knockback and a repositioning, and game_full.py puts the
    player back at the start of the level. *)
Theorem C5_enemy_contact_pushes_player_into_enemy :
  let e := GameFinal.mkEnemy 0 (Rect.mk 70 120 40 40) 1 2 in
  let p := GameFinal.mkPlayer (Rect.mk 100 100 40 60) 1 0 0%Q true false 0 3 0
  in
  let p' := snd (GameFinal.collide_enemies [e] p) in
  let p'' := snd (GameFinal.update [] [] [e] p') in
  hits (GameFinal.rect p) e = true
  /\ GameFinal.attacking p = false
  /\ fst (GameFinal.collide_enemies [e] p) = [e]
  /\ GameFinal.lives p' = GameFinal.lives p - 1
  /\ GameFinal.vel_y p' = 0%Q
  /\ GameFinal.on_ground p' = false
  /\ GameFinal.rect p' = Rect.mk 80 100 40 60
  /\ Z.abs (Rect.centerx (GameFinal.rect p')
            - Rect.centerx (GameFinal.enemy_rect e))
     < Z.abs (Rect.centerx (GameFinal.rect p)
              - Rect.centerx (GameFinal.enemy_rect e))
  /\ hits (GameFinal.rect p') e = true
  /\ GameFinal.lives p'' = GameFinal.lives p - 2
  /\ GameFinal.rect p'' = Rect.mk 60 100 40 60.
Proof. vm_compute. repeat split; reflexivity. Qed.

(** ** The attack window (C6) *)

Section Attack.

Import GameFinal.

Lemma vertical_step_attack (p : Player) (plat : Platform) :
  attack_state (vertical_step p plat) = attack_state p.
Proof.
  unfold vertical_step.
  destruct (Float.ltb 0 (vel_y p)); [reflexivity |].
  destruct (Float.ltb (vel_y p) 0); reflexivity.
Qed.

Lemma vertical_pass_attack (l : list Platform) (p : Player) :
  attack_state (fold_left vertical_step l p) = attack_state p.
Proof.
  revert p. induction l as [| a l IH]; intro p; simpl; [reflexivity |].
  rewrite IH. apply vertical_step_attack.
Qed.

Lemma snap_attack (l : list Platform) (p : Player) :
  attack_state (snap_to_platform l p) = attack_state p.
Proof.
  induction l as [| a l IH]; simpl; [reflexivity |].
  destruct ((Rect.right (rect p) >? Rect.left a)
            && (Rect.left (rect p) <? Rect.right a)); [| exact IH].
  destruct ((0 <=? Rect.top a - Rect.bottom (rect p))
            && (Rect.top a - Rect.bottom (rect p) <=? 3));
    [reflexivity | exact IH].
Qed.

Lemma vertical_collisions_attack (l : list Platform) (p : Player) :
  attack_state (handle_vertical_collisions l p) = attack_state p.
Proof.
  unfold handle_vertical_collisions.
  match goal with
  | |- attack_state (if ?c then _ else _) = _ => destruct c
  end.
  - rewrite snap_attack, vertical_pass_attack. reflexivity.
  - rewrite vertical_pass_attack. reflexivity.
Qed.

Lemma collect_coins_attack (coins : list Coin) (p : Player) :
  attack_state (snd (collect_coins coins p)) = attack_state p.
Proof.
  unfold collect_coins, spritecollide.
  destruct (filter (fun s => Rect.colliderect (rect p) s) coins);
    reflexivity.
Qed.

Lemma enemy_loop_attack (l enemies : list Enemy) (p : Player) :
  attack_state (snd (enemy_loop l enemies p)) = attack_state p.
Proof.
  revert enemies. induction l as [| e l IH]; intro enemies; simpl.
  - reflexivity.
  - destruct (attacking p) eqn:E; [apply IH | reflexivity].
Qed.

(** [Player.update] touches the attack only through its timer block. *)
Lemma update_attack (platforms : list Platform) (coins : list Coin)
      (enemies : list Enemy) (p : Player) :
  let p' := snd (update platforms coins enemies p) in
  attacking p'
  = (if attacking p then negb (attack_timer p - 1 <=? 0) else false)
  /\ attack_timer p'
     = (if attacking p then attack_timer p - 1 else attack_timer p)
  /\ vel_x p' = vel_x p.
Proof.
  unfold update.
  set (p1 := mkPlayer _ _ _ (Float.add (vel_y p) GRAVITY) _ _ _ _ _).
  set (p2 := set_rect p1 _).
  set (p3 := handle_horizontal_collisions platforms p2).
  set (p4 := set_rect p3 _).
  set (p5 := handle_vertical_collisions platforms p4).
  assert (E5 : attack_state p5 = attack_state p).
  { unfold p5. rewrite vertical_collisions_attack. reflexivity. }
  pose proof (collect_coins_attack coins p5) as E6.
  destruct (collect_coins coins p5) as [coins' p6]. simpl in E6.
  unfold collide_enemies.
  pose proof (enemy_loop_attack
                (fst (spritecollide enemy_rect (rect p6) enemies false))
                enemies p6) as E7.
  destruct (enemy_loop _ enemies p6) as [enemies' p7]. simpl in E7.
  rewrite E6, E5 in E7. unfold attack_state in E7.
  injection E7 as Ea Et Ex. simpl. unfold update_attack_timer.
  rewrite Ea, Et, Ex. destruct (attacking p); simpl.
  - destruct (attack_timer p - 1 <=? 0); simpl; auto.
  - rewrite Ea, Et, Ex. auto.
Qed.

Lemma handle_input_blocked (keys : Keys) (p : Player) :
  attacking p = true -> handle_input keys p = p.
Proof. intro H. unfold handle_input. rewrite H. reflexivity. Qed.

Lemma handle_input_trigger (keys : Keys) (p : Player) :
  attacking p = false -> K_f keys = true ->
  attacking (handle_input keys p) = true
  /\ attack_timer (handle_input keys p) = ATTACK_DURATION.
Proof.
  intros H Hf. unfold handle_input. rewrite H, Hf. simpl.
  destruct (K_LEFT keys || K_a keys), (K_RIGHT keys || K_d keys),
    ((K_SPACE keys || K_w keys || K_UP keys) && on_ground p);
    split; reflexivity.
Qed.

Lemma player_frames_cons
      (i : Keys * list Platform * list Coin * list Enemy)
      (inputs : list (Keys * list Platform * list Coin * list Enemy))
      (p : Player) :
  player_frames (i :: inputs) p = player_frames inputs (player_frame i p).
Proof. reflexivity. Qed.

Lemma attack_countdown
      (inputs : list (Keys * list Platform * list Coin * list Enemy))
      (p : Player) :
  attacking p = true -> 1 <= attack_timer p ->
  Z.of_nat (List.length inputs) <= attack_timer p ->
  let p' := player_frames inputs p in
  attack_timer p' = attack_timer p - Z.of_nat (List.length inputs)
  /\ attacking p' = (Z.of_nat (List.length inputs) <? attack_timer p)
  /\ vel_x p' = vel_x p.
Proof.
  revert p. induction inputs as [| i inputs IH]; intros p Ha Ht Hn.
  - simpl. rewrite Z.sub_0_r, Ha.
    repeat split. symmetry. apply Z.ltb_lt. lia.
  - rewrite player_frames_cons.
    destruct i as [[[keys platforms] coins] enemies].
    unfold player_frame. rewrite (handle_input_blocked keys p Ha).
    destruct (update_attack platforms coins enemies p) as (Ea & Et & Ex).
    set (q := snd (update platforms coins enemies p)) in *.
    rewrite Ha in Ea, Et. simpl List.length in *.
    destruct (Z.eq_dec (attack_timer p) 1) as [E1 | E1].
    + destruct inputs as [| j inputs]; [| simpl in Hn; lia].
      simpl. rewrite Et, Ea, E1, Ex. repeat split.
    + assert (Hq : attacking q = true).
      { rewrite Ea. apply negb_true_iff, Z.leb_gt. lia. }
      destruct (IH q Hq) as (It & Ia & Ix); [lia | lia |].
      rewrite It, Ia, Ix, Et, Ex. repeat split.
      * lia.
      * destruct (Z.ltb_spec (Z.of_nat (List.length inputs))
                             (attack_timer p - 1));
          symmetry; [apply Z.ltb_lt | apply Z.ltb_ge]; lia.
Qed.

End Attack.

(** The attack window of game_final.py: pressing the attack key while
    not attacking sets [attacking] and loads the timer with
    [ATTACK_DURATION]; while
    [attacking] holds, [handle_input] ignores the keys altogether, so that
    the frame does not depend on the keys held and the attack is not
    started anew; every update of an attacking player takes 1 off the
    timer and clears [attacking] exactly when the timer reaches 0.  Hence
    an attack lasts [ATTACK_DURATION] updates, the one of the triggering
    frame included, during which [vel_x] stays what the triggering frame
    made it. *)
Lemma attack_window :
  (forall (keys : Keys) (p : GameFinal.Player),
      GameFinal.attacking p = false -> K_f keys = true ->
      GameFinal.attacking (GameFinal.handle_input keys p) = true
      /\ GameFinal.attack_timer (GameFinal.handle_input keys p)
         = GameFinal.ATTACK_DURATION)
  /\ (forall (keys keys' : Keys) (platforms : list GameFinal.Platform)
             (coins : list GameFinal.Coin) (enemies : list GameFinal.Enemy)
             (p : GameFinal.Player),
         GameFinal.attacking p = true ->
         GameFinal.handle_input keys p = p
         /\ player_frame (keys, platforms, coins, enemies) p
            = player_frame (keys', platforms, coins, enemies) p)
  /\ (forall (platforms : list GameFinal.Platform)
             (coins : list GameFinal.Coin) (enemies : list GameFinal.Enemy)
             (p : GameFinal.Player),
         GameFinal.attacking p = true -> 1 <= GameFinal.attack_timer p ->
         let p' := snd (GameFinal.update platforms coins enemies p) in
         GameFinal.attack_timer p' = GameFinal.attack_timer p - 1
         /\ (GameFinal.attacking p' = false <->
             GameFinal.attack_timer p' = 0))
  /\ (forall (keys : Keys) (platforms : list GameFinal.Platform)
             (coins : list GameFinal.Coin) (enemies : list GameFinal.Enemy)
             (later : list (Keys * list GameFinal.Platform
                            * list GameFinal.Coin * list GameFinal.Enemy))
             (p : GameFinal.Player),
         GameFinal.attacking p = false -> K_f keys = true ->
         let n := Z.of_nat (S (List.length later)) in
         n <= GameFinal.ATTACK_DURATION ->
         let p' := player_frames ((keys, platforms, coins, enemies) :: later)
                                 p in
         GameFinal.attack_timer p' = GameFinal.ATTACK_DURATION - n
         /\ GameFinal.attacking p' = (n <? GameFinal.ATTACK_DURATION)
         /\ GameFinal.vel_x p'
            = GameFinal.vel_x (GameFinal.handle_input keys p)).
Proof.
  split; [exact handle_input_trigger |]. split; [| split].
  - intros keys keys' platforms coins enemies p Ha.
    split; [apply handle_input_blocked, Ha |].
    unfold player_frame. rewrite !handle_input_blocked by exact Ha.
    reflexivity.
  - intros platforms coins enemies p Ha Ht p'.
    destruct (update_attack platforms coins enemies p) as (Ea & Et & _).
    fold p' in Ea, Et. rewrite Ha in Ea, Et. split; [exact Et |].
    rewrite Ea, Et, negb_false_iff, Z.leb_le. lia.
  - intros keys platforms coins enemies later p Ha Hf n Hn p'.
    destruct (handle_input_trigger keys p Ha Hf) as [Ha1 Ht1].
    set (p1 := GameFinal.handle_input keys p) in *.
    assert (E : p' = player_frames ((keys, platforms, coins, enemies)
                                      :: later) p1).
    { unfold p'. rewrite !player_frames_cons. f_equal.
      unfold player_frame. fold p1.
      rewrite (handle_input_blocked keys p1 Ha1). reflexivity. }
    destruct (attack_countdown ((keys, platforms, coins, enemies) :: later)
                               p1 Ha1) as (It & Ia & Ix).
    + rewrite Ht1. unfold GameFinal.ATTACK_DURATION. lia.
    + rewrite Ht1. exact Hn.
    + rewrite E, It, Ia, Ix, Ht1. repeat split.
Qed.

(** A player that runs to the right and strikes: two frames later the
    timer is at 13, the attack is on and the velocity is still 5. *)
Lemma attack_window_example :
  let keys := mkKeys false true false false false false false true in
  let p := GameFinal.mkPlayer (Rect.mk 100 440 40 60) 1 0 0%Q true false 0 3 0
  in
  let p' := player_frames [(keys, [Rect.mk 0 500 200 20], [], []);
                           (keys, [Rect.mk 0 500 200 20], [], [])] p in
  GameFinal.attacking p = false /\ K_f keys = true
  /\ GameFinal.attack_timer p' = 13
  /\ GameFinal.attacking p' = true
  /\ GameFinal.vel_x p' = 5.
Proof.
  intros keys p p'.
  split; [reflexivity |]. split; [reflexivity |].
  destruct (proj2 (proj2 (proj2 attack_window)) keys
                  [Rect.mk 0 500 200 20] [] []
                  [(keys, [Rect.mk 0 500 200 20], [], [])] p
                  eq_refl eq_refl) as (Et & Ea & Ex).
  - unfold GameFinal.ATTACK_DURATION. simpl. lia.
  - split; [exact Et |]. split; [exact Ea | exact Ex].
Defined.

(** C6, where the code departs from it: a player of game_final.py stands
    on a platform, holds RIGHT and presses F in one frame.  The attack
    starts with [vel_x = 5]; [handle_input] then ignores the keys for the
    next 14 frames, so nothing sets [vel_x] back to 0, while
    [Player.update] goes on adding [vel_x] to [rect.x].  Whatever keys
    are held during the attack, none or LEFT included, the player moves 5
    units to the right in every one of the 15 frames of the attack, from
    [x = 100] to [x = 175]; the timer counts down by 1 per frame and
    [attacking] is cleared exactly when it reaches 0.  The attack blocks
    the keys, not the movement, against the docstring of the module
    (while attacking the player cannot move). *)
Theorem C6_attacking_player_keeps_moving (later : list Keys) :
  (List.length later <= 14)%nat ->
  let strike := mkKeys false true false false false false false true in
  let platform := Rect.mk 0 500 2000 20 in
  let p := GameFinal.mkPlayer (Rect.mk 100 440 40 60) 1 0 0%Q true false 0 3 0
  in
  let n := Z.of_nat (List.length later) in
  let p' := player_frames
              ((strike, [platform], [], [])
                 :: map (fun keys => (keys, [platform], [], [])) later) p in
  GameFinal.attacking p = false
  /\ K_RIGHT strike = true /\ K_f strike = true
  /\ Rect.x (GameFinal.rect p') = 105 + 5 * n
  /\ Rect.y (GameFinal.rect p') = 440
  /\ GameFinal.vel_x p' = 5
  /\ GameFinal.attack_timer p' = 14 - n
  /\ GameFinal.attacking p' = (n <? 14).
Proof.
  intros H strike platform p n p'. subst n p'.
  do 15 (destruct later as [| ? later];
         [vm_compute; repeat split; reflexivity |]).
  simpl in H. lia.
Qed.

(** LEFT is held during the 14 frames that follow the strike: the player
    ends at [x = 175], the attack over. *)
Lemma C6_attacking_player_keeps_moving_witness :
  let strike := mkKeys false true false false false false false true in
  let left := mkKeys true false false false false false false false in
  let platform := Rect.mk 0 500 2000 20 in
  let p := GameFinal.mkPlayer (Rect.mk 100 440 40 60) 1 0 0%Q true false 0 3 0
  in
  let p' := player_frames
              ((strike, [platform], [], [])
                 :: map (fun keys => (keys, [platform], [], []))
                        (List.repeat left 14)) p in
  (List.length (List.repeat left 14) <= 14)%nat
  /\ K_LEFT left = true
  /\ Rect.x (GameFinal.rect p') = 175
  /\ GameFinal.attacking p' = false.
Proof.
  intros strike left platform p p'.
  assert (H : (List.length (List.repeat left 14) <= 14)%nat)
    by (simpl; lia).
  split; [exact H |]. split; [reflexivity |].
  destruct (C6_attacking_player_keeps_moving (List.repeat left 14) H)
    as (_ & _ & _ & Ex & _ & _ & _ & Ea).
  split; [exact Ex | exact Ea].
Defined.

(** ** Enemy patrol (C7) *)

Section Patrol.

Lemma full_enemy_step (e : GameFull.Enemy) :
  GameFull.min_x e <= GameFull.max_x e ->
  let e' := GameFull.enemy_update e in
  GameFull.min_x e' = GameFull.min_x e
  /\ GameFull.max_x e' = GameFull.max_x e
  /\ full_in_bounds e'.
Proof.
  intro H. unfold GameFull.enemy_update, full_in_bounds.
  destruct ((Rect.x (GameFull.enemy_rect e) + GameFull.speed e
             <? GameFull.min_x e)
            || (Rect.x (GameFull.enemy_rect e) + GameFull.speed e
                >? GameFull.max_x e)) eqn:E; simpl.
  - repeat split; lia.
  - bounds_of E. repeat split; lia.
Qed.

Lemma full_enemy_iter (n : nat) (e : GameFull.Enemy) :
  full_in_bounds e ->
  let e' := Nat.iter n GameFull.enemy_update e in
  GameFull.min_x e' = GameFull.min_x e
  /\ GameFull.max_x e' = GameFull.max_x e
  /\ full_in_bounds e'.
Proof.
  intro H. induction n as [| n IH]; simpl.
  - repeat split; apply H.
  - destruct IH as (Emin & Emax & Hb).
    destruct (full_enemy_step (Nat.iter n GameFull.enemy_update e))
      as (Smin & Smax & Sb).
    + unfold full_in_bounds in Hb. lia.
    + split; [congruence |]. split; [congruence |]. exact Sb.
Qed.

Lemma ultra_enemy_step (e : GameUltra.Enemy) :
  GameUltra.min_x e <= GameUltra.max_x e ->
  let e' := GameUltra.enemy_update e in
  GameUltra.min_x e' = GameUltra.min_x e
  /\ GameUltra.max_x e' = GameUltra.max_x e
  /\ ultra_in_bounds e'.
Proof.
  intro H. unfold GameUltra.enemy_update, ultra_in_bounds.
  set (r := Rect.add_x (GameUltra.enemy_rect e) (GameUltra.speed e)).
  clearbody r.
  destruct ((Rect.x r <? GameUltra.min_x e)
            || (Rect.x r >? GameUltra.max_x e)) eqn:E; simpl.
  - repeat split; lia.
  - bounds_of E. repeat split; lia.
Qed.

Lemma ultra_enemy_iter (n : nat) (e : GameUltra.Enemy) :
  ultra_in_bounds e ->
  let e' := Nat.iter n GameUltra.enemy_update e in
  GameUltra.min_x e' = GameUltra.min_x e
  /\ GameUltra.max_x e' = GameUltra.max_x e
  /\ ultra_in_bounds e'.
Proof.
  intro H. induction n as [| n IH]; simpl.
  - repeat split; apply H.
  - destruct IH as (Emin & Emax & Hb).
    destruct (ultra_enemy_step (Nat.iter n GameUltra.enemy_update e))
      as (Smin & Smax & Sb).
    + unfold ultra_in_bounds in Hb. lia.
    + split; [congruence |]. split; [congruence |]. exact Sb.
Qed.

(** A step that would leave the bounds turns the enemy round and clamps
    it; any other step is taken as it is. *)
Lemma full_enemy_turns (e : GameFull.Enemy) :
  let x := Rect.x (GameFull.enemy_rect e) + GameFull.speed e in
  let e' := GameFull.enemy_update e in
  (x < GameFull.min_x e \/ GameFull.max_x e < x ->
   GameFull.speed e' = - GameFull.speed e
   /\ Rect.x (GameFull.enemy_rect e')
      = Z.max (Z.min x (GameFull.max_x e)) (GameFull.min_x e))
  /\ (GameFull.min_x e <= x <= GameFull.max_x e ->
      GameFull.speed e' = GameFull.speed e
      /\ Rect.x (GameFull.enemy_rect e') = x).
Proof.
  intros x e'. unfold e', GameFull.enemy_update. fold x.
  destruct ((x <? GameFull.min_x e) || (x >? GameFull.max_x e)) eqn:E.
  - simpl. split; [intros _; split; lia |].
    intro H. bounds_of E; lia.
  - bounds_of E. simpl. split; [lia | intros _; split; reflexivity].
Qed.

Lemma ultra_enemy_turns (e : GameUltra.Enemy) :
  let x := Rect.x (Rect.add_x (GameUltra.enemy_rect e) (GameUltra.speed e))
  in
  let e' := GameUltra.enemy_update e in
  (x < GameUltra.min_x e \/ GameUltra.max_x e < x ->
   (GameUltra.speed e' == - GameUltra.speed e)%Q
   /\ Rect.x (GameUltra.enemy_rect e')
      = Z.max (Z.min x (GameUltra.max_x e)) (GameUltra.min_x e))
  /\ (GameUltra.min_x e <= x <= GameUltra.max_x e ->
      GameUltra.speed e' = GameUltra.speed e
      /\ Rect.x (GameUltra.enemy_rect e') = x).
Proof.
  intros x e'. unfold e', GameUltra.enemy_update. fold x.
  destruct ((x <? GameUltra.min_x e) || (x >? GameUltra.max_x e)) eqn:E.
  - simpl. split.
    + intros _. split; [| reflexivity].
      unfold Float.mul. rewrite Qred_correct. ring.
    + intro H. bounds_of E; lia.
  - bounds_of E. simpl. split; [lia | intros _; split; reflexivity].
Qed.

End Patrol.

(** C7: an enemy that starts within its patrol bounds [[min_x, max_x]] is
    within them at the end of every frame, for any number of frames, in
    game_full.py and in game_ultra.py, and its bounds never change; in
    both a step that would leave the bounds negates the speed and clamps
    the abscissa back into the bounds, and any other step is taken
    unchanged. *)
Theorem C7_enemy_stays_within_patrol_bounds :
  (forall (n : nat) (e : GameFull.Enemy),
      full_in_bounds e ->
      let e' := Nat.iter n GameFull.enemy_update e in
      GameFull.min_x e' = GameFull.min_x e
      /\ GameFull.max_x e' = GameFull.max_x e
      /\ GameFull.min_x e <= Rect.x (GameFull.enemy_rect e')
         <= GameFull.max_x e)
  /\ (forall (n : nat) (e : GameUltra.Enemy),
         ultra_in_bounds e ->
         let e' := Nat.iter n GameUltra.enemy_update e in
         GameUltra.min_x e' = GameUltra.min_x e
         /\ GameUltra.max_x e' = GameUltra.max_x e
         /\ GameUltra.min_x e <= Rect.x (GameUltra.enemy_rect e')
            <= GameUltra.max_x e)
  /\ (forall e : GameFull.Enemy,
         let x := Rect.x (GameFull.enemy_rect e) + GameFull.speed e in
         let e' := GameFull.enemy_update e in
         (x < GameFull.min_x e \/ GameFull.max_x e < x ->
          GameFull.speed e' = - GameFull.speed e
          /\ Rect.x (GameFull.enemy_rect e')
             = Z.max (Z.min x (GameFull.max_x e)) (GameFull.min_x e))
         /\ (GameFull.min_x e <= x <= GameFull.max_x e ->
             GameFull.speed e' = GameFull.speed e
             /\ Rect.x (GameFull.enemy_rect e') = x))
  /\ (forall e : GameUltra.Enemy,
         let x := Rect.x (Rect.add_x (GameUltra.enemy_rect e)
                                     (GameUltra.speed e)) in
         let e' := GameUltra.enemy_update e in
         (x < GameUltra.min_x e \/ GameUltra.max_x e < x ->
          (GameUltra.speed e' == - GameUltra.speed e)%Q
          /\ Rect.x (GameUltra.enemy_rect e')
             = Z.max (Z.min x (GameUltra.max_x e)) (GameUltra.min_x e))
         /\ (GameUltra.min_x e <= x <= GameUltra.max_x e ->
             GameUltra.speed e' = GameUltra.speed e
             /\ Rect.x (GameUltra.enemy_rect e') = x)).
Proof.
  split; [| split; [| split; [| exact ultra_enemy_turns]]].
  - intros n e H e'. destruct (full_enemy_iter n e H) as (Emin & Emax & Hb).
    fold e' in Emin, Emax, Hb. unfold full_in_bounds in Hb.
    rewrite Emin, Emax in Hb. auto.
  - intros n e H e'. destruct (ultra_enemy_iter n e H) as (Emin & Emax & Hb).
    fold e' in Emin, Emax, Hb. unfold ultra_in_bounds in Hb.
    rewrite Emin, Emax in Hb. auto.
  - exact full_enemy_turns.
Qed.

(** The enemy of the second platform of the first level of game_full.py,
    with a platform 120 wide and an enemy 40 wide, after a hundred
    frames; and the same patrol at the speed of game_ultra.py. *)
Lemma C7_enemy_stays_within_patrol_bounds_witness :
  let e := GameFull.mkEnemy (Rect.mk 360 480 40 40) 320 400 2 in
  let u := GameUltra.mkEnemy (Rect.mk 360 480 40 40) 320 400 (3 # 2) in
  full_in_bounds e /\ ultra_in_bounds u
  /\ 320 <= Rect.x (GameFull.enemy_rect
                      (Nat.iter 100 GameFull.enemy_update e)) <= 400
  /\ 320 <= Rect.x (GameUltra.enemy_rect
                      (Nat.iter 100 GameUltra.enemy_update u)) <= 400.
Proof.
  intros e u.
  assert (He : full_in_bounds e) by (unfold full_in_bounds; simpl; lia).
  assert (Hu : ultra_in_bounds u) by (unfold ultra_in_bounds; simpl; lia).
  split; [exact He |]. split; [exact Hu |]. split.
  - exact (proj2 (proj2 (proj1 C7_enemy_stays_within_patrol_bounds
                               100%nat e He))).
  - exact (proj2 (proj2 (proj1 (proj2 C7_enemy_stays_within_patrol_bounds)
                               100%nat u Hu))).
Defined.

(** ** Level generation in game_final.py (C8) *)

Section RandomLevels.

Variable Rng : Type.
Variable seed : Z -> Rng.
Variable randint : Z -> Z -> Rng -> Z * Rng.
Variable choice : nat -> Rng -> nat * Rng.

Lemma final_generate_level_fst (levels : list (list (Z * Z))) (g : Rng)
      (i : Z) :
  fst (GameFinal.generate_level seed randint (levels, g) i)
  = levels ++ [final_level seed randint i].
Proof.
  unfold GameFinal.generate_level, final_level.
  destruct (fold_left _ _ _) as [lp g']. reflexivity.
Qed.

(** The generator is seeded anew for each level, so the state it was in
    before has no bearing on what the loop body yields. *)
Lemma final_generate_level_reseeds (levels : list (list (Z * Z)))
      (g g' : Rng) (i : Z) :
  GameFinal.generate_level seed randint (levels, g) i
  = GameFinal.generate_level seed randint (levels, g') i.
Proof. reflexivity. Qed.

Lemma final_generate_loop (l : list Z) (levels : list (list (Z * Z)))
      (g : Rng) :
  fst (fold_left (GameFinal.generate_level seed randint) l (levels, g))
  = levels ++ map (final_level seed randint) l.
Proof.
  revert levels g.
  induction l as [| i l IH]; intros levels g; cbn [fold_left map].
  - symmetry. apply app_nil_r.
  - pose proof (final_generate_level_fst levels g i) as E.
    destruct (GameFinal.generate_level seed randint (levels, g) i)
      as [levels' g'].
    simpl in E. subst levels'. rewrite IH, <- app_assoc. reflexivity.
Qed.

Lemma final_generate_levels_map (count : Z) (g : Rng) :
  fst (GameFinal.generate_levels seed randint count g)
  = map (final_level seed randint) (range count).
Proof. unfold GameFinal.generate_levels. apply final_generate_loop. Qed.

Lemma final_generate_levels_nth (count : Z) (g : Rng) (i : nat) :
  (i < Z.to_nat count)%nat ->
  nth_error (fst (GameFinal.generate_levels seed randint count g)) i
  = Some (final_level seed randint (Z.of_nat i)).
Proof.
  intro H. rewrite final_generate_levels_map, nth_error_map.
  rewrite (range_nth count i H). reflexivity.
Qed.

(** What [load_level] spawns depends on the list of levels, the index and
    the sizes of the images, and on nothing else in the game. *)
Lemma final_load_level_layout (a : Assets) (index : Z)
      (g g' : GameFinal.Game Rng) :
  GameFinal.levels g = GameFinal.levels g' ->
  option_map layout (GameFinal.load_level seed choice a index g)
  = option_map layout (GameFinal.load_level seed choice a index g').
Proof.
  intro H. unfold GameFinal.load_level. rewrite H.
  destruct (getitem (GameFinal.levels g') index) as [lp |]; [| reflexivity].
  destruct (GameFinal.list_max (map fst lp)) as [m |]; [| reflexivity].
  load_level_cases;
    reflexivity.
Qed.

End RandomLevels.

Section LoadLevel.

Variable Rng : Type.
Variable seed : Z -> Rng.
Variable randint : Z -> Z -> Rng -> Z * Rng.
Variable choice : nat -> Rng -> nat * Rng.

Lemma getitem_nth {A : Type} (l : list A) (i : nat) (x : A) :
  nth_error l i = Some x -> getitem l (Z.of_nat i) = Some x.
Proof.
  intro H. unfold getitem.
  assert (Hi : (i < List.length l)%nat)
    by (apply nth_error_Some; congruence).
  destruct (Z.ltb_spec (Z.of_nat i) (- Z.of_nat (List.length l))); [lia |].
  destruct (Z.geb_spec (Z.of_nat i) (Z.of_nat (List.length l))); [lia |].
  simpl. destruct (Z.ltb_spec (Z.of_nat i) 0); [lia |].
  rewrite Nat2Z.id. exact H.
Qed.

Lemma place_platform_keeps_ground (width : Z) (l : list Z)
      (lp : list (Z * Z)) (g : Rng) :
  lp <> [] ->
  fst (fold_left (GameFinal.place_platform randint width) l (lp, g)) <> [].
Proof.
  revert lp g. induction l as [| p l IH]; intros lp g H; simpl.
  - exact H.
  - destruct (randint 50 (width - 200) g) as [x g1].
    destruct (randint 200 _ g1) as [y g2].
    apply IH. destruct lp; discriminate.
Qed.

Lemma final_level_nonempty (i : Z) : final_level seed randint i <> [].
Proof.
  unfold final_level. apply place_platform_keeps_ground. discriminate.
Qed.

(** [load_level] returns for every index of a generated list of levels. *)
Lemma final_load_level_total (a : Assets) (count : Z) (g0 : Rng)
      (g : GameFinal.Game Rng) (i : nat) :
  GameFinal.levels g = fst (GameFinal.generate_levels seed randint count g0) ->
  (i < Z.to_nat count)%nat ->
  exists g',
    GameFinal.load_level seed choice a (Z.of_nat i) g = Some g'.
Proof.
  intros Hl Hi. unfold GameFinal.load_level.
  rewrite (getitem_nth (GameFinal.levels g) i
                       (final_level seed randint (Z.of_nat i)));
    [| rewrite Hl; apply final_generate_levels_nth, Hi].
  pose proof (final_level_nonempty (Z.of_nat i)) as Hne.
  destruct (final_level seed randint (Z.of_nat i)) as [| xy lp];
    [congruence |].
  cbn [map GameFinal.list_max].
  load_level_cases;
    eexists; reflexivity.
Qed.

End LoadLevel.

(** C8: level generation is a function of the level index.  In
    game_full.py two calls of [generate_levels] with the same sizes, for
    whatever numbers of levels above [i], return the same entry [i]:
    platforms, coins, enemies and length.  In game_final.py, where the
    positions are drawn at random, [generate_levels] seeds the generator
    with the index of each level, so that entry [i] is the same whatever
    the state of the generator at the call; and what [load_level] spawns
    for an index (platforms, coins, enemies, width of the world) is the
    same whatever the rest of the game, and it is spawned for every index
    of the generated list. *)
Theorem C8_level_generation_is_deterministic :
  (forall (n m sh : Z) (a : Assets) (i : nat),
      (i < Z.to_nat n)%nat -> (i < Z.to_nat m)%nat ->
      exists d,
        nth_error (GameFull.generate_levels n sh a) i = Some d
        /\ nth_error (GameFull.generate_levels m sh a) i = Some d)
  /\ (forall (Rng : Type) (seed : Z -> Rng)
             (randint : Z -> Z -> Rng -> Z * Rng)
             (count count' : Z) (g g' : Rng) (i : nat),
         (i < Z.to_nat count)%nat -> (i < Z.to_nat count')%nat ->
         exists level,
           nth_error (fst (GameFinal.generate_levels seed randint count g)) i
           = Some level
           /\ nth_error
                (fst (GameFinal.generate_levels seed randint count' g')) i
              = Some level)
  /\ (forall (Rng : Type) (seed : Z -> Rng)
             (randint : Z -> Z -> Rng -> Z * Rng)
             (choice : nat -> Rng -> nat * Rng) (a : Assets) (count : Z)
             (g0 : Rng) (g g' : GameFinal.Game Rng) (i : nat),
         GameFinal.levels g
         = fst (GameFinal.generate_levels seed randint count g0) ->
         GameFinal.levels g' = GameFinal.levels g ->
         (i < Z.to_nat count)%nat ->
         exists l g1 g1',
           GameFinal.load_level seed choice a (Z.of_nat i) g = Some g1
           /\ GameFinal.load_level seed choice a (Z.of_nat i) g' = Some g1'
           /\ layout g1 = l /\ layout g1' = l).
Proof.
  split; [| split].
  - intros n m sh a i Hn Hm.
    exists (GameFull.generate_level sh a (Z.of_nat i)).
    split; apply full_generate_levels_nth; assumption.
  - intros Rng seed randint count count' g g' i Hc Hc'.
    exists (final_level seed randint (Z.of_nat i)).
    split; apply final_generate_levels_nth; assumption.
  - intros Rng seed randint choice a count g0 g g' i Hl Hl' Hi.
    destruct (final_load_level_total Rng seed randint choice a count g0 g i
                                     Hl Hi) as [g1 E1].
    assert (Hl2 : GameFinal.levels g'
                  = fst (GameFinal.generate_levels seed randint count g0))
      by congruence.
    destruct (final_load_level_total Rng seed randint choice a count g0 g' i
                                     Hl2 Hi) as [g1' E1'].
    exists (layout g1), g1, g1'. repeat split; try assumption.
    pose proof (final_load_level_layout Rng seed choice a (Z.of_nat i) g g'
                                        (eq_sym Hl')) as E.
    rewrite E1, E1' in E. simpl in E. congruence.
Qed.

(** Level 5 of game_full.py out of 30 and out of 6 levels; and level 5
    of game_final.py from two states of a generator. *)
Lemma C8_level_generation_is_deterministic_witness :
  let a := mkAssets 120 20 40 60 20 20 40 40 in
  (exists d,
      nth_error (GameFull.generate_levels 30 600 a) 5 = Some d
      /\ nth_error (GameFull.generate_levels 6 600 a) 5 = Some d)
  /\ (exists level,
         nth_error (fst (GameFinal.generate_levels Lcg.seed Lcg.randint
                                                   30 1)) 5 = Some level
         /\ nth_error (fst (GameFinal.generate_levels Lcg.seed Lcg.randint
                                                      30 2)) 5 = Some level).
Proof.
  intro a. split.
  - apply (proj1 C8_level_generation_is_deterministic 30 6 600 a 5%nat);
      simpl; lia.
  - apply (proj1 (proj2 C8_level_generation_is_deterministic)
                 Z Lcg.seed Lcg.randint 30 30 1 2 5%nat); simpl; lia.
Defined.

(** ** The game over and win states *)

Section Terminal.

Variable Rng : Type.
Variable seed : Z -> Rng.
Variable randint : Z -> Z -> Rng -> Z * Rng.
Variable choice : nat -> Rng -> nat * Rng.

Lemma full_frame_terminal (a : Assets) (keys : Keys) (g : GameFull.Game) :
  GameFull.game_over g = true \/ GameFull.game_completed g = true ->
  GameFull.frame a keys g = Some g.
Proof.
  intros [H | H]; unfold GameFull.frame; rewrite H; simpl;
    [| rewrite andb_false_r]; reflexivity.
Qed.

Lemma final_frame_terminal (a : Assets) (keys : Keys)
      (events : list GameFinal.Event) (g : GameFinal.Game Rng) :
  GameFinal.game_over g = true \/ GameFinal.game_won g = true ->
  GameFinal.run_frame seed choice a keys events g
  = Some (if GameFinal.quit_requested events then set_running false g
          else g).
Proof.
  intro H. unfold GameFinal.run_frame.
  assert (E : negb (GameFinal.game_over g) && negb (GameFinal.game_won g)
              = false).
  { destruct H as [H | H]; rewrite H; simpl;
      [| rewrite andb_false_r]; reflexivity. }
  destruct (GameFinal.quit_requested events);
    cbn [GameFinal.game_over GameFinal.game_won]; rewrite E;
    cbn [GameFinal.game_over GameFinal.game_won]; rewrite ?E; reflexivity.
Qed.

Lemma same_simulation_refl (g : GameFinal.Game Rng) : same_simulation g g.
Proof. reflexivity. Qed.

Lemma same_simulation_stop (g g' : GameFinal.Game Rng) :
  same_simulation g g' -> same_simulation g (set_running false g').
Proof. unfold same_simulation. intro H. rewrite H. reflexivity. Qed.

(** Events other than the restart key leave the simulation alone. *)
Lemma wait_events_quiet (a : Assets) (events : list GameFinal.Event)
      (g : GameFinal.Game Rng) (waiting : bool) :
  forallb (fun e => negb (is_restart e)) events = true ->
  exists g' waiting',
    fold_left (GameFinal.wait_event seed choice a) events
              (Some (g, waiting)) = Some (g', waiting')
    /\ same_simulation g g'
    /\ (GameFinal.quit_requested events = false ->
        g' = g /\ waiting' = waiting).
Proof.
  revert g waiting.
  induction events as [| e events IH]; intros g waiting H; simpl.
  - exists g, waiting. repeat split.
  - simpl in H. apply andb_true_iff in H as [He H].
    destruct e as [| key |]; simpl in *.
    + destruct (IH (set_running false g) false H)
        as (g' & w' & E & Hs & _).
      exists g', w'. split; [exact E |]. split; [| discriminate].
      unfold same_simulation in *. rewrite <- Hs. reflexivity.
    + apply negb_true_iff in He. rewrite He.
      destruct (IH g waiting H) as (g' & w' & E & Hs & Hq).
      exists g', w'. auto.
    + destruct (IH g waiting H) as (g' & w' & E & Hs & Hq).
      exists g', w'. auto.
Qed.

(** While no restart key comes, the loop of the game over screen leaves
    the simulation alone, however long it waits. *)
Lemma wait_loop_quiet (a : Assets) (batches : list (list GameFinal.Event))
      (g : GameFinal.Game Rng) :
  forallb (forallb (fun e => negb (is_restart e))) batches = true ->
  exists g' waiting,
    GameFinal.handle_game_over seed choice a batches g = Some (g', waiting)
    /\ same_simulation g g'.
Proof.
  revert g. induction batches as [| events batches IH]; intros g H; simpl.
  - exists g, true. split; reflexivity.
  - simpl in H. apply andb_true_iff in H as [He H].
    destruct (GameFinal.running g); [| exists g, true; split; reflexivity].
    destruct (wait_events_quiet a events g true He)
      as (g1 & w1 & E & Hs & _).
    rewrite E. destruct w1.
    + destruct (IH g1 H) as (g' & w' & E' & Hs').
      exists g', w'. split; [exact E' |].
      unfold same_simulation in *. congruence.
    + exists g1, false. split; [reflexivity | exact Hs].
Qed.

(** What [load_level] leaves in the game, whenever it returns. *)
Lemma load_level_resets (a : Assets) (index : Z)
      (g g' : GameFinal.Game Rng) :
  GameFinal.load_level seed choice a index g = Some g' ->
  GameFinal.level_index g' = GameFinal.level_index g
  /\ GameFinal.levels g' = GameFinal.levels g
  /\ GameFinal.lives (GameFinal.player g') = 3
  /\ GameFinal.score (GameFinal.player g') = 0
  /\ GameFinal.game_over g' = false
  /\ GameFinal.game_won g' = false
  /\ GameFinal.running g' = GameFinal.running g.
Proof.
  unfold GameFinal.load_level.
  destruct (getitem (GameFinal.levels g) index) as [lp |]; [| discriminate].
  destruct (GameFinal.list_max (map fst lp)) as [m |]; [| discriminate].
  load_level_cases;
    intro E; injection E as <-; simpl; repeat split.
Qed.

(** The restart key, met by a running game that waits. *)
Lemma wait_event_restart (a : Assets) (g : GameFinal.Game Rng)
      (waiting : bool) :
  GameFinal.wait_event seed choice a (Some (g, waiting))
                       (GameFinal.KEYDOWN GameFinal.K_r)
  = option_map (fun g' => (g', false))
               (GameFinal.load_level seed choice a 0 (set_level_index 0 g)).
Proof. reflexivity. Qed.

End Terminal.

(** ** The hypotheses hold of what the games load *)

Section Loaded.

Lemma make_coins_ids (a : Assets) (l : list (Z * Z)) (k : nat) :
  map GameFull.coin_id (GameFull.make_coins a k l)
  = seq k (List.length l).
Proof.
  revert k. induction l as [| [x y] l IH]; intro k; simpl.
  - reflexivity.
  - rewrite IH. reflexivity.
Qed.

(** The coins [load_level] of game_full.py creates are distinct
    objects. *)
Lemma full_loaded_coins_distinct (a : Assets)
      (levels : list GameFull.LevelData) (i : Z) (pl : list Rect.t)
      (co : list GameFull.AnimatedCoin) (en : list GameFull.Enemy)
      (len : Z) :
  GameFull.load_level a levels i = Some (pl, co, en, len) ->
  NoDup (map GameFull.coin_id co).
Proof.
  unfold GameFull.load_level.
  destruct (getitem levels i) as [data |]; [| discriminate].
  intro E. injection E as _ <- _ _.
  rewrite make_coins_ids. apply seq_NoDup.
Qed.

Lemma getitem_In {A : Type} (l : list A) (i : Z) (x : A) :
  getitem l i = Some x -> In x l.
Proof.
  unfold getitem.
  destruct ((i <? - Z.of_nat (List.length l))
            || (i >=? Z.of_nat (List.length l))); [discriminate |].
  apply nth_error_In.
Qed.

Lemma place_platform_enemies (a : Assets) (base_y step_x : Z) (l : list Z)
      (acc : GameFull.LevelData) :
  enemy_w a <= platform_w a ->
  Forall origin_in_bounds (GameFull.data_enemies acc) ->
  Forall origin_in_bounds
         (GameFull.data_enemies
            (fold_left (GameFull.place_platform a base_y step_x) l acc)).
Proof.
  intro Hw. revert acc. induction l as [| j l IH]; intros acc H; simpl.
  - exact H.
  - apply IH. unfold GameFull.place_platform. simpl.
    destruct (j mod 3 =? 1); [| exact H].
    apply Forall_app. split; [exact H |].
    constructor; [| constructor]. unfold origin_in_bounds.
    assert (0 <= (platform_w a - enemy_w a) / 2 <= platform_w a - enemy_w a).
    { split; [apply Z.div_pos; lia |].
      apply Z.div_le_upper_bound; lia. }
    lia.
Qed.

(** When the enemy image is not wider than the platform image, every
    enemy game_full.py loads from a generated level starts within its
    patrol bounds. *)
Lemma full_loaded_enemies_in_bounds (a : Assets) (n sh i : Z)
      (pl : list Rect.t) (co : list GameFull.AnimatedCoin)
      (en : list GameFull.Enemy) (len : Z) :
  enemy_w a <= platform_w a ->
  GameFull.load_level a (GameFull.generate_levels n sh a) i
  = Some (pl, co, en, len) ->
  Forall full_in_bounds en.
Proof.
  intros Hw. unfold GameFull.load_level.
  destruct (getitem _ i) as [data |] eqn:G; [| discriminate].
  intro E. injection E as _ _ <- _.
  apply getitem_In in G. rewrite full_generate_levels_map in G.
  apply in_map_iff in G as [k [<- _]].
  assert (H : Forall origin_in_bounds
                     (GameFull.data_enemies (GameFull.generate_level sh a k))).
  { unfold GameFull.generate_level. apply place_platform_enemies;
      [exact Hw | constructor]. }
  induction H as [| [[[x y] mn] mx] l Hd Hl IH]; simpl; constructor.
  - unfold full_in_bounds. simpl. exact Hd.
  - exact IH.
Qed.

End Loaded.

Section LoadedFinal.

Variable Rng : Type.
Variable seed : Z -> Rng.
Variable choice : nat -> Rng -> nat * Rng.

Lemma spawn_enemy_ids (a : Assets) (platform_list : list GameFinal.Platform)
      (d : GameFinal.Platform) (l : list Z) (acc : list GameFinal.Enemy)
      (g : Rng) :
  map GameFinal.enemy_id acc = seq 0 (List.length acc) ->
  let enemies :=
    fst (fold_left (GameFinal.spawn_enemy choice a platform_list d) l
                   (acc, g)) in
  map GameFinal.enemy_id enemies = seq 0 (List.length enemies).
Proof.
  revert acc g. induction l as [| j l IH]; intros acc g H; simpl.
  - exact H.
  - destruct (choice (List.length platform_list) g) as [k g1].
    destruct (choice 2 g1) as [c g2].
    apply IH. rewrite map_app, length_app. simpl.
    rewrite Nat.add_1_r, seq_S, H. reflexivity.
Qed.

(** The enemies [load_level] of game_final.py creates are distinct
    objects. *)
Lemma final_loaded_enemies_distinct (a : Assets) (index : Z)
      (g g' : GameFinal.Game Rng) :
  GameFinal.load_level seed choice a index g = Some g' ->
  NoDup (map GameFinal.enemy_id (GameFinal.enemies g')).
Proof.
  unfold GameFinal.load_level.
  destruct (getitem (GameFinal.levels g) index) as [lp |]; [| discriminate].
  destruct (GameFinal.list_max (map fst lp)) as [m |]; [| discriminate].
  match goal with
  | |- context [let (_, _) := ?x in _] => destruct x as [coins r1]
  end.
  match goal with
  | |- context [let (_, _) := ?x in _] =>
      destruct x as [enemies r2] eqn:E
  end.
  assert (H : map GameFinal.enemy_id enemies
              = seq 0 (List.length enemies)).
  { destruct (filter _ _) as [| d platform_list] in E.
    - injection E as <- _. reflexivity.
    - match type of E with
      | fold_left ?f ?l (?acc, ?s) = _ =>
          pose proof (spawn_enemy_ids a (d :: platform_list) d l acc s
                                      eq_refl) as H
      end.
      cbv zeta in H. rewrite E in H. exact H. }
  destruct (GameFinal.sort _); intro E'; injection E' as <-; simpl;
    rewrite H; apply seq_NoDup.
Qed.

End LoadedFinal.

(** ** The frames return *)

Section Totality.

Lemma getitem_some {A : Type} (l : list A) (i : Z) :
  0 <= i < Z.of_nat (List.length l) -> exists x, getitem l i = Some x.
Proof.
  intro H. destruct (nth_error l (Z.to_nat i)) as [x |] eqn:E.
  - exists x. rewrite <- (Z2Nat.id i) by lia. apply getitem_nth. exact E.
  - apply nth_error_None in E. lia.
Qed.

(** A frame of game_full.py raises no exception when the coins are
    distinct objects and the level index is not negative. *)
Lemma full_frame_total (a : Assets) (keys : Keys) (g : GameFull.Game) :
  NoDup (ids (GameFull.coins g)) -> 0 <= GameFull.current_level g ->
  exists g', GameFull.frame a keys g = Some g'.
Proof.
  intros Hnd Hl. unfold GameFull.frame.
  destruct (negb (GameFull.game_over g) && negb (GameFull.game_completed g));
    [| eexists; reflexivity].
  unfold GameFull.simulate.
  destruct (GameFull.handle_input keys (GameFull.player g)) as [dx p].
  match goal with
  | |- context [GameFull.collect_coins ?r _ _] =>
      rewrite (full_collect_coins_filter r _ _ Hnd)
  end.
  destruct (GameFull.enemy_collision _ _ _) as [lives' p'].
  destruct (filter _ (GameFull.coins g)) as [| c left];
    [| eexists; reflexivity].
  destruct (Z.geb_spec (GameFull.current_level g + 1)
                       (Z.of_nat (List.length (GameFull.levels g))))
    as [Hge | Hlt]; [eexists; reflexivity |].
  unfold GameFull.load_level.
  destruct (getitem_some (GameFull.levels g) (GameFull.current_level g + 1))
    as [data E]; [lia |].
  rewrite E. eexists. reflexivity.
Qed.

Variable Rng : Type.
Variable seed : Z -> Rng.
Variable randint : Z -> Z -> Rng -> Z * Rng.
Variable choice : nat -> Rng -> nat * Rng.

(** A frame of game_final.py raises no exception on a list of generated
    levels. *)
Lemma final_frame_total (a : Assets) (keys : Keys)
      (events : list GameFinal.Event) (count : Z) (g0 : Rng)
      (g : GameFinal.Game Rng) :
  GameFinal.levels g = fst (GameFinal.generate_levels seed randint count g0) ->
  0 <= GameFinal.level_index g ->
  exists g', GameFinal.run_frame seed choice a keys events g = Some g'.
Proof.
  intros Hlv Hi. unfold GameFinal.run_frame.
  set (g1 := if GameFinal.quit_requested events then _ else g).
  set (g2 := if negb (GameFinal.game_over g1) && negb (GameFinal.game_won g1)
             then _ else g1).
  assert (H2 : GameFinal.levels g2 = GameFinal.levels g
               /\ GameFinal.level_index g2 = GameFinal.level_index g).
  { unfold g2, g1.
    destruct (GameFinal.quit_requested events); simpl;
      match goal with
      | |- context [if ?c then _ else _] => destruct c
      end; split; reflexivity. }
  destruct H2 as [Hlv2 Hi2]. clearbody g2.
  destruct (negb (GameFinal.game_over g2) && negb (GameFinal.game_won g2));
    [| eexists; reflexivity].
  unfold GameFinal.update_entities.
  destruct (GameFinal.update _ _ _ _) as [[coins enemies] p].
  cbn [GameFinal.game_over GameFinal.level_index GameFinal.levels].
  destruct (Nat.eqb _ 0 && negb (GameFinal.game_over g2));
    [| eexists; reflexivity].
  rewrite Hlv2, Hi2, Hlv.
  rewrite final_generate_levels_map, length_map, range_length.
  destruct (Z.geb_spec (GameFinal.level_index g + 1)
                       (Z.of_nat (Z.to_nat count)))
    as [Hge | Hlt]; [eexists; reflexivity |].
  rewrite <- (Z2Nat.id (GameFinal.level_index g + 1)) by lia.
  apply final_load_level_total with (randint := randint) (count := count)
                                    (g0 := g0).
  - cbn [GameFinal.levels]. symmetry. apply final_generate_levels_map.
  - lia.
Qed.

End Totality.


(** * More properties of the code *)

(** ** Floats stored into rectangles *)

Section Conversion.

Lemma Qfloor_add_int (z : Z) (v : Q) :
  Qfloor (inject_Z z + v) = z + Qfloor v.
Proof.
  destruct v as [n d]. unfold Qfloor, Qplus, inject_Z. simpl.
  rewrite Z.mul_1_r, Z.add_comm, Z.div_add by lia. lia.
Qed.

Lemma Qceiling_add_int (z : Z) (v : Q) :
  Qceiling (inject_Z z + v) = z + Qceiling v.
Proof.
  unfold Qceiling.
  assert (E : (- (inject_Z z + v) == inject_Z (- z) + - v)%Q).
  { rewrite inject_Z_opp. ring. }
  rewrite (Qfloor_comp _ _ E), Qfloor_add_int. lia.
Qed.

Lemma to_int_nonpos (q : Q) : (q <= 0)%Q -> Float.to_int q = Qceiling q.
Proof.
  intro H. unfold Qceiling. rewrite <- to_int_nonneg.
  - rewrite to_int_opp. lia.
  - apply (Qopp_le_compat q 0). exact H.
Qed.

Lemma to_int_add (z : Z) (v : Q) :
  ((0 <= inject_Z z + v)%Q ->
   Float.to_int (Float.add (Float.of_int z) v) = z + Qfloor v)
  /\ ((inject_Z z + v <= 0)%Q ->
      Float.to_int (Float.add (Float.of_int z) v) = z + Qceiling v).
Proof.
  unfold Float.add, Float.of_int.
  rewrite (to_int_comp _ _ (Qred_correct _)). split; intro H.
  - rewrite (to_int_nonneg _ H). apply Qfloor_add_int.
  - rewrite (to_int_nonpos _ H). apply Qceiling_add_int.
Qed.

Lemma add_y_rounds (r : Rect.t) (v : Q) :
  ((0 <= inject_Z (Rect.y r) + v)%Q ->
   Rect.add_y r v = Rect.set_y r (Rect.y r + Qfloor v))
  /\ ((inject_Z (Rect.y r) + v <= 0)%Q ->
      Rect.add_y r v = Rect.set_y r (Rect.y r + Qceiling v)).
Proof.
  unfold Rect.add_y. destruct (to_int_add (Rect.y r) v) as [H1 H2].
  split; intro H; [rewrite (H1 H) | rewrite (H2 H)]; reflexivity.
Qed.

Lemma add_x_rounds (r : Rect.t) (v : Q) :
  ((0 <= inject_Z (Rect.x r) + v)%Q ->
   Rect.add_x r v = Rect.set_x r (Rect.x r + Qfloor v))
  /\ ((inject_Z (Rect.x r) + v <= 0)%Q ->
      Rect.add_x r v = Rect.set_x r (Rect.x r + Qceiling v)).
Proof.
  unfold Rect.add_x. destruct (to_int_add (Rect.x r) v) as [H1 H2].
  split; intro H; [rewrite (H1 H) | rewrite (H2 H)]; reflexivity.
Qed.

End Conversion.

(** ** The patrol of game_ultra.py *)

(** X2: the enemies of game_ultra.py have the speed [1.5], and their
    abscissa is an integer.  At a positive abscissa an enemy that stays
    within its bounds therefore advances one unit per frame to the right
    and two units per frame to the left; and turning round at a bound
    changes the speed from [1.5] to [-1.5] and back, so that these are the
    only two speeds an enemy ever has. *)
Theorem X2_ultra_enemy_is_faster_leftwards :
  forall (e : GameUltra.Enemy),
    0 <= Rect.x (GameUltra.enemy_rect e) ->
    let x := Rect.x (GameUltra.enemy_rect e) in
    (GameUltra.speed e = (3 # 2)%Q ->
     (GameUltra.min_x e <= x + 1 <= GameUltra.max_x e ->
      GameUltra.enemy_update e
      = GameUltra.mkEnemy (Rect.set_x (GameUltra.enemy_rect e) (x + 1))
                          (GameUltra.min_x e) (GameUltra.max_x e) (3 # 2))
     /\ (GameUltra.max_x e < x + 1 ->
         GameUltra.speed (GameUltra.enemy_update e) = (- (3 # 2))%Q))
    /\ (GameUltra.speed e = (- (3 # 2))%Q -> 2 <= x ->
        (GameUltra.min_x e <= x - 2 <= GameUltra.max_x e ->
         GameUltra.enemy_update e
         = GameUltra.mkEnemy (Rect.set_x (GameUltra.enemy_rect e) (x - 2))
                             (GameUltra.min_x e) (GameUltra.max_x e)
                             (- (3 # 2)))
        /\ (x - 2 < GameUltra.min_x e ->
            GameUltra.speed (GameUltra.enemy_update e) = (3 # 2)%Q)).
Proof.
  intros e Hx x. fold x in Hx.
  split.
  - intro Hs. unfold GameUltra.enemy_update. rewrite Hs.
    rewrite (proj1 (add_x_rounds (GameUltra.enemy_rect e) (3 # 2))).
    2:{ fold x. apply Qle_trans with (inject_Z x + 0)%Q.
        - rewrite Qplus_0_r. change 0%Q with (inject_Z 0).
          rewrite <- Zle_Qle. exact Hx.
        - apply Qplus_le_compat; [apply Qle_refl | unfold Qle; simpl; lia]. }
    fold x. change (Qfloor (3 # 2)) with 1.
    cbn [Rect.x Rect.set_x].
    destruct ((x + 1 <? GameUltra.min_x e)
              || (x + 1 >? GameUltra.max_x e)) eqn:E.
    + bounds_of E; split; intro H; try lia; reflexivity.
    + bounds_of E. split; intro H; [reflexivity | lia].
  - intros Hs H2. unfold GameUltra.enemy_update. rewrite Hs.
    rewrite (proj1 (add_x_rounds (GameUltra.enemy_rect e) (- (3 # 2)))).
    2:{ fold x. apply Qle_trans with (inject_Z 2 + - (3 # 2))%Q.
        - unfold Qle. simpl. lia.
        - apply Qplus_le_compat; [| apply Qle_refl].
          rewrite <- Zle_Qle. exact H2. }
    fold x. change (Qfloor (- (3 # 2))) with (-2).
    replace (x + -2) with (x - 2) by lia.
    cbn [Rect.x Rect.set_x].
    destruct ((x - 2 <? GameUltra.min_x e)
              || (x - 2 >? GameUltra.max_x e)) eqn:E.
    + bounds_of E; split; intro H; try lia; reflexivity.
    + bounds_of E. split; intro H; [reflexivity | lia].
Qed.

(** The enemy of the second platform of a first level, walking right
    from 360 and left from 360. *)
Lemma X2_ultra_enemy_is_faster_leftwards_witness :
  GameUltra.enemy_update
    (GameUltra.mkEnemy (Rect.mk 360 480 40 40) 320 400 (3 # 2))
  = GameUltra.mkEnemy (Rect.mk 361 480 40 40) 320 400 (3 # 2)
  /\ GameUltra.enemy_update
       (GameUltra.mkEnemy (Rect.mk 360 480 40 40) 320 400 (- (3 # 2)))
     = GameUltra.mkEnemy (Rect.mk 358 480 40 40) 320 400 (- (3 # 2)).
Proof.
  split.
  - apply (X2_ultra_enemy_is_faster_leftwards
             (GameUltra.mkEnemy (Rect.mk 360 480 40 40) 320 400 (3 # 2)));
      simpl; try reflexivity; lia.
  - apply (X2_ultra_enemy_is_faster_leftwards
             (GameUltra.mkEnemy (Rect.mk 360 480 40 40) 320 400
                                (- (3 # 2))));
      simpl; try reflexivity; lia.
Defined.


(** ** A grounded player stands on a platform *)

Section Grounded.

Lemma colliderect_spans (a b : Rect.t) :
  wide a -> wide b -> Rect.colliderect a b = true ->
  Rect.left a < Rect.right b /\ Rect.left b < Rect.right a.
Proof.
  unfold wide, Rect.colliderect, Rect.left, Rect.right. intros Ha Hb H.
  destruct ((Rect.w a =? 0) || (Rect.h a =? 0) || (Rect.w b =? 0)
            || (Rect.h b =? 0)); [discriminate |].
  repeat (apply andb_true_iff in H; destruct H as [H ?]).
  bounds_of H. bounds_of H0. lia.
Qed.

Lemma stands_on_landing (r plat : Rect.t) (all : list Rect.t) :
  wide r -> wide plat -> In plat all -> Rect.colliderect r plat = true ->
  stands_on (Rect.set_bottom r (Rect.top plat)) all.
Proof.
  intros Hr Hp Hin Hc. exists plat. split; [exact Hin |].
  split; [apply bottom_set_bottom |].
  exact (colliderect_spans r plat Hr Hp Hc).
Qed.

Lemma main_step_grounded (all : list Rect.t) (p : MainPy.Player)
      (plat : Rect.t) :
  Forall wide all -> In plat all -> wide (MainPy.rect p) ->
  (MainPy.on_ground p = true ->
   MainPy.vy p = 0%Q /\ stands_on (MainPy.rect p) all) ->
  let p' := MainPy.vertical_step p plat in
  wide (MainPy.rect p')
  /\ (MainPy.on_ground p' = true ->
      MainPy.vy p' = 0%Q /\ stands_on (MainPy.rect p') all).
Proof.
  intros Hall Hin Hw Hg. unfold MainPy.vertical_step.
  destruct (Rect.colliderect (MainPy.rect p) plat) eqn:Ec; [| tauto].
  destruct (Float.ltb 0 (MainPy.vy p)) eqn:E1; simpl.
  - split; [exact Hw |]. intros _. split; [reflexivity |].
    apply stands_on_landing; try assumption.
    exact (proj1 (Forall_forall _ _) Hall plat Hin).
  - destruct (Float.ltb (MainPy.vy p) 0) eqn:E2; simpl; [| tauto].
    split; [exact Hw |]. intro G. destruct (Hg G) as [V _].
    rewrite V in E2. discriminate.
Qed.

Lemma main_pass_grounded (all l : list Rect.t) (p : MainPy.Player) :
  Forall wide all -> incl l all -> wide (MainPy.rect p) ->
  (MainPy.on_ground p = true ->
   MainPy.vy p = 0%Q /\ stands_on (MainPy.rect p) all) ->
  let p' := fold_left MainPy.vertical_step l p in
  MainPy.on_ground p' = true ->
  MainPy.vy p' = 0%Q /\ stands_on (MainPy.rect p') all.
Proof.
  intro Hall. revert p. induction l as [| plat l IH]; intros p Hl Hw Hg.
  - exact Hg.
  - simpl.
    destruct (main_step_grounded all p plat Hall
                (Hl plat (or_introl eq_refl)) Hw Hg) as [Hw' Hg'].
    apply IH; try assumption.
    intros q Hq. apply Hl. right. exact Hq.
Qed.

Lemma full_step_grounded (all : list Rect.t) (p : GameFull.Player)
      (plat : Rect.t) :
  Forall wide all -> In plat all -> wide (GameFull.rect p) ->
  (GameFull.on_ground p = true ->
   GameFull.vel_y p = 0%Q /\ stands_on (GameFull.rect p) all) ->
  let p' := GameFull.vertical_step p plat in
  wide (GameFull.rect p')
  /\ (GameFull.on_ground p' = true ->
      GameFull.vel_y p' = 0%Q /\ stands_on (GameFull.rect p') all).
Proof.
  intros Hall Hin Hw Hg. unfold GameFull.vertical_step.
  destruct (Rect.colliderect (GameFull.rect p) plat) eqn:Ec; [| tauto].
  match goal with
  | |- context [if ?c then _ else _] => destruct c eqn:E1
  end; simpl.
  - split; [exact Hw |]. intros _. split; [reflexivity |].
    apply stands_on_landing; try assumption.
    exact (proj1 (Forall_forall _ _) Hall plat Hin).
  - match goal with
    | |- context [if ?c then _ else _] => destruct c eqn:E2
    end; simpl; [| tauto].
    split; [exact Hw |]. intro G. destruct (Hg G) as [V _].
    rewrite V in E2. discriminate.
Qed.

Lemma full_pass_grounded (all l : list Rect.t) (p : GameFull.Player) :
  Forall wide all -> incl l all -> wide (GameFull.rect p) ->
  (GameFull.on_ground p = true ->
   GameFull.vel_y p = 0%Q /\ stands_on (GameFull.rect p) all) ->
  let p' := fold_left GameFull.vertical_step l p in
  wide (GameFull.rect p')
  /\ (GameFull.on_ground p' = true ->
      GameFull.vel_y p' = 0%Q /\ stands_on (GameFull.rect p') all).
Proof.
  intro Hall. revert p. induction l as [| plat l IH]; intros p Hl Hw Hg.
  - split; assumption.
  - simpl.
    destruct (full_step_grounded all p plat Hall
                (Hl plat (or_introl eq_refl)) Hw Hg) as [Hw' Hg'].
    apply IH; try assumption.
    intros q Hq. apply Hl. right. exact Hq.
Qed.

Lemma fold_keeps_width {A : Type} (f : Rect.t -> A -> Rect.t)
      (l : list A) (r : Rect.t) :
  (forall r a, Rect.w (f r a) = Rect.w r) ->
  Rect.w (fold_left f l r) = Rect.w r.
Proof.
  intro H. revert r. induction l as [| a l IH]; intro r; simpl.
  - reflexivity.
  - rewrite IH. apply H.
Qed.

Lemma main_horizontal_keeps_width (vx : Z) (l : list Rect.t) (r : Rect.t) :
  Rect.w (fold_left (MainPy.horizontal_step vx) l r) = Rect.w r.
Proof.
  apply fold_keeps_width. intros r0 a. unfold MainPy.horizontal_step.
  destruct (Rect.colliderect r0 a); [| reflexivity].
  destruct (vx >? 0); [reflexivity |].
  destruct (vx <? 0); reflexivity.
Qed.

End Grounded.

(** X3: in main.py and in game_full.py, a player whose update ends with
    [on_ground = True] stands on a platform: its vertical velocity is [0],
    its bottom is at the top of one of the platforms, and it overlaps that
    platform horizontally.  (Rectangles have the sizes of images, which
    are not negative.) *)
Theorem X3_grounded_player_stands_on_a_platform :
  forall (platforms : list Rect.t),
    Forall wide platforms ->
    (forall (keys : Keys) (p : MainPy.Player),
        wide (MainPy.rect p) ->
        let p' := MainPy.update keys platforms p in
        MainPy.on_ground p' = true ->
        MainPy.vy p' = 0%Q /\ stands_on (MainPy.rect p') platforms)
    /\ (forall (p : GameFull.Player),
           wide (GameFull.rect p) ->
           let p' := GameFull.update platforms p in
           GameFull.on_ground p' = true ->
           GameFull.vel_y p' = 0%Q
           /\ stands_on (GameFull.rect p') platforms).
Proof.
  intros platforms Hall. split.
  - intros keys p Hw. unfold MainPy.update, MainPy.vertical_collisions.
    apply main_pass_grounded.
    + exact Hall.
    + apply incl_refl.
    + unfold wide. cbn [MainPy.rect]. unfold Rect.add_y, Rect.set_y.
      cbn [Rect.w]. rewrite main_horizontal_keeps_width. exact Hw.
    + cbn [MainPy.on_ground]. discriminate.
  - intros p Hw. unfold GameFull.update, GameFull.vertical_collisions.
    apply full_pass_grounded.
    + exact Hall.
    + apply incl_refl.
    + exact Hw.
    + cbn [GameFull.on_ground]. discriminate.
Qed.

(** A fall of main.py that ends on a platform. *)
Lemma X3_grounded_player_stands_on_a_platform_witness :
  let platforms := [Rect.mk 0 500 200 20] in
  let p := MainPy.mkPlayer (Rect.mk 10 438 40 60) 0 5%Q false in
  stands_on (MainPy.rect (MainPy.update no_keys platforms p)) platforms.
Proof.
  intros platforms p.
  refine (proj2 (proj1 (X3_grounded_player_stands_on_a_platform
                          platforms _) no_keys p _ _)).
  - repeat constructor. unfold wide. simpl. lia.
  - unfold wide. simpl. lia.
  - reflexivity.
Defined.


(** ** The same with the second pass of game_ultra.py and game_final.py *)

Section GroundedSticking.

Lemma small_zero : Float.ltb (Float.abs 0) GameUltra.epsilon = true.
Proof. reflexivity. Qed.

Lemma ultra_step_grounded (all : list Rect.t) (p : GameUltra.Player)
      (plat : Rect.t) :
  Forall wide all -> In plat all -> wide (GameUltra.rect p) ->
  (GameUltra.on_ground p = true ->
   GameUltra.vel_y p = 0%Q /\ stands_on (GameUltra.rect p) all) ->
  let p' := GameUltra.vertical_step p plat in
  wide (GameUltra.rect p')
  /\ (GameUltra.on_ground p' = true ->
      GameUltra.vel_y p' = 0%Q /\ stands_on (GameUltra.rect p') all).
Proof.
  intros Hall Hin Hw Hg. unfold GameUltra.vertical_step.
  destruct (Rect.colliderect (GameUltra.rect p) plat) eqn:Ec; [| tauto].
  destruct (Float.ltb 0 (GameUltra.vel_y p)) eqn:E1; simpl.
  - split; [exact Hw |]. intros _. split; [reflexivity |].
    apply stands_on_landing; try assumption.
    exact (proj1 (Forall_forall _ _) Hall plat Hin).
  - destruct (Float.ltb (GameUltra.vel_y p) 0) eqn:E2; simpl; [| tauto].
    split; [exact Hw |]. intro G. destruct (Hg G) as [V _].
    rewrite V in E2. discriminate.
Qed.

Lemma ultra_pass_grounded (all l : list Rect.t) (p : GameUltra.Player) :
  Forall wide all -> incl l all -> wide (GameUltra.rect p) ->
  (GameUltra.on_ground p = true ->
   GameUltra.vel_y p = 0%Q /\ stands_on (GameUltra.rect p) all) ->
  let p' := fold_left GameUltra.vertical_step l p in
  GameUltra.on_ground p' = true ->
  GameUltra.vel_y p' = 0%Q /\ stands_on (GameUltra.rect p') all.
Proof.
  intro Hall. revert p. induction l as [| plat l IH]; intros p Hl Hw Hg.
  - exact Hg.
  - simpl.
    destruct (ultra_step_grounded all p plat Hall
                (Hl plat (or_introl eq_refl)) Hw Hg) as [Hw' Hg'].
    apply IH; try assumption.
    intros q Hq. apply Hl. right. exact Hq.
Qed.

(** The second pass only grounds a player on a platform it has found
    under the player. *)
Lemma ultra_snap_grounded (all l : list Rect.t) (p : GameUltra.Player) :
  incl l all -> GameUltra.on_ground p = false ->
  let p' := GameUltra.snap_to_platform l p in
  GameUltra.vel_y p' = GameUltra.vel_y p
  /\ (GameUltra.on_ground p' = true -> stands_on (GameUltra.rect p') all).
Proof.
  intros Hl Hg. induction l as [| plat l IH]; simpl.
  - split; [reflexivity |]. intro G. congruence.
  - assert (Hl' : incl l all) by (intros q Hq; apply Hl; right; exact Hq).
    destruct ((Rect.right (GameUltra.rect p) >? Rect.left plat)
              && (Rect.left (GameUltra.rect p) <? Rect.right plat)) eqn:Ex;
      [| exact (IH Hl')].
    destruct ((0 <=? Rect.top plat - Rect.bottom (GameUltra.rect p))
              && (Rect.top plat - Rect.bottom (GameUltra.rect p) <=? 3));
      [| exact (IH Hl')].
    simpl. split; [reflexivity |]. intros _.
    exists plat. split; [apply Hl; left; reflexivity |].
    split; [apply bottom_set_bottom |].
    apply andb_true_iff in Ex. destruct Ex as [E1 E2].
    apply Z.gtb_lt in E1. apply Z.ltb_lt in E2.
    unfold Rect.left, Rect.right, Rect.set_bottom, Rect.set_y in *.
    simpl. lia.
Qed.

Lemma ultra_horizontal_keeps_width (dx : Q) (l : list Rect.t) (r : Rect.t) :
  Rect.w (fold_left (GameUltra.horizontal_step dx) l r) = Rect.w r.
Proof.
  apply fold_keeps_width. intros r0 a. unfold GameUltra.horizontal_step.
  destruct (Rect.colliderect r0 a); [| reflexivity].
  destruct (Float.ltb 0 dx); [reflexivity |].
  destruct (Float.ltb dx 0); reflexivity.
Qed.

Lemma ultra_update_grounded (platforms : list Rect.t) (dx : Q)
      (p : GameUltra.Player) :
  Forall wide platforms -> wide (GameUltra.rect p) ->
  let p' := GameUltra.update platforms dx p in
  GameUltra.on_ground p' = true ->
  Float.ltb (Float.abs (GameUltra.vel_y p')) GameUltra.epsilon = true
  /\ stands_on (GameUltra.rect p') platforms.
Proof.
  intros Hall Hw. unfold GameUltra.update, GameUltra.vertical_collisions.
  match goal with
  | |- context [GameUltra.second_pass _ ?q] => set (p1 := q)
  end.
  assert (H1 : GameUltra.on_ground p1 = true ->
               GameUltra.vel_y p1 = 0%Q
               /\ stands_on (GameUltra.rect p1) platforms).
  { apply ultra_pass_grounded.
    - exact Hall.
    - apply incl_refl.
    - unfold wide, GameUltra.apply_gravity. cbn [GameUltra.rect].
      unfold Rect.add_y, Rect.set_y. cbn [Rect.w].
      unfold Rect.add_x, Rect.set_x.
      rewrite ultra_horizontal_keeps_width. exact Hw.
    - cbn [GameUltra.on_ground]. discriminate. }
  clearbody p1. unfold GameUltra.second_pass. cbv zeta.
  destruct (GameUltra.on_ground p1) eqn:G1.
  - simpl. rewrite G1. intros _. destruct (H1 eq_refl) as [V S].
    rewrite V. split; [reflexivity | exact S].
  - simpl.
    destruct (Float.ltb (Float.abs (GameUltra.vel_y p1)) GameUltra.epsilon)
      eqn:Es.
    + destruct (ultra_snap_grounded platforms platforms p1
                  (incl_refl _) G1) as [V S].
      intro G. rewrite V. split; [exact Es | exact (S G)].
    + rewrite G1. discriminate.
Qed.

(** game_final.py resolves against the platforms that collided before the
    loop, and the loop never moves the player sideways. *)
Lemma final_step_grounded (all : list Rect.t) (r0 : Rect.t)
      (p : GameFinal.Player) (plat : Rect.t) :
  Forall wide all -> In plat all -> wide r0 ->
  Rect.colliderect r0 plat = true ->
  Rect.x (GameFinal.rect p) = Rect.x r0
  /\ Rect.w (GameFinal.rect p) = Rect.w r0
  /\ (GameFinal.on_ground p = true ->
      GameFinal.vel_y p = 0%Q /\ stands_on (GameFinal.rect p) all) ->
  let p' := GameFinal.vertical_step p plat in
  Rect.x (GameFinal.rect p') = Rect.x r0
  /\ Rect.w (GameFinal.rect p') = Rect.w r0
  /\ (GameFinal.on_ground p' = true ->
      GameFinal.vel_y p' = 0%Q /\ stands_on (GameFinal.rect p') all).
Proof.
  intros Hall Hin Hw Hc (Hx & Hw' & Hg). unfold GameFinal.vertical_step.
  destruct (Float.ltb 0 (GameFinal.vel_y p)) eqn:E1; simpl.
  - split; [exact Hx |]. split; [exact Hw' |]. intros _.
    split; [reflexivity |].
    exists plat. split; [exact Hin |].
    split; [apply bottom_set_bottom |].
    destruct (colliderect_spans r0 plat Hw
                (proj1 (Forall_forall _ _) Hall plat Hin) Hc) as [S1 S2].
    unfold Rect.left, Rect.right, Rect.set_bottom, Rect.set_y in *.
    simpl. lia.
  - destruct (Float.ltb (GameFinal.vel_y p) 0) eqn:E2; simpl.
    + split; [exact Hx |]. split; [exact Hw' |]. intro G.
      destruct (Hg G) as [V _]. rewrite V in E2. discriminate.
    + split; [exact Hx |]. split; [exact Hw' |]. exact Hg.
Qed.

Lemma final_pass_grounded (all l : list Rect.t) (r0 : Rect.t)
      (p : GameFinal.Player) :
  Forall wide all -> wide r0 ->
  (forall plat, In plat l ->
                In plat all /\ Rect.colliderect r0 plat = true) ->
  Rect.x (GameFinal.rect p) = Rect.x r0
  /\ Rect.w (GameFinal.rect p) = Rect.w r0
  /\ (GameFinal.on_ground p = true ->
      GameFinal.vel_y p = 0%Q /\ stands_on (GameFinal.rect p) all) ->
  let p' := fold_left GameFinal.vertical_step l p in
  GameFinal.on_ground p' = true ->
  GameFinal.vel_y p' = 0%Q /\ stands_on (GameFinal.rect p') all.
Proof.
  intros Hall Hw. revert p. induction l as [| plat l IH]; intros p Hl Hp.
  - exact (proj2 (proj2 Hp)).
  - simpl. apply IH.
    + intros q Hq. apply Hl. right. exact Hq.
    + destruct (Hl plat (or_introl eq_refl)) as [Hin Hc].
      exact (final_step_grounded all r0 p plat Hall Hin Hw Hc Hp).
Qed.

Lemma final_snap_grounded (all l : list Rect.t) (p : GameFinal.Player) :
  incl l all -> GameFinal.on_ground p = false ->
  let p' := GameFinal.snap_to_platform l p in
  GameFinal.vel_y p' = GameFinal.vel_y p
  /\ (GameFinal.on_ground p' = true -> stands_on (GameFinal.rect p') all).
Proof.
  intros Hl Hg. induction l as [| plat l IH]; simpl.
  - split; [reflexivity |]. intro G. congruence.
  - assert (Hl' : incl l all) by (intros q Hq; apply Hl; right; exact Hq).
    destruct ((Rect.right (GameFinal.rect p) >? Rect.left plat)
              && (Rect.left (GameFinal.rect p) <? Rect.right plat)) eqn:Ex;
      [| exact (IH Hl')].
    destruct ((0 <=? Rect.top plat - Rect.bottom (GameFinal.rect p))
              && (Rect.top plat - Rect.bottom (GameFinal.rect p) <=? 3));
      [| exact (IH Hl')].
    simpl. split; [reflexivity |]. intros _.
    exists plat. split; [apply Hl; left; reflexivity |].
    split; [apply bottom_set_bottom |].
    apply andb_true_iff in Ex. destruct Ex as [E1 E2].
    apply Z.gtb_lt in E1. apply Z.ltb_lt in E2.
    unfold Rect.left, Rect.right, Rect.set_bottom, Rect.set_y in *.
    simpl. lia.
Qed.

Lemma final_vertical_grounded (platforms : list GameFinal.Platform)
      (p : GameFinal.Player) :
  Forall wide platforms -> wide (GameFinal.rect p) ->
  let p' := GameFinal.handle_vertical_collisions platforms p in
  GameFinal.on_ground p' = true ->
  Float.ltb (Float.abs (GameFinal.vel_y p')) GameFinal.epsilon = true
  /\ stands_on (GameFinal.rect p') platforms.
Proof.
  intros Hall Hw. unfold GameFinal.handle_vertical_collisions.
  cbv zeta. cbn [GameFinal.rect GameFinal.spritecollide fst].
  match goal with
  | |- context [fold_left GameFinal.vertical_step ?l ?q] =>
      set (p1 := fold_left GameFinal.vertical_step l q);
      assert (H1 : GameFinal.on_ground p1 = true ->
                   GameFinal.vel_y p1 = 0%Q
                   /\ stands_on (GameFinal.rect p1) platforms)
  end.
  { apply final_pass_grounded with (r0 := GameFinal.rect p).
    - exact Hall.
    - exact Hw.
    - intros plat Hin. apply filter_In in Hin. exact Hin.
    - cbn [GameFinal.rect GameFinal.on_ground].
      split; [reflexivity |]. split; [reflexivity |]. discriminate. }
  clearbody p1.
  destruct (GameFinal.on_ground p1) eqn:G1.
  - simpl. rewrite G1. intros _. destruct (H1 eq_refl) as [V S].
    rewrite V. split; [reflexivity | exact S].
  - simpl.
    destruct (Float.ltb (Float.abs (GameFinal.vel_y p1)) GameFinal.epsilon)
      eqn:Es.
    + destruct (final_snap_grounded platforms platforms p1
                  (incl_refl _) G1) as [V S].
      intro G. rewrite V. split; [exact Es | exact (S G)].
    + rewrite G1. discriminate.
Qed.

Lemma final_horizontal_keeps_width (vx : Z) (l : list GameFinal.Platform)
      (r : Rect.t) :
  Rect.w (fold_left (GameFinal.horizontal_step vx) l r) = Rect.w r.
Proof.
  apply fold_keeps_width. intros r0 a. unfold GameFinal.horizontal_step.
  destruct (vx >? 0); [reflexivity |].
  destruct (vx <? 0); reflexivity.
Qed.

(** The enemy loop leaves the player as it is or hurts it. *)
Lemma enemy_loop_player (hits enemies : list GameFinal.Enemy)
      (p : GameFinal.Player) :
  snd (GameFinal.enemy_loop hits enemies p) = p
  \/ snd (GameFinal.enemy_loop hits enemies p) = GameFinal.hurt p.
Proof.
  revert enemies. induction hits as [| e hits IH]; intro enemies; simpl.
  - left. reflexivity.
  - destruct (GameFinal.attacking p).
    + apply IH.
    + right. reflexivity.
Qed.

Lemma collect_coins_player (coins : list GameFinal.Coin)
      (p : GameFinal.Player) :
  let p' := snd (GameFinal.collect_coins coins p) in
  GameFinal.rect p' = GameFinal.rect p
  /\ GameFinal.vel_y p' = GameFinal.vel_y p
  /\ GameFinal.on_ground p' = GameFinal.on_ground p.
Proof.
  unfold GameFinal.collect_coins, GameFinal.spritecollide. cbn [snd].
  match goal with
  | |- context [match ?l with [] => _ | _ :: _ => _ end] => destruct l
  end; repeat split.
Qed.

End GroundedSticking.

(** X4: in game_ultra.py and in game_final.py too, a player whose update
    ends with [on_ground = True] stands on a platform: its bottom is at
    the top of one of the platforms and it overlaps that platform
    horizontally.  Its vertical velocity is then below the threshold
    [1e-3] of the second pass in absolute value.  In game_final.py this
    holds of the whole of [Player.update], coins and enemies included. *)
Theorem X4_grounded_player_stands_on_a_platform_with_second_pass :
  forall (platforms : list Rect.t),
    Forall wide platforms ->
    (forall (dx : Q) (p : GameUltra.Player),
        wide (GameUltra.rect p) ->
        let p' := GameUltra.update platforms dx p in
        GameUltra.on_ground p' = true ->
        Float.ltb (Float.abs (GameUltra.vel_y p')) GameUltra.epsilon = true
        /\ stands_on (GameUltra.rect p') platforms)
    /\ (forall (coins : list GameFinal.Coin)
               (enemies : list GameFinal.Enemy) (p : GameFinal.Player),
           wide (GameFinal.rect p) ->
           let p' := snd (GameFinal.update platforms coins enemies p) in
           GameFinal.on_ground p' = true ->
           Float.ltb (Float.abs (GameFinal.vel_y p')) GameFinal.epsilon
           = true
           /\ stands_on (GameFinal.rect p') platforms).
Proof.
  intros platforms Hall. split.
  - intros dx p Hw. exact (ultra_update_grounded platforms dx p Hall Hw).
  - intros coins enemies p Hw. unfold GameFinal.update. cbv zeta.
    match goal with
    | |- context [GameFinal.handle_vertical_collisions platforms ?q] =>
        pose proof (final_vertical_grounded platforms q Hall) as V;
        set (p1 := GameFinal.handle_vertical_collisions platforms q) in *
    end.
    assert (V' : GameFinal.on_ground p1 = true ->
                 Float.ltb (Float.abs (GameFinal.vel_y p1))
                           GameFinal.epsilon = true
                 /\ stands_on (GameFinal.rect p1) platforms).
    { apply V. unfold wide, GameFinal.set_rect. cbn [GameFinal.rect].
      unfold Rect.add_y, Rect.set_y. cbn [Rect.w].
      unfold GameFinal.handle_horizontal_collisions, GameFinal.set_rect.
      cbn [GameFinal.rect]. rewrite final_horizontal_keeps_width.
      exact Hw. }
    clear V. clearbody p1.
    pose proof (collect_coins_player coins p1) as E2.
    destruct (GameFinal.collect_coins coins p1) as [cs p2].
    cbn [snd] in E2.
    unfold GameFinal.collide_enemies.
    destruct (enemy_loop_player
                (fst (GameFinal.spritecollide GameFinal.enemy_rect
                        (GameFinal.rect p2) enemies false)) enemies p2)
      as [E3 | E3];
      destruct (GameFinal.enemy_loop _ enemies p2) as [es p3];
      cbn [snd] in *; subst p3.
    + unfold GameFinal.update_attack_timer.
      destruct E2 as (Er & Ev & Eg).
      destruct (GameFinal.attacking p2); cbn [snd GameFinal.on_ground
        GameFinal.vel_y GameFinal.rect];
        rewrite Er, Ev, Eg; exact V'.
    + unfold GameFinal.update_attack_timer, GameFinal.hurt.
      cbn [GameFinal.attacking].
      destruct (GameFinal.attacking p2); cbn [snd GameFinal.on_ground];
        discriminate.
Qed.

(** A player of game_ultra.py that the first pass lands, and one of
    game_final.py. *)
Lemma X4_grounded_player_stands_on_a_platform_with_second_pass_witness :
  let platforms := [Rect.mk 0 500 200 20] in
  stands_on
    (GameUltra.rect
       (GameUltra.update platforms 0
          (GameUltra.mkPlayer (Rect.mk 10 438 40 60) 5 false)))
    platforms
  /\ stands_on
       (GameFinal.rect
          (snd (GameFinal.update platforms [] []
                  (GameFinal.mkPlayer (Rect.mk 10 438 40 60) 1 0 5 false
                                      false 0 3 0))))
       platforms.
Proof.
  intro platforms.
  assert (Hall : Forall wide platforms).
  { repeat constructor. unfold wide. simpl. lia. }
  split.
  - refine (proj2 (proj1 (X4_grounded_player_stands_on_a_platform_with_second_pass
                            platforms Hall) 0%Q _ _ _)).
    + unfold wide. simpl. lia.
    + reflexivity.
  - refine (proj2 (proj2 (X4_grounded_player_stands_on_a_platform_with_second_pass
                            platforms Hall) [] [] _ _ _)).
    + unfold wide. simpl. lia.
    + reflexivity.
Defined.


(** ** Hitting a platform from below *)

Section HeadBump.

Lemma full_step_passes (p : GameFull.Player) (plat : Rect.t) :
  (GameFull.vel_y p < 0)%Q -> full_bumps p plat = false ->
  GameFull.vertical_step p plat = p.
Proof.
  intros Hv Hb. unfold GameFull.vertical_step, full_bumps in *.
  destruct (Rect.colliderect _ _); [| reflexivity].
  simpl in Hb. rewrite Hb, andb_false_r.
  assert (Hn : Float.ltb 0%Q (GameFull.vel_y p) = false)
    by (apply ltb_ge, Qlt_le_weak, Hv).
  rewrite Hn. reflexivity.
Qed.

Lemma full_pass_passes (l : list Rect.t) (p : GameFull.Player) :
  (GameFull.vel_y p < 0)%Q ->
  (forall q, In q l -> full_bumps p q = false) ->
  fold_left GameFull.vertical_step l p = p.
Proof.
  induction l as [| plat l IH]; intros Hv H; simpl.
  - reflexivity.
  - rewrite (full_step_passes p plat Hv (H plat (or_introl eq_refl))).
    apply IH; [exact Hv |]. intros q Hq. apply H. right. exact Hq.
Qed.

End HeadBump.

(** X5: a rising player ([vel_y < 0]) that hits a platform from below
    ends the vertical pass with its top at the bottom of the first
    platform, in iteration order, that it hits, with [vel_y = 0] and not
    grounded.  In main.py every overlapped platform is hit; in
    game_full.py only one whose bottom the player's top was under before
    the translation. *)
Theorem X5_rising_player_stops_under_first_platform :
  (forall (pre post : list Rect.t) (P : Rect.t) (p : MainPy.Player),
      (MainPy.vy p < 0)%Q ->
      (forall q, In q pre -> Rect.colliderect (MainPy.rect p) q = false) ->
      Rect.colliderect (MainPy.rect p) P = true ->
      MainPy.vertical_collisions (pre ++ P :: post) p
      = MainPy.mkPlayer (Rect.set_top (MainPy.rect p) (Rect.bottom P))
                        (MainPy.vx p) 0%Q false)
  /\ (forall (pre post : list Rect.t) (P : Rect.t) (p : GameFull.Player),
         (GameFull.vel_y p < 0)%Q ->
         (forall q, In q pre -> full_bumps p q = false) ->
         full_bumps p P = true ->
         GameFull.vertical_collisions (pre ++ P :: post) p
         = GameFull.mkPlayer
             (Rect.set_top (GameFull.rect p) (Rect.bottom P)) 0%Q false).
Proof.
  split.
  - intros pre post P p Hv Hpre HP. unfold MainPy.vertical_collisions.
    rewrite fold_left_app.
    rewrite (main_pass_no_overlap pre (MainPy.mkPlayer _ _ _ false) Hpre).
    simpl. unfold MainPy.vertical_step at 2. simpl. rewrite HP.
    assert (Hn : Float.ltb 0%Q (MainPy.vy p) = false)
      by (apply ltb_ge, Qlt_le_weak, Hv).
    apply ltb_lt in Hv. rewrite Hn, Hv.
    apply main_pass_at_rest. reflexivity.
  - intros pre post P p Hv Hpre HP. unfold GameFull.vertical_collisions.
    rewrite fold_left_app.
    rewrite (full_pass_passes pre (GameFull.mkPlayer _ _ false) Hv Hpre).
    simpl. unfold GameFull.vertical_step at 2. simpl.
    unfold full_bumps in HP. apply andb_true_iff in HP as [Hc Hg].
    rewrite Hc, Hg.
    assert (Hn : Float.ltb 0%Q (GameFull.vel_y p) = false)
      by (apply ltb_ge, Qlt_le_weak, Hv).
    apply ltb_lt in Hv. rewrite Hn, Hv. simpl.
    apply full_pass_at_rest. reflexivity.
Qed.

(** A player of main.py and one of game_full.py, rising at eleven and a
    half into a platform whose bottom is at 420. *)
Lemma X5_rising_player_stops_under_first_platform_witness :
  MainPy.vertical_collisions
    ([Rect.mk 300 400 200 20] ++ Rect.mk 0 400 200 20 :: [])
    (MainPy.mkPlayer (Rect.mk 10 410 40 60) 0 (- (23 # 2)) true)
  = MainPy.mkPlayer (Rect.mk 10 420 40 60) 0 0 false
  /\ GameFull.vertical_collisions
       ([Rect.mk 300 400 200 20] ++ Rect.mk 0 400 200 20 :: [])
       (GameFull.mkPlayer (Rect.mk 10 410 40 60) (- (23 # 2)) false)
     = GameFull.mkPlayer (Rect.mk 10 420 40 60) 0 false.
Proof.
  split.
  - apply (proj1 X5_rising_player_stops_under_first_platform
                 [Rect.mk 300 400 200 20] [] (Rect.mk 0 400 200 20)
                 (MainPy.mkPlayer (Rect.mk 10 410 40 60) 0 (- (23 # 2))
                                  true)).
    + reflexivity.
    + intros q [<- | []]. reflexivity.
    + reflexivity.
  - apply (proj2 X5_rising_player_stops_under_first_platform
                 [Rect.mk 300 400 200 20] [] (Rect.mk 0 400 200 20)
                 (GameFull.mkPlayer (Rect.mk 10 410 40 60) (- (23 # 2))
                                    false)).
    + reflexivity.
    + intros q [<- | []]. reflexivity.
    + reflexivity.
Defined.

(** ** The range of the vertical speed *)

Section Speed.

(** Gravity with its cap, as the three variants write it. *)
Lemma gravity_in_range (v : Q) :
  let v' := if Float.ltb 10 (Float.add v Float.half)
            then 10%Q else Float.add v Float.half in
  (v' <= 10)%Q /\ ((-12 <= v)%Q -> (-12 <= v')%Q).
Proof.
  cbv zeta. destruct (Float.ltb 10 (Float.add v Float.half)) eqn:E.
  - split; [apply Qle_refl |]. intros _. unfold Qle. simpl. lia.
  - apply ltb_ge in E. split; [exact E |]. intro H.
    unfold Float.add. rewrite Qred_correct.
    apply Qle_trans with (-12 + 0)%Q; [unfold Qle; simpl; lia |].
    apply Qplus_le_compat; [exact H | unfold Qle; simpl; lia].
Qed.

Lemma zero_in_range : speed_in_range 0.
Proof. split; unfold Qle; simpl; lia. Qed.

Lemma jump_in_range : speed_in_range (-12).
Proof. split; unfold Qle; simpl; lia. Qed.

Lemma main_pass_speed (l : list Rect.t) (p : MainPy.Player) :
  MainPy.vy (fold_left MainPy.vertical_step l p) = MainPy.vy p
  \/ MainPy.vy (fold_left MainPy.vertical_step l p) = 0%Q.
Proof.
  revert p. induction l as [| plat l IH]; intro p; simpl.
  - left. reflexivity.
  - destruct (IH (MainPy.vertical_step p plat)) as [E | E];
      [| right; exact E].
    rewrite E. unfold MainPy.vertical_step.
    destruct (Rect.colliderect _ _); [| left; reflexivity].
    destruct (Float.ltb 0 (MainPy.vy p)); [right; reflexivity |].
    destruct (Float.ltb (MainPy.vy p) 0); [right | left]; reflexivity.
Qed.

Lemma full_pass_speed (l : list Rect.t) (p : GameFull.Player) :
  GameFull.vel_y (fold_left GameFull.vertical_step l p) = GameFull.vel_y p
  \/ GameFull.vel_y (fold_left GameFull.vertical_step l p) = 0%Q.
Proof.
  revert p. induction l as [| plat l IH]; intro p; simpl.
  - left. reflexivity.
  - destruct (IH (GameFull.vertical_step p plat)) as [E | E];
      [| right; exact E].
    rewrite E. unfold GameFull.vertical_step.
    destruct (Rect.colliderect _ _); [| left; reflexivity].
    match goal with
    | |- context [if ?c then _ else _] => destruct c
    end; [right; reflexivity |].
    match goal with
    | |- context [if ?c then _ else _] => destruct c
    end; [right | left]; reflexivity.
Qed.

Lemma ultra_pass_speed (l : list Rect.t) (p : GameUltra.Player) :
  GameUltra.vel_y (fold_left GameUltra.vertical_step l p)
  = GameUltra.vel_y p
  \/ GameUltra.vel_y (fold_left GameUltra.vertical_step l p) = 0%Q.
Proof.
  revert p. induction l as [| plat l IH]; intro p; simpl.
  - left. reflexivity.
  - destruct (IH (GameUltra.vertical_step p plat)) as [E | E];
      [| right; exact E].
    rewrite E. unfold GameUltra.vertical_step.
    destruct (Rect.colliderect _ _); [| left; reflexivity].
    destruct (Float.ltb 0 (GameUltra.vel_y p)); [right; reflexivity |].
    destruct (Float.ltb (GameUltra.vel_y p) 0); [right | left];
      reflexivity.
Qed.

Lemma ultra_snap_speed (l : list Rect.t) (p : GameUltra.Player) :
  GameUltra.vel_y (GameUltra.snap_to_platform l p) = GameUltra.vel_y p.
Proof.
  induction l as [| plat l IH]; simpl; [reflexivity |].
  destruct (_ && _); [| exact IH].
  destruct (_ && _); [reflexivity | exact IH].
Qed.

Lemma in_range_cases (v v' w : Q) :
  (v' <= 10)%Q /\ ((-12 <= v)%Q -> (-12 <= v')%Q) ->
  w = v' \/ w = 0%Q ->
  (w <= 10)%Q /\ ((-12 <= v)%Q -> (-12 <= w)%Q).
Proof.
  intros [H1 H2] [-> | ->]; [split; assumption |].
  split; [| intros _]; apply zero_in_range.
Qed.

End Speed.

(** X6: in main.py, game_full.py and game_ultra.py the vertical speed
    after a frame (input, then update) is at most [10], whatever it was
    before; and a speed of at least [-12], the speed of a jump, remains at
    least [-12].  The speeds from [-12] to [10] are thus never left. *)
Theorem X6_vertical_speed_stays_in_range :
  forall (keys : Keys) (platforms : list Rect.t),
    (forall (p : MainPy.Player),
        let p' := MainPy.update keys platforms p in
        (MainPy.vy p' <= 10)%Q
        /\ (speed_in_range (MainPy.vy p) -> speed_in_range (MainPy.vy p')))
    /\ (forall (p : GameFull.Player),
           let p' := GameFull.update platforms
                       (snd (GameFull.handle_input keys p)) in
           (GameFull.vel_y p' <= 10)%Q
           /\ (speed_in_range (GameFull.vel_y p) ->
               speed_in_range (GameFull.vel_y p')))
    /\ (forall (p : GameUltra.Player),
           let p' := GameUltra.update platforms
                       (fst (GameUltra.handle_input keys p))
                       (snd (GameUltra.handle_input keys p)) in
           (GameUltra.vel_y p' <= 10)%Q
           /\ (speed_in_range (GameUltra.vel_y p) ->
               speed_in_range (GameUltra.vel_y p'))).
Proof.
  intros keys platforms.
  assert (G : forall v w : Q,
             (speed_in_range v -> (-12 <= w)%Q) ->
             (let v' := if Float.ltb 10 (Float.add w Float.half)
                        then 10%Q else Float.add w Float.half in
              forall u, u = v' \/ u = 0%Q ->
                        (u <= 10)%Q
                        /\ (speed_in_range v -> speed_in_range u))).
  { intros v w Hw v' u Hu.
    destruct (in_range_cases w v' u (gravity_in_range w) Hu) as [U1 U2].
    split; [exact U1 |]. intro Hv. split; [apply U2, Hw, Hv | exact U1]. }
  split; [| split]; intro p.
  - unfold MainPy.update, MainPy.vertical_collisions. cbv zeta.
    match goal with
    | |- context [fold_left MainPy.vertical_step ?l ?q] =>
        pose proof (main_pass_speed l q) as S;
        set (p' := fold_left MainPy.vertical_step l q) in *
    end.
    cbn [MainPy.vy] in S. unfold MainPy.apply_gravity in S.
    refine (G (MainPy.vy p) _ _ _ S). intros [H _].
    destruct (K_SPACE keys && MainPy.on_ground p);
      [apply jump_in_range | exact H].
  - unfold GameFull.update, GameFull.vertical_collisions. cbv zeta.
    match goal with
    | |- context [fold_left GameFull.vertical_step ?l ?q] =>
        pose proof (full_pass_speed l q) as S;
        set (p' := fold_left GameFull.vertical_step l q) in *
    end.
    cbn [GameFull.vel_y] in S. unfold GameFull.apply_gravity in S.
    refine (G (GameFull.vel_y p) _ _ _ S). intros [H _].
    unfold GameFull.handle_input.
    destruct ((K_SPACE keys || K_w keys || K_UP keys)
              && GameFull.on_ground p); cbn [snd GameFull.vel_y];
      [apply jump_in_range | exact H].
  - unfold GameUltra.update, GameUltra.vertical_collisions,
      GameUltra.second_pass. cbv zeta.
    match goal with
    | |- context [fold_left GameUltra.vertical_step ?l ?q] =>
        pose proof (ultra_pass_speed l q) as S;
        set (p' := fold_left GameUltra.vertical_step l q) in *
    end.
    cbn [GameUltra.vel_y GameUltra.apply_gravity] in S.
    clearbody p'.
    assert (S' : forall p'' : GameUltra.Player,
               GameUltra.vel_y p'' = GameUltra.vel_y p' ->
               (GameUltra.vel_y p'' <= 10)%Q
               /\ (speed_in_range (GameUltra.vel_y p) ->
                   speed_in_range (GameUltra.vel_y p''))).
    { intros p'' E. rewrite E.
      refine (G (GameUltra.vel_y p) _ _ _ S). intros [H _].
      unfold GameUltra.handle_input.
      destruct ((K_SPACE keys || K_UP keys || K_w keys)
                && GameUltra.on_ground p); cbn [snd GameUltra.vel_y];
        [apply jump_in_range | exact H]. }
    destruct (negb (GameUltra.on_ground p')
              && Float.ltb (Float.abs (GameUltra.vel_y p'))
                           GameUltra.epsilon).
    + apply S', ultra_snap_speed.
    + apply S'. reflexivity.
Qed.

(** A jump of game_full.py from a platform. *)
Lemma X6_vertical_speed_stays_in_range_witness :
  speed_in_range
    (GameFull.vel_y
       (GameFull.update [Rect.mk 0 500 200 20]
          (snd (GameFull.handle_input
                  (mkKeys false false false true false false false false)
                  (GameFull.mkPlayer (Rect.mk 10 440 40 60) 0 true))))).
Proof.
  apply (proj1 (proj2 (X6_vertical_speed_stays_in_range
                         (mkKeys false false false true false false false
                                 false)
                         [Rect.mk 0 500 200 20]))
               (GameFull.mkPlayer (Rect.mk 10 440 40 60) 0 true)).
  split; unfold Qle; simpl; lia.
Defined.


(** ** game_full.py: the loop of [main] *)

Section FullLoop.

Lemma full_step_keeps_x (p : GameFull.Player) (plat : Rect.t) :
  Rect.x (GameFull.rect (GameFull.vertical_step p plat))
  = Rect.x (GameFull.rect p)
  /\ Rect.w (GameFull.rect (GameFull.vertical_step p plat))
     = Rect.w (GameFull.rect p).
Proof.
  unfold GameFull.vertical_step.
  destruct (Rect.colliderect _ _); [| split; reflexivity].
  match goal with
  | |- context [if ?c then _ else _] => destruct c
  end; [split; reflexivity |].
  match goal with
  | |- context [if ?c then _ else _] => destruct c
  end; split; reflexivity.
Qed.

Lemma full_update_keeps_x (platforms : list Rect.t) (p : GameFull.Player) :
  Rect.x (GameFull.rect (GameFull.update platforms p))
  = Rect.x (GameFull.rect p)
  /\ Rect.w (GameFull.rect (GameFull.update platforms p))
     = Rect.w (GameFull.rect p).
Proof.
  unfold GameFull.update, GameFull.vertical_collisions.
  match goal with
  | |- context [fold_left GameFull.vertical_step platforms ?q] =>
      assert (H : forall l q0,
                 Rect.x (GameFull.rect
                           (fold_left GameFull.vertical_step l q0))
                 = Rect.x (GameFull.rect q0)
                 /\ Rect.w (GameFull.rect
                              (fold_left GameFull.vertical_step l q0))
                    = Rect.w (GameFull.rect q0));
      [| destruct (H platforms q) as [Hx Hw]; rewrite Hx, Hw;
         split; reflexivity]
  end.
  induction l as [| plat l IH]; intro q0; simpl; [split; reflexivity |].
  destruct (IH (GameFull.vertical_step q0 plat)) as [Hx Hw].
  destruct (full_step_keeps_x q0 plat) as [Sx Sw].
  split; congruence.
Qed.

Lemma full_handle_input_rect (keys : Keys) (p : GameFull.Player) :
  GameFull.rect (snd (GameFull.handle_input keys p)) = GameFull.rect p.
Proof.
  unfold GameFull.handle_input.
  destruct (_ && _); reflexivity.
Qed.

(** The horizontal move of the loop and its two clamps. *)
Lemma full_moved_in_world (L : Z) (r : Rect.t) (dx : Q) :
  Rect.w r <= L ->
  let r1 := Rect.add_x r dx in
  let r2 := if Rect.x r1 <? 0 then Rect.set_x r1 0 else r1 in
  let r3 := if Rect.x r2 >? L - Rect.w r2
            then Rect.set_x r2 (L - Rect.w r2) else r2 in
  Rect.w r3 = Rect.w r /\ 0 <= Rect.x r3 /\ Rect.x r3 + Rect.w r3 <= L.
Proof.
  intros H r1 r2 r3.
  assert (W1 : Rect.w r1 = Rect.w r) by reflexivity.
  assert (W2 : Rect.w r2 = Rect.w r)
    by (unfold r2; destruct (Rect.x r1 <? 0); exact W1).
  assert (X2 : 0 <= Rect.x r2).
  { unfold r2. destruct (Rect.x r1 <? 0) eqn:E; simpl; [lia |].
    apply Z.ltb_ge in E. exact E. }
  unfold r3. destruct (Rect.x r2 >? L - Rect.w r2) eqn:E; simpl.
  - lia.
  - rewrite Z.gtb_ltb in E. apply Z.ltb_ge in E. lia.
Qed.

Lemma full_enemy_collision_cases (enemies : list GameFull.Enemy) (lives : Z)
      (p : GameFull.Player) :
  GameFull.enemy_collision enemies lives p = (lives, p)
  \/ GameFull.enemy_collision enemies lives p
     = (lives - 1,
        GameFull.reset_position 100 (GameFull.screen_height - 200) p).
Proof.
  induction enemies as [| e enemies IH]; simpl.
  - left. reflexivity.
  - destruct (Rect.colliderect _ _); [right; reflexivity | exact IH].
Qed.

End FullLoop.

(** The case analysis of an active frame of game_full.py: the level is
    kept, the last level is completed, or the next level is loaded. *)
Ltac full_simulate_cases :=
  unfold GameFull.simulate;
  let dx := fresh "dx" in
  let p := fresh "p" in
  let Ein := fresh "Ein" in
  destruct (GameFull.handle_input _ _) as [dx p] eqn:Ein;
  match goal with
  | |- context [GameFull.update ?pl ?q] =>
      let p1 := fresh "p1" in
      let Ep1 := fresh "Ep1" in
      remember (GameFull.update pl q) as p1 eqn:Ep1
  end;
  let coins1 := fresh "coins1" in
  let score1 := fresh "score1" in
  let Ecol := fresh "Ecol" in
  destruct (GameFull.collect_coins _ _ _) as [[coins1 score1] |] eqn:Ecol;
  [| discriminate];
  let lives1 := fresh "lives1" in
  let p2 := fresh "p2" in
  let Een := fresh "Een" in
  destruct (GameFull.enemy_collision _ _ _) as [lives1 p2] eqn:Een;
  let Hlev := fresh "Hlev" in
  let Eload := fresh "Eload" in
  let E := fresh "E" in
  destruct coins1 as [| ? ?];
  [ match goal with
    | |- context [?x >=? ?y] => destruct (Z.geb_spec x y) as [Hlev | Hlev]
    end;
    [| destruct (GameFull.load_level _ _ _) as [[[[? ?] ?] ?] |] eqn:Eload;
       [| discriminate]]
  | ];
  cbn [option_map]; intro E; injection E as <-.

(** X7: in game_full.py the player never leaves the level sideways:
    after every frame the left edge of the player is at [0] or more and
    the right edge at the length of the level or less, provided the start
    position leaves room for the player in every level.  The levels that
    [main] generates leave room for a player up to 1300 wide. *)
Theorem X7_full_player_stays_in_the_level :
  (forall (a : Assets) (g0 : GameFull.Game),
      player_w a <= 1300 ->
      GameFullMain.initial a = Some g0 ->
      full_fits g0 /\ full_in_world g0)
  /\ (forall (a : Assets) (inputs : list Keys) (g g' : GameFull.Game),
         full_fits g -> full_in_world g ->
         GameFullMain.run a inputs g = Some g' ->
         full_fits g' /\ full_in_world g').
Proof.
  split.
  - intros a g0 Hw. unfold GameFullMain.initial.
    destruct (GameFull.load_level _ _ 0) as [[[[pl co] en] len] |] eqn:El;
      [| discriminate].
    intro E. injection E as <-.
    unfold GameFull.load_level in El.
    destruct (getitem _ 0) as [data |] eqn:Ed; [| discriminate].
    injection El as _ _ _ <-.
    assert (Hall : forall d,
               In d (GameFull.generate_levels 30 GameFull.screen_height a)
               -> 1400 <= GameFull.data_length d).
    { intros d Hd. rewrite full_generate_levels_map in Hd.
      apply in_map_iff in Hd. destruct Hd as [i [<- Hi]].
      apply range_In in Hi. rewrite full_level_length. lia. }
    unfold full_fits, full_in_world, Rect.left, Rect.right.
    cbn [GameFull.player GameFull.rect GameFull.level_length
         GameFull.levels Rect.x Rect.w].
    pose proof (Hall data (getitem_In _ _ _ Ed)) as Hd.
    split; [split; [lia |] | lia].
    apply Forall_forall. intros d Hin. specialize (Hall d Hin). lia.
  - intros a inputs. induction inputs as [| keys inputs IH];
      intros g g' Hf Hin; simpl.
    + intro E. injection E as <-. split; assumption.
    + destruct (GameFull.frame a keys g) as [g1 |] eqn:Ef; [| discriminate].
      assert (H1 : full_fits g1 /\ full_in_world g1);
        [| destruct H1; apply IH; assumption].
      clear IH. revert Ef. unfold GameFull.frame.
      destruct (negb (GameFull.game_over g)
                && negb (GameFull.game_completed g));
        [| intro E; injection E as <-; split; assumption].
      destruct Hf as [HL Hall].
      full_simulate_cases.
      all: pose proof (full_handle_input_rect keys (GameFull.player g)) as Hr;
        rewrite Ein in Hr; cbn [snd] in Hr.
      all: pose proof (full_moved_in_world (GameFull.level_length g)
                         (GameFull.rect p) dx) as Hm;
        cbv zeta in Hm; rewrite Hr in Hm;
        specialize (Hm ltac:(lia)); destruct Hm as (Mw & Mx & Mr).
      all: match type of Ep1 with
           | _ = GameFull.update ?pl ?q =>
               destruct (full_update_keeps_x pl q) as [Ux Uw];
               rewrite <- Ep1 in Ux, Uw; cbn [GameFull.rect] in Ux, Uw;
               rewrite Hr in Ux, Uw
           end.
      all: destruct (full_enemy_collision_cases
                       (map GameFull.enemy_update (GameFull.enemies g))
                       (GameFull.lives g) p1) as [C | C];
        rewrite C in Een; injection Een as <- <-.
      all: unfold full_fits, full_in_world, Rect.left, Rect.right.
      all: cbn [GameFull.player GameFull.level_length GameFull.levels].
      all: try (unfold GameFull.load_level in Eload;
                destruct (getitem _ _) as [data |] eqn:Ed; [| discriminate];
                injection Eload as <- <- <- <-;
                pose proof (proj1 (Forall_forall _ _) Hall data
                                  (getitem_In _ _ _ Ed)) as Hd;
                cbv beta in Hd).
      all: try match goal with
               | |- context [Rect.y ?r >? ?k] => destruct (Rect.y r >? k)
               end;
        unfold GameFull.reset_position, Rect.set_x, Rect.set_y;
        cbn [GameFull.rect Rect.x Rect.w];
        (split; [split; [lia |] | lia]);
        (eapply Forall_impl; [| exact Hall]);
        cbv beta; intros d Hd'; lia.
Qed.


(** The start of game_full.py and two frames with the right arrow
    down. *)
Lemma X7_full_player_stays_in_the_level_witness :
  match GameFullMain.initial sample_assets with
  | Some g0 =>
      match GameFullMain.run sample_assets [key_right; key_right] g0 with
      | Some g' => full_in_world g'
      | None => False
      end
  | None => False
  end.
Proof.
  destruct (GameFullMain.initial sample_assets) as [g0 |] eqn:E0;
    [| vm_compute in E0; discriminate].
  destruct (proj1 X7_full_player_stays_in_the_level sample_assets g0
                  ltac:(simpl; lia) E0) as [F W].
  destruct (GameFullMain.run sample_assets [key_right; key_right] g0)
    as [g' |] eqn:E1.
  - exact (proj2 (proj2 X7_full_player_stays_in_the_level sample_assets
                        [key_right; key_right] g0 g' F W E1)).
  - vm_compute in E0. injection E0 as <-. vm_compute in E1. discriminate.
Defined.

(** X8: a frame of game_full.py never gives a life back and takes two
    at most (an enemy, then a fall); a game that is over stays over; and
    the game is over exactly when no life is left, a relation every frame
    keeps. *)
Theorem X8_full_game_is_over_when_lives_run_out :
  forall (a : Assets) (keys : Keys) (g g' : GameFull.Game),
    GameFull.frame a keys g = Some g' ->
    GameFull.lives g - 2 <= GameFull.lives g' <= GameFull.lives g
    /\ (GameFull.game_over g = true -> GameFull.game_over g' = true)
    /\ ((GameFull.game_over g = true <-> GameFull.lives g <= 0) ->
        (GameFull.game_over g' = true <-> GameFull.lives g' <= 0)).
Proof.
  intros a keys g g'. unfold GameFull.frame.
  destruct (GameFull.game_over g) eqn:Eo;
    [intro E; injection E as <-; rewrite Eo; repeat split; tauto || lia |].
  destruct (GameFull.game_completed g) eqn:Ec;
    [intro E; injection E as <-; rewrite Eo; repeat split; tauto || lia |].
  cbn [negb andb].
  full_simulate_cases.
  all: destruct (full_enemy_collision_cases
                   (map GameFull.enemy_update (GameFull.enemies g))
                   (GameFull.lives g) p1) as [C | C];
    rewrite C in Een; injection Een as <- <-.
  all: cbn [GameFull.lives GameFull.game_over]; rewrite ?Eo.
  all: try match goal with
           | |- context [Rect.y ?r >? ?k] => destruct (Rect.y r >? k)
           end.
  all: cbn [andb].
  all: repeat match goal with
              | |- context [?x <=? 0] => destruct (Z.leb_spec x 0)
              end.
  all: split; [lia |]; split; [congruence |];
    intros [A1 A2]; split; intro A3; try lia; try congruence; try reflexivity.
Qed.

(** The start of game_full.py and one frame. *)
Lemma X8_full_game_is_over_when_lives_run_out_witness :
  match GameFullMain.initial sample_assets with
  | Some g0 =>
      match GameFull.frame sample_assets key_right g0 with
      | Some g' => GameFull.lives g' <= 3
      | None => False
      end
  | None => False
  end.
Proof.
  destruct (GameFullMain.initial sample_assets) as [g0 |] eqn:E0;
    [| vm_compute in E0; discriminate].
  destruct (GameFull.frame sample_assets key_right g0) as [g' |] eqn:E1.
  - pose proof (proj1 (X8_full_game_is_over_when_lives_run_out
                         sample_assets key_right g0 g' E1)) as H.
    vm_compute in E0. injection E0 as <-.
    cbn [GameFull.lives] in H. lia.
  - vm_compute in E0. injection E0 as <-. vm_compute in E1. discriminate.
Defined.


(** ** game_full.py: the levels *)

Section FullLevels.

(** The loop over [j] in closed form. *)
Lemma full_place_platforms_closed (a : Assets) (base_y step_x : Z)
      (l : list Z) (acc : GameFull.LevelData) :
  fold_left (GameFull.place_platform a base_y step_x) l acc
  = GameFull.mkLevelData
      (GameFull.data_platforms acc
         ++ map (fun j => (100 + j * step_x, base_y + - (j mod 5 * 40))) l)
      (GameFull.data_coins acc
         ++ map (fun j => (100 + j * step_x
                           + (platform_w a - coin_w a) / 2,
                           base_y + - (j mod 5 * 40) - coin_h a - 10))
                (filter (fun j => j mod 2 =? 0) l))
      (GameFull.data_enemies acc
         ++ map (fun j => (100 + j * step_x
                           + (platform_w a - enemy_w a) / 2,
                           base_y + - (j mod 5 * 40),
                           100 + j * step_x,
                           100 + j * step_x + platform_w a - enemy_w a))
                (filter (fun j => j mod 3 =? 1) l))
      (GameFull.data_length acc).
Proof.
  revert acc. induction l as [| j l IH]; intro acc.
  - simpl. rewrite !app_nil_r. destruct acc; reflexivity.
  - cbn [fold_left]. rewrite IH. unfold GameFull.place_platform.
    cbn [GameFull.data_platforms GameFull.data_coins GameFull.data_enemies
         GameFull.data_length map filter].
    destruct (j mod 2 =? 0); destruct (j mod 3 =? 1);
      cbn [map]; rewrite <- ?app_assoc; reflexivity.
Qed.

Lemma make_coins_In (a : Assets) (l : list (Z * Z)) (k : nat) (x y : Z) :
  In (x, y) l ->
  exists c, In c (GameFull.make_coins a k l)
            /\ GameFull.coin_rect c = Rect.mk x y (coin_w a) (coin_h a).
Proof.
  revert k. induction l as [| [x' y'] l IH]; intros k Hin; [destruct Hin |].
  destruct Hin as [E | Hin].
  - injection E as -> ->. eexists. split; [left; reflexivity | reflexivity].
  - destruct (IH (S k) Hin) as [c [Hc Er]].
    exists c. split; [right; exact Hc | exact Er].
Qed.

Lemma full_generate_levels_length (n sh : Z) (a : Assets) :
  List.length (GameFull.generate_levels n sh a) = Z.to_nat n.
Proof.
  rewrite full_generate_levels_map, length_map. apply range_length.
Qed.

Lemma full_level_at (n sh : Z) (a : Assets) (i : Z) :
  0 <= i < n ->
  getitem (GameFull.generate_levels n sh a) i
  = Some (GameFull.generate_level sh a i).
Proof.
  intro H. rewrite <- (Z2Nat.id i) at 1 by lia. apply getitem_nth.
  rewrite full_generate_levels_nth by lia. rewrite Z2Nat.id by lia.
  reflexivity.
Qed.

End FullLevels.

(** X9: the levels of game_full.py in closed form.  Level [i] is
    [1400 + 300 * i] long and has [8 + i // 2] platforms, the [j]-th at
    the abscissa [100 + j * step], where [step] is at least 220, and
    [(j % 5) * 40] above the base line; the platforms of even rank carry a
    coin each and those of rank [1] modulo [3] an enemy each, whose patrol
    is the platform less the width of the enemy. *)
Theorem X9_full_levels_in_closed_form :
  forall (sh : Z) (a : Assets) (i : Z),
    let n := 8 + i / 2 in
    let step := Z.max 220 ((1400 + 300 * i - 200) / n) in
    let base_y := sh - platform_h a - 40 in
    let x := fun j => 100 + j * step in
    let y := fun j => base_y - (j mod 5) * 40 in
    GameFull.generate_level sh a i
    = GameFull.mkLevelData
        (map (fun j => (x j, y j)) (range n))
        (map (fun j => (x j + (platform_w a - coin_w a) / 2,
                        y j - coin_h a - 10))
             (filter (fun j => j mod 2 =? 0) (range n)))
        (map (fun j => (x j + (platform_w a - enemy_w a) / 2, y j,
                        x j, x j + platform_w a - enemy_w a))
             (filter (fun j => j mod 3 =? 1) (range n)))
        (1400 + 300 * i).
Proof.
  intros sh a i n step base_y x y. unfold GameFull.generate_level.
  rewrite full_place_platforms_closed.
  cbn [GameFull.data_platforms GameFull.data_coins GameFull.data_enemies
       GameFull.data_length app].
  fold n. fold step. fold base_y.
  f_equal; apply map_ext; intro j; unfold x, y;
    repeat f_equal; lia.
Qed.


(** ** game_full.py: from level to level *)

(** X10: an active frame of game_full.py either keeps the level, and
    then a coin is left, the coins left are coins of before and the score
    has grown by the number of coins gone; or it ends the level, and then
    every coin has been scored and the rank of the level has grown by one:
    after the last level the game is completed, and otherwise the next
    level is loaded and the player put back at the start, at rest. *)
Theorem X10_full_level_ends_with_its_last_coin :
  forall (a : Assets) (keys : Keys) (g g' : GameFull.Game),
    NoDup (ids (GameFull.coins g)) ->
    GameFull.game_over g = false ->
    GameFull.game_completed g = false ->
    GameFull.frame a keys g = Some g' ->
    (GameFull.coins g' <> []
     /\ incl (GameFull.coins g') (GameFull.coins g)
     /\ GameFull.score g'
        = GameFull.score g
          + Z.of_nat (List.length (GameFull.coins g))
          - Z.of_nat (List.length (GameFull.coins g'))
     /\ GameFull.current_level g' = GameFull.current_level g
     /\ GameFull.game_completed g' = false
     /\ GameFull.platforms g' = GameFull.platforms g
     /\ GameFull.level_length g' = GameFull.level_length g)
    \/ (GameFull.score g'
        = GameFull.score g + Z.of_nat (List.length (GameFull.coins g))
        /\ GameFull.current_level g' = GameFull.current_level g + 1
        /\ ((Z.of_nat (List.length (GameFull.levels g))
             <= GameFull.current_level g'
             /\ GameFull.game_completed g' = true
             /\ GameFull.coins g' = [])
            \/ (GameFull.current_level g'
                < Z.of_nat (List.length (GameFull.levels g))
                /\ GameFull.game_completed g' = false
                /\ GameFull.load_level a (GameFull.levels g)
                                       (GameFull.current_level g')
                   = Some (GameFull.platforms g', GameFull.coins g',
                           GameFull.enemies g', GameFull.level_length g')
                /\ full_at_start (GameFull.player g')))).
Proof.
  intros a keys g g' Hnd Eo Ec. unfold GameFull.frame.
  rewrite Eo, Ec. cbn [negb andb].
  full_simulate_cases.
  all: rewrite (full_collect_coins_filter _ _ _ Hnd) in Ecol;
    injection Ecol as Eleft Escore;
    pose proof (filter_split_length (touches (GameFull.rect p1))
                  (GameFull.coins g)) as Hlen;
    rewrite Eleft in Hlen; cbn [List.length] in Hlen.
  - right.
    cbn [GameFull.score GameFull.current_level GameFull.game_completed
         GameFull.coins GameFull.levels].
    split; [lia |]. split; [reflexivity |]. left.
    split; [lia |]. split; reflexivity.
  - right.
    cbn [GameFull.score GameFull.current_level GameFull.game_completed
         GameFull.coins GameFull.levels GameFull.platforms
         GameFull.enemies GameFull.level_length GameFull.player].
    split; [lia |]. split; [reflexivity |]. right.
    split; [lia |]. split; [exact Ec |]. split; [exact Eload |].
    repeat split.
  - left.
    cbn [GameFull.score GameFull.current_level GameFull.game_completed
         GameFull.coins GameFull.levels GameFull.platforms
         GameFull.level_length].
    split; [discriminate |].
    split.
    { intros c Hc. rewrite <- Eleft in Hc. apply filter_In in Hc.
      exact (proj1 Hc). }
    split; [cbn [List.length]; lia |].
    split; [reflexivity |]. split; [exact Ec |]. split; reflexivity.
Qed.

(** The start of game_full.py and one frame: the level is kept. *)
Lemma X10_full_level_ends_with_its_last_coin_witness :
  match GameFullMain.initial sample_assets with
  | Some g0 =>
      match GameFull.frame sample_assets key_right g0 with
      | Some g' =>
          GameFull.current_level g' = 0
          \/ GameFull.current_level g' = 1
      | None => False
      end
  | None => False
  end.
Proof.
  destruct (GameFullMain.initial sample_assets) as [g0 |] eqn:E0;
    [| vm_compute in E0; discriminate].
  vm_compute in E0. injection E0 as <-.
  match goal with
  | |- context [GameFull.frame sample_assets key_right ?g] =>
      set (g0 := g);
      destruct (GameFull.frame sample_assets key_right g0) as [g' |] eqn:E1;
      [| vm_compute in E1; discriminate];
      destruct (X10_full_level_ends_with_its_last_coin
                  sample_assets key_right g0 g') as [H | H]
  end.
  - repeat constructor; simpl; intuition discriminate.
  - reflexivity.
  - reflexivity.
  - exact E1.
  - left. exact (proj1 (proj2 (proj2 (proj2 H)))).
  - right. exact (proj1 (proj2 H)).
Defined.


(** ** game_full.py: what the loop never does *)

Section FullNever.

Lemma full_frame_sound (a : Assets) (keys : Keys) (g g' : GameFull.Game) :
  full_sound g -> GameFull.frame a keys g = Some g' -> full_sound g'.
Proof.
  intros [Hnd Hl]. unfold GameFull.frame.
  destruct (negb (GameFull.game_over g) && negb (GameFull.game_completed g));
    [| intro E; injection E as <-; split; assumption].
  full_simulate_cases.
  all: rewrite (full_collect_coins_filter _ _ _ Hnd) in Ecol;
    injection Ecol as Eleft Escore.
  all: unfold full_sound;
    cbn [GameFull.coins GameFull.current_level].
  - split; [constructor | lia].
  - split; [| lia].
    exact (full_loaded_coins_distinct _ _ _ _ _ _ _ Eload).
  - split; [| lia]. rewrite <- Eleft. apply filter_ids_NoDup, Hnd.
Qed.

Lemma full_run_total (a : Assets) (inputs : list Keys) (g : GameFull.Game) :
  full_sound g ->
  exists g', GameFullMain.run a inputs g = Some g' /\ full_sound g'.
Proof.
  revert g. induction inputs as [| keys inputs IH]; intros g Hs; simpl.
  - exists g. split; [reflexivity | exact Hs].
  - destruct (full_frame_total a keys g (proj1 Hs) (proj2 Hs)) as [g1 E1].
    rewrite E1. apply IH. exact (full_frame_sound a keys g g1 Hs E1).
Qed.

Lemma full_initial (a : Assets) :
  exists g0,
    GameFullMain.initial a = Some g0
    /\ GameFull.levels g0
       = GameFull.generate_levels 30 GameFull.screen_height a
    /\ GameFull.current_level g0 = 0
    /\ GameFull.game_completed g0 = false
    /\ GameFull.level_length g0 = 1400
    /\ GameFull.coins g0
       = GameFull.make_coins a 0
           (GameFull.data_coins
              (GameFull.generate_level GameFull.screen_height a 0))
    /\ Rect.w (GameFull.rect (GameFull.player g0)) = player_w a.
Proof.
  unfold GameFullMain.initial, GameFull.load_level.
  rewrite (full_level_at 30 GameFull.screen_height a 0) by lia.
  eexists. split; [reflexivity |].
  cbn [GameFull.levels GameFull.current_level GameFull.game_completed
       GameFull.level_length GameFull.coins GameFull.player GameFull.rect
       Rect.w].
  rewrite full_level_length. repeat split.
Qed.

(** The coin of the seventh platform of the first level. *)
Lemma full_first_level_far_coin (sh : Z) (a : Assets) :
  exists y,
    In (1420 + (platform_w a - coin_w a) / 2, y)
       (GameFull.data_coins (GameFull.generate_level sh a 0)).
Proof.
  unfold GameFull.generate_level. rewrite full_place_platforms_closed.
  cbn [GameFull.data_coins app].
  change (8 + 0 / 2) with 8.
  change (Z.max 220 ((1400 + 300 * 0 - 200) / 8)) with 220.
  eexists. apply in_map_iff. exists 6. split.
  - f_equal.
  - apply filter_In. split; [apply range_In; lia | reflexivity].
Qed.

(** The right edge of the player after the horizontal move of the loop
    and its clamps. *)
Lemma full_moved_right_edge (L : Z) (r : Rect.t) (dx : Q) :
  let r1 := Rect.add_x r dx in
  let r2 := if Rect.x r1 <? 0 then Rect.set_x r1 0 else r1 in
  let r3 := if Rect.x r2 >? L - Rect.w r2
            then Rect.set_x r2 (L - Rect.w r2) else r2 in
  Rect.w r3 = Rect.w r /\ Rect.x r3 + Rect.w r3 <= L.
Proof.
  intros r1 r2 r3.
  assert (W2 : Rect.w r2 = Rect.w r)
    by (unfold r2; destruct (Rect.x r1 <? 0); reflexivity).
  unfold r3. destruct (Rect.x r2 >? L - Rect.w r2) eqn:E; simpl.
  - lia.
  - rewrite Z.gtb_ltb in E. apply Z.ltb_ge in E. lia.
Qed.

Lemma full_frame_stuck (a : Assets) (keys : Keys) (g g' : GameFull.Game) :
  full_stuck g -> GameFull.frame a keys g = Some g' ->
  full_stuck g' /\ GameFull.current_level g' = GameFull.current_level g.
Proof.
  intros Hs. pose proof Hs as (Hnd & Hw & Ec & c & Hc & Hx & Hcw).
  unfold GameFull.frame.
  destruct (negb (GameFull.game_over g) && negb (GameFull.game_completed g));
    [| intro E; injection E as <-; split; [exact Hs | reflexivity]].
  full_simulate_cases.
  all: rewrite (full_collect_coins_filter _ _ _ Hnd) in Ecol;
    injection Ecol as Eleft Escore.
  all: pose proof (full_handle_input_rect keys (GameFull.player g)) as Hr;
    rewrite Ein in Hr; cbn [snd] in Hr.
  all: pose proof (full_moved_right_edge (GameFull.level_length g)
                     (GameFull.rect p) dx) as Hm;
    cbv zeta in Hm; rewrite Hr in Hm; destruct Hm as (Mw & Mr).
  all: match type of Ep1 with
       | _ = GameFull.update ?pl ?q =>
           destruct (full_update_keeps_x pl q) as [Ux Uw];
           rewrite <- Ep1 in Ux, Uw; cbn [GameFull.rect] in Ux, Uw;
           rewrite Hr in Ux, Uw
       end.
  all: assert (Ht : touches (GameFull.rect p1) c = false)
    by (unfold touches, Rect.colliderect;
        destruct (_ || _); [reflexivity |];
        assert ((Z.max (Rect.x (GameFull.rect p1))
                       (Rect.x (GameFull.rect p1)
                        + Rect.w (GameFull.rect p1))
                 >? Z.min (Rect.x (GameFull.coin_rect c))
                          (Rect.x (GameFull.coin_rect c)
                           + Rect.w (GameFull.coin_rect c))) = false)
          as -> by (rewrite Z.gtb_ltb; apply Z.ltb_ge; lia);
        rewrite andb_false_r; reflexivity).
  all: assert (Hleft : In c (filter (fun c0 => negb (touches
                                                     (GameFull.rect p1) c0))
                                    (GameFull.coins g)))
    by (apply filter_In; split; [exact Hc | rewrite Ht; reflexivity]).
  all: rewrite Eleft in Hleft; try (destruct Hleft; fail).
  split; [| reflexivity].
  unfold full_stuck.
  cbn [GameFull.coins GameFull.player GameFull.game_completed
       GameFull.level_length].
  split; [rewrite <- Eleft; apply filter_ids_NoDup, Hnd |].
  split.
  { destruct (full_enemy_collision_cases
                (map GameFull.enemy_update (GameFull.enemies g))
                (GameFull.lives g) p1) as [C | C];
      rewrite C in Een; injection Een as <- <-;
      try match goal with
          | |- context [Rect.y ?r >? ?k] => destruct (Rect.y r >? k)
          end;
      unfold GameFull.reset_position, Rect.set_x, Rect.set_y;
      cbn [GameFull.rect Rect.w]; lia. }
  split; [exact Ec |].
  exists c. split; [exact Hleft |]. split; assumption.
Qed.

Lemma full_run_stuck (a : Assets) (inputs : list Keys)
      (g g' : GameFull.Game) :
  full_stuck g -> GameFullMain.run a inputs g = Some g' ->
  full_stuck g' /\ GameFull.current_level g' = GameFull.current_level g.
Proof.
  revert g. induction inputs as [| keys inputs IH]; intros g Hs; simpl.
  - intro E. injection E as <-. split; [exact Hs | reflexivity].
  - destruct (GameFull.frame a keys g) as [g1 |] eqn:E1; [| discriminate].
    destruct (full_frame_stuck a keys g g1 Hs E1) as [Hs1 El1].
    intro E. destruct (IH g1 Hs1 E) as [Hs' El']. split; [exact Hs' |].
    congruence.
Qed.

End FullNever.

(** X11: game_full.py cannot be played past its first level.  The level
    is 1400 long and the player is kept within it, but its platforms are
    220 apart, so that the seventh stands at 1420 with a coin above it;
    unless the coin image is more than 40 wider than the platform image,
    that coin lies beyond the reach of the player.  Whatever the keys, the
    rank of the level stays [0], the game is never completed, and a coin
    is always left. *)
Theorem X11_full_first_level_never_ends :
  forall (a : Assets) (inputs : list Keys) (g0 g : GameFull.Game),
    0 <= player_w a ->
    0 <= coin_w a <= platform_w a + 40 ->
    GameFullMain.initial a = Some g0 ->
    GameFullMain.run a inputs g0 = Some g ->
    GameFull.current_level g = 0
    /\ GameFull.game_completed g = false
    /\ GameFull.coins g <> [].
Proof.
  intros a inputs g0 g Hp Hcw E0 Er.
  destruct (full_initial a) as (g0' & E0' & _ & El & Ec & EL & Eco & Ew).
  rewrite E0 in E0'. injection E0' as <-.
  assert (Hs : full_stuck g0).
  { unfold full_stuck. rewrite Eco, Ew, EL.
    split; [unfold ids; rewrite make_coins_ids; apply seq_NoDup |].
    split; [exact Hp |]. split; [exact Ec |].
    destruct (full_first_level_far_coin GameFull.screen_height a) as [y Hy].
    destruct (make_coins_In a _ 0 _ _ Hy) as [c [Hc Erc]].
    exists c. split; [exact Hc |]. rewrite Erc. cbn [Rect.x Rect.w].
    split; [| lia].
    assert (-20 <= (platform_w a - coin_w a) / 2)
      by (apply Z.div_le_lower_bound; lia).
    lia. }
  destruct (full_run_stuck a inputs g0 g Hs Er)
    as [(_ & _ & Ec' & c & Hc & _) El'].
  split; [congruence |]. split; [exact Ec' |].
  intro En. rewrite En in Hc. destruct Hc.
Qed.

(** The start of game_full.py and three frames with the right arrow
    down. *)
Lemma X11_full_first_level_never_ends_witness :
  match GameFullMain.initial sample_assets with
  | Some g0 =>
      match GameFullMain.run sample_assets
                             [key_right; key_right; key_right] g0 with
      | Some g => GameFull.current_level g = 0
      | None => False
      end
  | None => False
  end.
Proof.
  destruct (GameFullMain.initial sample_assets) as [g0 |] eqn:E0;
    [| vm_compute in E0; discriminate].
  destruct (GameFullMain.run sample_assets
                             [key_right; key_right; key_right] g0)
    as [g |] eqn:E1.
  - exact (proj1 (X11_full_first_level_never_ends
                    sample_assets [key_right; key_right; key_right] g0 g
                    ltac:(simpl; lia) ltac:(simpl; lia) E0 E1)).
  - vm_compute in E0. injection E0 as <-. vm_compute in E1. discriminate.
Defined.

(** X12: the loop of game_full.py raises no exception, however long it
    runs and whatever the keys: [coins.remove(coin)] always finds its
    coin, and [levels[index]] is only read at an index within the list.
    From the start of [main], every sequence of frames yields a state. *)
Theorem X12_full_loop_never_raises :
  forall (a : Assets) (inputs : list Keys),
  exists g0 g,
    GameFullMain.initial a = Some g0
    /\ GameFullMain.run a inputs g0 = Some g.
Proof.
  intros a inputs.
  destruct (full_initial a) as (g0 & E0 & _ & El & _ & _ & Eco & _).
  assert (Hs : full_sound g0).
  { split; [| lia]. rewrite Eco. unfold ids. rewrite make_coins_ids.
    apply seq_NoDup. }
  destruct (full_run_total a inputs g0 Hs) as [g [Er _]].
  exists g0, g. split; assumption.
Qed.


(** ** game_final.py: where [load_level] puts the player *)

Section Sorting.

Lemma key_leb_le (p q : Rect.t) :
  GameFinal.key_leb p q = true <-> key_le p q.
Proof.
  unfold GameFinal.key_leb, key_le.
  rewrite orb_true_iff, andb_true_iff, Z.ltb_lt, Z.eqb_eq, Z.leb_le.
  reflexivity.
Qed.

Lemma key_le_refl (p : Rect.t) : key_le p p.
Proof. right. split; [reflexivity | lia]. Qed.

Lemma key_le_trans (p q r : Rect.t) : key_le p q -> key_le q r -> key_le p r.
Proof. unfold key_le. lia. Qed.

Lemma key_leb_false (p q : Rect.t) :
  GameFinal.key_leb p q = false -> key_le q p.
Proof.
  unfold GameFinal.key_leb, key_le. intro H.
  apply orb_false_iff in H. destruct H as [H1 H2].
  apply Z.ltb_ge in H1. apply andb_false_iff in H2.
  destruct H2 as [H2 | H2].
  - apply Z.eqb_neq in H2. lia.
  - apply Z.leb_gt in H2. lia.
Qed.

Lemma insert_sorted_In (p q : Rect.t) (l : list Rect.t) :
  In q (GameFinal.insert_sorted p l) <-> q = p \/ In q l.
Proof.
  induction l as [| h t IH]; simpl.
  - intuition congruence.
  - destruct (GameFinal.key_leb p h); simpl.
    + intuition congruence.
    + rewrite IH. intuition congruence.
Qed.

Lemma sort_In (q : Rect.t) (l : list Rect.t) :
  In q (GameFinal.sort l) <-> In q l.
Proof.
  induction l as [| h t IH]; simpl; [reflexivity |].
  rewrite insert_sorted_In, IH. intuition congruence.
Qed.

Lemma insert_sorted_least (p : Rect.t) (l : list Rect.t) :
  least_first l -> least_first (GameFinal.insert_sorted p l).
Proof.
  destruct l as [| h t]; simpl.
  - intros _ q [<- | []]. apply key_le_refl.
  - intro H. destruct (GameFinal.key_leb p h) eqn:E.
    + intros q [<- | Hq]; [apply key_le_refl |].
      apply key_le_trans with h; [apply key_leb_le, E | apply H, Hq].
    + intros q [<- | Hq]; [apply key_le_refl |].
      apply insert_sorted_In in Hq. destruct Hq as [-> | Hq].
      * apply key_leb_false, E.
      * apply H. right. exact Hq.
Qed.

Lemma sort_least (l : list Rect.t) : least_first (GameFinal.sort l).
Proof.
  induction l as [| h t IH]; simpl; [exact I |].
  apply insert_sorted_least, IH.
Qed.

Lemma sort_head (l : list Rect.t) (plat : Rect.t) (rest : list Rect.t) :
  GameFinal.sort l = plat :: rest ->
  In plat l /\ forall q, In q l -> key_le plat q.
Proof.
  intro E. pose proof (sort_least l) as H. rewrite E in H.
  unfold least_first in H.
  split.
  - apply sort_In. rewrite E. left. reflexivity.
  - intros q Hq. apply H. rewrite <- E. apply sort_In, Hq.
Qed.

Lemma sort_nil (l : list Rect.t) : GameFinal.sort l = [] -> l = [].
Proof.
  destruct l as [| h t]; [reflexivity |]. intro E.
  assert (H : In h (GameFinal.sort (h :: t)))
    by (apply sort_In; left; reflexivity).
  rewrite E in H. destruct H.
Qed.

End Sorting.

Section Spawn.

Variable Rng : Type.
Variable seed : Z -> Rng.
Variable choice : nat -> Rng -> nat * Rng.

Lemma final_load_level_player (a : Assets) (index : Z)
      (g g' : GameFinal.Game Rng) :
  GameFinal.load_level seed choice a index g = Some g' ->
  let p := GameFinal.player g in
  let p' := GameFinal.player g' in
  (GameFinal.rect p', GameFinal.vel_y p')
  = match GameFinal.sort (raised (GameFinal.platforms g')) with
    | plat :: _ =>
        (Rect.set_midbottom (GameFinal.rect p) (Rect.x plat + 20)
                            (Rect.top plat), 0%Q)
    | [] =>
        (Rect.set_midbottom (GameFinal.rect p) 50
                            (GameFinal.SCREEN_HEIGHT - 50),
         GameFinal.vel_y p)
    end
  /\ GameFinal.direction p' = GameFinal.direction p
  /\ GameFinal.vel_x p' = GameFinal.vel_x p
  /\ GameFinal.on_ground p' = GameFinal.on_ground p
  /\ GameFinal.attacking p' = GameFinal.attacking p
  /\ GameFinal.attack_timer p' = GameFinal.attack_timer p.
Proof.
  intro H. unfold GameFinal.load_level in H. unfold raised.
  destruct (getitem _ _) as [lp |]; [| discriminate].
  destruct (GameFinal.list_max _) as [m |]; [| discriminate].
  match type of H with
  | context [GameFinal.sort ?x] =>
      destruct (GameFinal.sort x) as [| plat rest] eqn:Es
  end.
  all: repeat match type of H with
              | context [let (_, _) := ?x in _] => destruct x
              end.
  all: injection H as <-.
  all: cbn [GameFinal.player GameFinal.platforms GameFinal.rect
            GameFinal.vel_y GameFinal.direction GameFinal.vel_x
            GameFinal.on_ground GameFinal.attacking GameFinal.attack_timer].
  all: rewrite Es; repeat split.
Qed.

End Spawn.

(** X13: [load_level] of game_final.py puts the player on the highest
    of the platforms above the ground, and on the leftmost of the highest:
    its bottom at the top of that platform, its centre 20 to the right of
    the platform's left edge, and its vertical velocity at [0].  With no
    platform above the ground the player is put at [(50, SCREEN_HEIGHT -
    50)] and keeps its velocity.  In both cases the player keeps its
    direction, its horizontal velocity, [on_ground] and the state of its
    attack.  (The platform image is taken to have a positive width: the
    ground is tiled in steps of that width.) *)
Theorem X13_final_player_spawns_on_the_highest_platform :
  forall (Rng : Type) (seed : Z -> Rng) (choice : nat -> Rng -> nat * Rng)
         (a : Assets) (index : Z) (g g' : GameFinal.Game Rng),
    0 < platform_w a ->
    GameFinal.load_level seed choice a index g = Some g' ->
    let p := GameFinal.player g in
    let p' := GameFinal.player g' in
    ((exists plat,
         In plat (raised (GameFinal.platforms g'))
         /\ (forall q, In q (raised (GameFinal.platforms g')) ->
                       key_le plat q)
         /\ GameFinal.rect p'
            = Rect.set_midbottom (GameFinal.rect p) (Rect.x plat + 20)
                                 (Rect.top plat)
         /\ GameFinal.vel_y p' = 0%Q)
     \/ (raised (GameFinal.platforms g') = []
         /\ GameFinal.rect p'
            = Rect.set_midbottom (GameFinal.rect p) 50
                                 (GameFinal.SCREEN_HEIGHT - 50)
         /\ GameFinal.vel_y p' = GameFinal.vel_y p))
    /\ GameFinal.direction p' = GameFinal.direction p
    /\ GameFinal.vel_x p' = GameFinal.vel_x p
    /\ GameFinal.on_ground p' = GameFinal.on_ground p
    /\ GameFinal.attacking p' = GameFinal.attacking p
    /\ GameFinal.attack_timer p' = GameFinal.attack_timer p.
Proof.
  intros Rng seed choice a index g g' _ H p p'.
  destruct (final_load_level_player Rng seed choice a index g g' H)
    as [E rest].
  split; [| exact rest].
  destruct (GameFinal.sort (raised (GameFinal.platforms g')))
    as [| plat others] eqn:Es.
  - right. apply sort_nil in Es. injection E as Er Ev.
    split; [exact Es |]. split; assumption.
  - left. exists plat. destruct (sort_head _ _ _ Es) as [Hin Hmin].
    injection E as Er Ev.
    split; [exact Hin |]. split; [exact Hmin |]. split; assumption.
Qed.


(** A level of three entries: the player is put on the platform at
    [(100, 300)] and stopped. *)
Lemma X13_final_player_spawns_on_the_highest_platform_witness :
  match GameFinal.load_level Lcg.seed Lcg.choice sample_assets 0
                             sample_final_game with
  | Some g' => GameFinal.vel_y (GameFinal.player g') = 0%Q
  | None => False
  end.
Proof.
  destruct (GameFinal.load_level Lcg.seed Lcg.choice sample_assets 0
                                 sample_final_game) as [g' |] eqn:E;
    [| vm_compute in E; discriminate].
  destruct (X13_final_player_spawns_on_the_highest_platform
              Z Lcg.seed Lcg.choice sample_assets 0 sample_final_game g'
              ltac:(simpl; lia) E)
    as [[(plat & _ & _ & _ & Hv) | (Hn & _)] _].
  - exact Hv.
  - vm_compute in E. injection E as <-. vm_compute in Hn. discriminate.
Defined.

(** ** game_final.py: what [load_level] spawns *)

Section SpawnSprites.

Variable Rng : Type.
Variable seed : Z -> Rng.
Variable choice : nat -> Rng -> nat * Rng.

Lemma nth_default_In {A : Type} (k : nat) (l : list A) (d : A) :
  In d l -> In (nth k l d) l.
Proof.
  intro H. destruct (nth_in_or_default k l d) as [Hn | Hn];
    [exact Hn | rewrite Hn; exact H].
Qed.

Lemma spawn_coin_loop (a : Assets) (pl : list GameFinal.Platform)
      (d : GameFinal.Platform) (l : list Z) (acc : list GameFinal.Coin)
      (g : Rng) :
  In d pl ->
  Forall (fun c => exists plat,
              In plat pl /\ c = put_on (coin_w a) (coin_h a) plat) acc ->
  let r := fst (fold_left (GameFinal.spawn_coin choice a pl d) l (acc, g)) in
  Forall (fun c => exists plat,
              In plat pl /\ c = put_on (coin_w a) (coin_h a) plat) r
  /\ List.length r = (List.length acc + List.length l)%nat.
Proof.
  intro Hd. cbv zeta. revert acc g.
  induction l as [| z l IH]; intros acc g Hacc.
  - simpl. split; [exact Hacc | lia].
  - cbn [fold_left].
    destruct (choice (List.length pl) g) as [k g1] eqn:Ek.
    assert (Es : GameFinal.spawn_coin choice a pl d (acc, g) z
                 = (acc ++ [put_on (coin_w a) (coin_h a) (nth k pl d)], g1))
      by (unfold GameFinal.spawn_coin; rewrite Ek; reflexivity).
    rewrite Es.
    destruct (IH (acc ++ [put_on (coin_w a) (coin_h a) (nth k pl d)]) g1)
      as [F L].
    + apply Forall_app. split; [exact Hacc |].
      constructor; [| constructor].
      exists (nth k pl d). split; [apply nth_default_In, Hd | reflexivity].
    + split; [exact F |]. unfold GameFinal.Coin in *.
      rewrite L, length_app. simpl. lia.
Qed.

Lemma spawn_enemy_loop (a : Assets) (pl : list GameFinal.Platform)
      (d : GameFinal.Platform) (l : list Z) (acc : list GameFinal.Enemy)
      (g : Rng) :
  In d pl ->
  Forall (fun e => exists plat,
              In plat pl
              /\ GameFinal.enemy_rect e
                 = put_on (enemy_w a) (enemy_h a) plat
              /\ (GameFinal.enemy_direction e = -1
                  \/ GameFinal.enemy_direction e = 1)
              /\ GameFinal.enemy_speed e = GameFinal.ENEMY_SPEED) acc ->
  let r := fst (fold_left (GameFinal.spawn_enemy choice a pl d) l (acc, g)) in
  Forall (fun e => exists plat,
              In plat pl
              /\ GameFinal.enemy_rect e
                 = put_on (enemy_w a) (enemy_h a) plat
              /\ (GameFinal.enemy_direction e = -1
                  \/ GameFinal.enemy_direction e = 1)
              /\ GameFinal.enemy_speed e = GameFinal.ENEMY_SPEED) r
  /\ List.length r = (List.length acc + List.length l)%nat.
Proof.
  intro Hd. cbv zeta. revert acc g.
  induction l as [| z l IH]; intros acc g Hacc.
  - simpl. split; [exact Hacc | lia].
  - cbn [fold_left].
    destruct (choice (List.length pl) g) as [k g1] eqn:Ek.
    destruct (choice 2 g1) as [c g2] eqn:Ec.
    assert (Es : GameFinal.spawn_enemy choice a pl d (acc, g) z
                 = (acc ++ [GameFinal.mkEnemy
                              (List.length acc)
                              (put_on (enemy_w a) (enemy_h a) (nth k pl d))
                              (nth c [-1; 1] 1) GameFinal.ENEMY_SPEED],
                    g2))
      by (unfold GameFinal.spawn_enemy; rewrite Ek, Ec; reflexivity).
    rewrite Es.
    match goal with
    | |- context [fold_left _ l (?acc', g2)] =>
        destruct (IH acc' g2) as [F L]
    end.
    + apply Forall_app. split; [exact Hacc |].
      constructor; [| constructor].
      exists (nth k pl d). cbn [GameFinal.enemy_rect
        GameFinal.enemy_direction GameFinal.enemy_speed].
      split; [apply nth_default_In, Hd |]. split; [reflexivity |].
      split; [| reflexivity].
      destruct c as [| [| [| c]]]; simpl; auto.
    + split; [exact F |]. rewrite L, length_app. simpl. lia.
Qed.

Lemma final_load_level_sprites (a : Assets) (index : Z)
      (g g' : GameFinal.Game Rng) :
  GameFinal.load_level seed choice a index g = Some g' ->
  let high := raised (GameFinal.platforms g') in
  let n := Z.of_nat (List.length high) in
  List.length (GameFinal.coins g') = Z.to_nat (Z.min (6 + index / 2) n)
  /\ List.length (GameFinal.enemies g') = Z.to_nat (Z.min (3 + index / 3) n)
  /\ Forall (fun c => exists plat,
                 In plat high /\ c = put_on (coin_w a) (coin_h a) plat)
            (GameFinal.coins g')
  /\ Forall (fun e => exists plat,
                 In plat high
                 /\ GameFinal.enemy_rect e
                    = put_on (enemy_w a) (enemy_h a) plat
                 /\ (GameFinal.enemy_direction e = -1
                     \/ GameFinal.enemy_direction e = 1)
                 /\ GameFinal.enemy_speed e = GameFinal.ENEMY_SPEED)
            (GameFinal.enemies g').
Proof.
  intro H. unfold GameFinal.load_level in H. unfold raised.
  destruct (getitem _ _) as [lp |]; [| discriminate].
  destruct (GameFinal.list_max _) as [m |]; [| discriminate].
  match type of H with
  | context [filter ?f ?x] =>
      destruct (filter f x) as [| d pl] eqn:Ef
  end.
  - match type of H with
    | context [GameFinal.sort ?x] => destruct (GameFinal.sort x)
    end; injection H as <-;
      cbn [GameFinal.platforms GameFinal.coins GameFinal.enemies];
      rewrite Ef; cbn [List.length];
      (split; [lia |]); (split; [lia |]); split; constructor.
  - match type of H with
    | context [fold_left (GameFinal.spawn_coin choice a ?l ?d0) ?r ?s] =>
        destruct (spawn_coin_loop a l d0 r [] (snd s)
                    (or_introl eq_refl) (Forall_nil _)) as [Fc Lc];
        cbn [snd] in Fc, Lc
    end.
    match type of H with
    | context [fold_left (GameFinal.spawn_enemy choice a ?l ?d0) ?r ?s] =>
        destruct (spawn_enemy_loop a l d0 r [] (snd s)
                    (or_introl eq_refl) (Forall_nil _)) as [Fe Le];
        cbn [snd] in Fe, Le
    end.
    rewrite range_length in Lc, Le.
    match type of H with
    | context [GameFinal.sort ?x] => destruct (GameFinal.sort x)
    end.
    all: repeat match type of H with
                | context [let (_, _) := ?x in _] => destruct x
                end.
    all: injection H as <-.
    all: cbn [GameFinal.platforms GameFinal.coins GameFinal.enemies fst]
      in *.
    all: rewrite Ef.
    all: split; [exact Lc |]; split; [exact Le |]; split; assumption.
Qed.

End SpawnSprites.

(** X14: [load_level] of game_final.py spawns its coins and enemies on
    platforms above the ground: each coin and each enemy has its bottom at
    the top of such a platform and is centred on it.  There are
    [min(6 + index // 2, n)] coins and [min(3 + index // 3, n)] enemies,
    [n] being the number of these platforms; several may share a platform,
    and with no platform above the ground there is none.  Every enemy
    starts with the direction [-1] or [1] and the speed [ENEMY_SPEED].
    (The platform image is taken to have a positive width.) *)
Theorem X14_final_sprites_spawn_on_raised_platforms :
  forall (Rng : Type) (seed : Z -> Rng) (choice : nat -> Rng -> nat * Rng)
         (a : Assets) (index : Z) (g g' : GameFinal.Game Rng),
    0 < platform_w a ->
    GameFinal.load_level seed choice a index g = Some g' ->
    let high := raised (GameFinal.platforms g') in
    let n := Z.of_nat (List.length high) in
    List.length (GameFinal.coins g') = Z.to_nat (Z.min (6 + index / 2) n)
    /\ List.length (GameFinal.enemies g')
       = Z.to_nat (Z.min (3 + index / 3) n)
    /\ Forall (fun c => exists plat,
                   In plat high /\ c = put_on (coin_w a) (coin_h a) plat)
              (GameFinal.coins g')
    /\ Forall (fun e => exists plat,
                   In plat high
                   /\ GameFinal.enemy_rect e
                      = put_on (enemy_w a) (enemy_h a) plat
                   /\ (GameFinal.enemy_direction e = -1
                       \/ GameFinal.enemy_direction e = 1)
                   /\ GameFinal.enemy_speed e = GameFinal.ENEMY_SPEED)
              (GameFinal.enemies g').
Proof.
  intros Rng seed choice a index g g' _ H.
  exact (final_load_level_sprites Rng seed choice a index g g' H).
Qed.

(** The level of three entries: two coins and two enemies, as there are
    two platforms above the ground. *)
Lemma X14_final_sprites_spawn_on_raised_platforms_witness :
  match GameFinal.load_level Lcg.seed Lcg.choice sample_assets 0
                             sample_final_game with
  | Some g' =>
      List.length (GameFinal.coins g') = 2%nat
      /\ List.length (GameFinal.enemies g') = 2%nat
  | None => False
  end.
Proof.
  destruct (GameFinal.load_level Lcg.seed Lcg.choice sample_assets 0
                                 sample_final_game) as [g' |] eqn:E;
    [| vm_compute in E; discriminate].
  destruct (X14_final_sprites_spawn_on_raised_platforms
              Z Lcg.seed Lcg.choice sample_assets 0 sample_final_game g'
              ltac:(simpl; lia) E)
    as (Lc & Le & _).
  vm_compute in E. injection E as <-.
  split; [exact Lc | exact Le].
Defined.


(** ** game_final.py: the frame *)

Section FinalFrame.

Variable Rng : Type.
Variable seed : Z -> Rng.
Variable choice : nat -> Rng -> nat * Rng.

Lemma fall_keeps (g : GameFinal.Game Rng) :
  GameFinal.platforms (GameFinal.fall g) = GameFinal.platforms g
  /\ GameFinal.coins (GameFinal.fall g) = GameFinal.coins g
  /\ GameFinal.enemies (GameFinal.fall g) = GameFinal.enemies g
  /\ GameFinal.level_index (GameFinal.fall g) = GameFinal.level_index g
  /\ GameFinal.levels (GameFinal.fall g) = GameFinal.levels g
  /\ GameFinal.game_won (GameFinal.fall g) = GameFinal.game_won g
  /\ GameFinal.running (GameFinal.fall g) = GameFinal.running g.
Proof.
  unfold GameFinal.fall.
  destruct (Rect.top _ >? GameFinal.SCREEN_HEIGHT); repeat split.
Qed.

(** The fall is the only place that sets [game_over]. *)
Lemma fall_game_over (g : GameFinal.Game Rng) :
  GameFinal.game_over g = false ->
  GameFinal.game_over (GameFinal.fall g) = true ->
  GameFinal.SCREEN_HEIGHT < Rect.top (GameFinal.rect (GameFinal.player g))
  /\ GameFinal.lives (GameFinal.player g) <= 1
  /\ GameFinal.lives (GameFinal.player (GameFinal.fall g))
     = GameFinal.lives (GameFinal.player g) - 1.
Proof.
  unfold GameFinal.fall. intros Eo.
  destruct (Rect.top _ >? GameFinal.SCREEN_HEIGHT) eqn:Et;
    [| congruence].
  apply Z.gtb_lt in Et. cbn [GameFinal.game_over GameFinal.player].
  destruct (Z.leb_spec (GameFinal.lives (GameFinal.player g) - 1) 0);
    [| congruence].
  intros _. split; [exact Et |]. split; [lia |].
  destruct (filter _ _); reflexivity.
Qed.

Lemma update_entities_cases (a : Assets) (g g' : GameFinal.Game Rng) :
  GameFinal.update_entities seed choice a g = Some g' ->
  let camera_x := GameFinal.camera (GameFinal.rect (GameFinal.player g))
                                   (GameFinal.world_width g) in
  let camera_dx := camera_x - camera_of g in
  let shift := fun r : Rect.t => Rect.set_x r (Rect.x r - camera_dx) in
  let u := GameFinal.update (GameFinal.platforms g) (GameFinal.coins g)
                            (GameFinal.enemies g) (GameFinal.player g) in
  let g1 := GameFinal.mkGame
              (GameFinal.running g) (map shift (GameFinal.platforms g))
              (map shift (fst (fst u)))
              (map (GameFinal.enemy_update (GameFinal.platforms g)
                                           camera_dx) (snd (fst u)))
              (snd u) (GameFinal.level_index g) (GameFinal.levels g)
              (GameFinal.world_width g) (GameFinal.game_over g)
              (GameFinal.game_won g) (Some camera_x) (GameFinal.rng g) in
  (g' = GameFinal.fall g1
   /\ (fst (fst u) <> [] \/ GameFinal.game_over g = true))
  \/ (fst (fst u) = [] /\ GameFinal.game_over g = false
      /\ Z.of_nat (List.length (GameFinal.levels g))
         <= GameFinal.level_index g + 1
      /\ g' = GameFinal.fall
                (GameFinal.mkGame
                   (GameFinal.running g1) (GameFinal.platforms g1) []
                   (GameFinal.enemies g1) (GameFinal.player g1)
                   (GameFinal.level_index g + 1) (GameFinal.levels g)
                   (GameFinal.world_width g) false true (Some camera_x)
                   (GameFinal.rng g)))
  \/ (fst (fst u) = [] /\ GameFinal.game_over g = false
      /\ GameFinal.level_index g + 1
         < Z.of_nat (List.length (GameFinal.levels g))
      /\ GameFinal.load_level
           seed choice a (GameFinal.level_index g + 1)
           (GameFinal.mkGame
              (GameFinal.running g1) (GameFinal.platforms g1) []
              (GameFinal.enemies g1) (GameFinal.player g1)
              (GameFinal.level_index g + 1) (GameFinal.levels g)
              (GameFinal.world_width g) false false (Some camera_x)
              (GameFinal.rng g))
         = Some g').
Proof.
  unfold GameFinal.update_entities, camera_of. cbv zeta.
  destruct (GameFinal.update _ _ _ _) as [[coins enemies] p].
  cbn [fst snd GameFinal.game_over GameFinal.level_index GameFinal.levels
       GameFinal.running GameFinal.platforms GameFinal.enemies
       GameFinal.player GameFinal.world_width GameFinal.game_won
       GameFinal.rng GameFinal.coins].
  destruct coins as [| c coins]; cbn [map List.length Nat.eqb andb].
  - destruct (GameFinal.game_over g) eqn:Eo; cbn [negb].
    + intro E. injection E as <-. left. split; [reflexivity | right].
      reflexivity.
    + destruct (Z.geb_spec (GameFinal.level_index g + 1)
                  (Z.of_nat (List.length (GameFinal.levels g))))
        as [Hge | Hlt].
      * intro E. injection E as <-. right. left.
        split; [reflexivity |]. split; [reflexivity |].
        split; [lia | reflexivity].
      * intro E. right. right.
        split; [reflexivity |]. split; [reflexivity |].
        split; [lia | exact E].
  - intro E. injection E as <-. left. split; [reflexivity | left].
    discriminate.
Qed.

End FinalFrame.

(** X15: game_final.py keeps its platforms in screen coordinates.  In a
    frame that stays in the level every platform is moved left by the
    change of the camera, so that the abscissa of a platform plus the
    offset the game remembers never changes within a level; the ordinates
    and sizes never change at all.  The offset remembered after the frame
    is the one computed from the player as the frame found it. *)
Theorem X15_final_platforms_follow_the_camera :
  forall (Rng : Type) (seed : Z -> Rng) (choice : nat -> Rng -> nat * Rng)
         (a : Assets) (g g' : GameFinal.Game Rng),
    GameFinal.update_entities seed choice a g = Some g' ->
    GameFinal.level_index g' = GameFinal.level_index g ->
    map (to_world (camera_of g')) (GameFinal.platforms g')
    = map (to_world (camera_of g)) (GameFinal.platforms g)
    /\ camera_of g'
       = GameFinal.camera (GameFinal.rect (GameFinal.player g))
                          (GameFinal.world_width g)
    /\ GameFinal.world_width g' = GameFinal.world_width g.
Proof.
  intros Rng seed choice a g g' H Hl.
  destruct (update_entities_cases Rng seed choice a g g' H)
    as [[-> _] | [(_ & _ & _ & ->) | (_ & _ & _ & El)]].
  - match goal with
    | |- context [GameFinal.fall ?x] => set (g1 := x)
    end.
    assert (Ec : camera_of (GameFinal.fall g1)
                 = GameFinal.camera (GameFinal.rect (GameFinal.player g))
                                    (GameFinal.world_width g))
      by (unfold camera_of at 1; rewrite fall_keeps_camera; reflexivity).
    rewrite Ec, (proj1 (fall_keeps Rng g1)).
    split; [| split; [reflexivity |]].
    + unfold g1. cbn [GameFinal.platforms].
      rewrite map_map. apply map_ext. intro r.
      unfold to_world, Rect.set_x. cbn [Rect.x Rect.y Rect.w Rect.h].
      f_equal. lia.
    + unfold GameFinal.fall.
      destruct (Rect.top _ >? GameFinal.SCREEN_HEIGHT); reflexivity.
  - exfalso.
    match type of Hl with
    | GameFinal.level_index (GameFinal.fall ?x) = _ =>
        destruct (fall_keeps Rng x) as (_ & _ & _ & Ei & _);
        rewrite Ei in Hl
    end.
    cbn [GameFinal.level_index] in Hl. lia.
  - exfalso.
    apply load_level_resets in El. destruct El as [Ei _].
    rewrite Ei in Hl. cbn [GameFinal.level_index] in Hl. lia.
Qed.


(** A frame of a game in play, whose camera is at the left end of the
    world. *)
Lemma X15_final_platforms_follow_the_camera_witness :
  match GameFinal.update_entities Lcg.seed Lcg.choice sample_assets
                                  sample_final_frame with
  | Some g' => camera_of g' = 0
  | None => False
  end.
Proof.
  destruct (GameFinal.update_entities Lcg.seed Lcg.choice sample_assets
                                      sample_final_frame) as [g' |] eqn:E;
    [| vm_compute in E; discriminate].
  destruct (X15_final_platforms_follow_the_camera
              Z Lcg.seed Lcg.choice sample_assets sample_final_frame g' E)
    as (_ & Ec & _).
  - vm_compute in E. injection E as <-. reflexivity.
  - rewrite Ec. reflexivity.
Defined.

(** X16: in game_final.py only a fall ends the game.  A frame that
    starts with the game not over ends with the game over only if
    [Player.update] has left the top of the player below the window and
    the player had one life or less; the fall then took that life.  An
    enemy that takes the last life does not end the game. *)
Theorem X16_final_game_is_over_only_after_a_fall :
  forall (Rng : Type) (seed : Z -> Rng) (choice : nat -> Rng -> nat * Rng)
         (a : Assets) (g g' : GameFinal.Game Rng),
    GameFinal.update_entities seed choice a g = Some g' ->
    GameFinal.game_over g = false ->
    GameFinal.game_over g' = true ->
    GameFinal.SCREEN_HEIGHT < Rect.top (GameFinal.rect (final_updated g))
    /\ GameFinal.lives (final_updated g) <= 1
    /\ GameFinal.lives (GameFinal.player g')
       = GameFinal.lives (final_updated g) - 1.
Proof.
  intros Rng seed choice a g g' H Eo Eo'.
  destruct (update_entities_cases Rng seed choice a g g' H)
    as [[-> _] | [(_ & _ & _ & ->) | (_ & _ & _ & El)]].
  - apply (fall_game_over Rng) in Eo'; [exact Eo' | exact Eo].
  - apply (fall_game_over Rng) in Eo'; [exact Eo' | reflexivity].
  - apply load_level_resets in El. destruct El as (_ & _ & _ & _ & En & _).
    congruence.
Qed.

(** The player with one life that an enemy touches: the frame leaves it
    without a life and the game goes on. *)
Lemma X16_final_game_is_over_only_after_a_fall_witness :
  match GameFinal.update_entities Lcg.seed Lcg.choice sample_assets
                                  sample_final_frame with
  | Some g' =>
      GameFinal.lives (GameFinal.player g') = 0
      /\ GameFinal.game_over g' = false
  | None => False
  end.
Proof.
  destruct (GameFinal.update_entities Lcg.seed Lcg.choice sample_assets
                                      sample_final_frame) as [g' |] eqn:E;
    [| vm_compute in E; discriminate].
  split.
  - vm_compute in E. injection E as <-. reflexivity.
  - destruct (GameFinal.game_over g') eqn:Eo; [| reflexivity].
    destruct (X16_final_game_is_over_only_after_a_fall
                Z Lcg.seed Lcg.choice sample_assets sample_final_frame g'
                E eq_refl Eo) as [Ht _].
    vm_compute in Ht. discriminate.
Defined.

(** ** game_final.py: the generated levels, loaded *)

Section GeneratedLoaded.

Variable Rng : Type.
Variable seed : Z -> Rng.
Variable randint : Z -> Z -> Rng -> Z * Rng.
Variable choice : nat -> Rng -> nat * Rng.

(** [random.randint(a, b)] returns an integer from [a] to [b]. *)
Hypothesis randint_range :
  forall (lo hi : Z) (g : Rng),
    lo <= hi -> lo <= fst (randint lo hi g) <= hi.

Lemma place_platforms_drawn (i : Z) (l : list Z) (acc : list (Z * Z))
      (g : Rng) :
  0 <= i ->
  exists rest,
    fst (fold_left (GameFinal.place_platform randint (2000 + i * 400)) l
                   (acc, g))
    = acc ++ rest
    /\ List.length rest = List.length l
    /\ Forall (drawn_in_level i) rest.
Proof.
  intro Hi. revert acc g. induction l as [| z l IH]; intros acc g.
  - exists []. simpl. rewrite app_nil_r. repeat split. constructor.
  - cbn [fold_left]. unfold GameFinal.place_platform at 2.
    pose proof (randint_range 50 (2000 + i * 400 - 200) g ltac:(lia)) as Hx.
    destruct (randint 50 (2000 + i * 400 - 200) g) as [x g1].
    pose proof (randint_range 200 (GameFinal.SCREEN_HEIGHT - 150) g1
                              ltac:(unfold GameFinal.SCREEN_HEIGHT; lia))
      as Hy.
    destruct (randint 200 (GameFinal.SCREEN_HEIGHT - 150) g1) as [y g2].
    destruct (IH (acc ++ [(x, y)]) g2) as (rest & E & L & F).
    exists ((x, y) :: rest). rewrite E, <- app_assoc.
    split; [reflexivity |]. split; [simpl; lia |].
    constructor; [| exact F]. split; assumption.
Qed.

Lemma final_level_drawn (i : Z) :
  0 <= i ->
  exists rest,
    final_level seed randint i = (0, GameFinal.SCREEN_HEIGHT - 40) :: rest
    /\ List.length rest = Z.to_nat (8 + i / 2)
    /\ Forall (drawn_in_level i) rest.
Proof.
  intro Hi. unfold final_level.
  destruct (place_platforms_drawn i (range (8 + i / 2))
              [(0, GameFinal.SCREEN_HEIGHT - 40)] (seed i) Hi)
    as (rest & E & L & F).
  exists rest. rewrite E, L, range_length. repeat split. exact F.
Qed.

Lemma final_level_at (count : Z) (g0 : Rng) (i : Z) :
  0 <= i < count ->
  getitem (fst (GameFinal.generate_levels seed randint count g0)) i
  = Some (final_level seed randint i).
Proof.
  intro H. rewrite <- (Z2Nat.id i) at 1 by lia. apply getitem_nth.
  rewrite final_generate_levels_nth by lia. rewrite Z2Nat.id by lia.
  reflexivity.
Qed.

Lemma max_from (l : list Z) (init hi : Z) :
  init <= hi -> Forall (fun x => x <= hi) l ->
  init <= fold_left Z.max l init <= hi.
Proof.
  revert init. induction l as [| x l IH]; intros init Hi F; simpl.
  - lia.
  - inversion F as [| ? ? Hx Fl]; subst.
    destruct (IH (Z.max init x) ltac:(lia) Fl). lia.
Qed.

End GeneratedLoaded.

Section LoadedPlatforms.

Variable Rng : Type.
Variable seed : Z -> Rng.
Variable choice : nat -> Rng -> nat * Rng.

Lemma final_load_level_platforms (a : Assets) (index : Z)
      (g g' : GameFinal.Game Rng) (lp : list (Z * Z)) :
  getitem (GameFinal.levels g) index = Some lp ->
  GameFinal.load_level seed choice a index g = Some g' ->
  exists m,
    GameFinal.list_max (map fst lp) = Some m
    /\ GameFinal.world_width g' = m + 500
    /\ GameFinal.platforms g'
       = fold_left (GameFinal.spawn_platform a (m + 500)) lp [].
Proof.
  intros El H. unfold GameFinal.load_level in H. rewrite El in H.
  destruct (GameFinal.list_max _) as [m |]; [| discriminate].
  exists m. split; [reflexivity |].
  match type of H with
  | context [GameFinal.sort ?x] => destruct (GameFinal.sort x)
  end.
  all: repeat match type of H with
              | context [let (_, _) := ?x in _] => destruct x
              end.
  all: injection H as <-; split; reflexivity.
Qed.

(** The platforms above the ground are the entries of the level above
    the ground, in the order of the level; the tiles of the ground are
    not among them. *)
Lemma spawn_platforms_raised (a : Assets) (world_width : Z)
      (l : list (Z * Z)) (acc : list GameFinal.Platform) :
  raised (fold_left (GameFinal.spawn_platform a world_width) l acc)
  = raised acc
      ++ map (platform_at a)
             (filter (fun xy => snd xy <? GameFinal.SCREEN_HEIGHT - 50) l).
Proof.
  revert acc. induction l as [| [x y] l IH]; intro acc.
  - simpl. rewrite app_nil_r. reflexivity.
  - cbn [fold_left filter snd]. rewrite IH.
    unfold GameFinal.spawn_platform.
    change (GameFinal.SCREEN_HEIGHT - 40) with 560.
    change (GameFinal.SCREEN_HEIGHT - 50) with 550.
    destruct (Z.geb_spec y 560) as [Hy | Hy].
    + rewrite (fold_left_snoc
                 (fun tx => Rect.mk tx y (platform_w a) (platform_h a))).
      unfold raised at 1. rewrite filter_app.
      change (GameFinal.SCREEN_HEIGHT - 50) with 550.
      assert (E : filter (fun p : Rect.t => Rect.y p <? 550)
                    (map (fun tx => Rect.mk tx y (platform_w a)
                                            (platform_h a))
                         (GameFinal.range_step world_width
                                               (platform_w a))) = []).
      { induction (GameFinal.range_step world_width (platform_w a))
          as [| tx txs IHt]; simpl; [reflexivity |].
        destruct (Z.ltb_spec y 550); [lia | exact IHt]. }
      rewrite E, app_nil_r.
      destruct (Z.ltb_spec y 550); [lia |]. reflexivity.
    + unfold raised at 1. rewrite filter_app. cbn [filter Rect.y].
      change (GameFinal.SCREEN_HEIGHT - 50) with 550.
      destruct (Z.ltb_spec y 550); cbn [map];
        rewrite <- ?app_assoc; reflexivity.
Qed.

End LoadedPlatforms.

(** X18: a generated level of game_final.py, loaded.  When
    [random.randint] stays within its bounds and the platform image has a
    positive width, level [i] of the list that
    [generate_levels] returns is the ground followed by [8 + i // 2]
    entries drawn between 50 and [1800 + 400 * i] across and between 200
    and [SCREEN_HEIGHT - 150] down.  [load_level] makes of these entries,
    in their order, the platforms above the ground, and spawns
    [6 + i // 2] coins and [3 + i // 3] enemies on them; the world is
    between 500 and [2300 + 400 * i] wide.  The default spawn of the
    player is thus never used. *)
Theorem X18_final_generated_level_loaded :
  forall (Rng : Type) (seed : Z -> Rng)
         (randint : Z -> Z -> Rng -> Z * Rng)
         (choice : nat -> Rng -> nat * Rng) (a : Assets) (count : Z)
         (g0 : Rng) (g g' : GameFinal.Game Rng) (i : Z),
    (forall (lo hi : Z) (r : Rng),
        lo <= hi -> lo <= fst (randint lo hi r) <= hi) ->
    0 < platform_w a ->
    GameFinal.levels g
    = fst (GameFinal.generate_levels seed randint count g0) ->
    0 <= i < count ->
    GameFinal.load_level seed choice a i g = Some g' ->
    exists rest,
      getitem (GameFinal.levels g) i
      = Some ((0, GameFinal.SCREEN_HEIGHT - 40) :: rest)
      /\ List.length rest = Z.to_nat (8 + i / 2)
      /\ Forall (drawn_in_level i) rest
      /\ raised (GameFinal.platforms g') = map (platform_at a) rest
      /\ List.length (GameFinal.coins g') = Z.to_nat (6 + i / 2)
      /\ List.length (GameFinal.enemies g') = Z.to_nat (3 + i / 3)
      /\ 500 <= GameFinal.world_width g' <= 2300 + 400 * i.
Proof.
  intros Rng seed randint choice a count g0 g g' i Hr _ Hl Hi H.
  destruct (final_level_drawn Rng seed randint Hr i ltac:(lia))
    as (rest & E & L & F).
  assert (Eg : getitem (GameFinal.levels g) i
               = Some ((0, GameFinal.SCREEN_HEIGHT - 40) :: rest))
    by (rewrite Hl, final_level_at by exact Hi; rewrite E; reflexivity).
  exists rest. split; [exact Eg |]. split; [exact L |]. split; [exact F |].
  destruct (final_load_level_platforms Rng seed choice a i g g' _ Eg H)
    as (m & Em & Ew & Ep).
  assert (Er : raised (GameFinal.platforms g') = map (platform_at a) rest).
  { rewrite Ep, spawn_platforms_raised. cbn [filter snd raised app].
    change (GameFinal.SCREEN_HEIGHT - 40 <? GameFinal.SCREEN_HEIGHT - 50)
      with false. cbv iota. f_equal.
    clear - F. induction F as [| xy l [_ Hy] _ IH]; simpl; [reflexivity |].
    change (GameFinal.SCREEN_HEIGHT - 50) with 550 in *.
    change (GameFinal.SCREEN_HEIGHT - 150) with 450 in Hy.
    destruct (Z.ltb_spec (snd xy) 550); [| lia]. f_equal. exact IH. }
  split; [exact Er |].
  destruct (final_load_level_sprites Rng seed choice a i g g' H)
    as (Lc & Le & _).
  cbv zeta in Lc, Le. rewrite Er, length_map, L in Lc, Le.
  assert (0 <= i / 2) by (apply Z.div_pos; lia).
  assert (0 <= i / 3) by (apply Z.div_pos; lia).
  assert (i / 3 <= i / 2)
    by (apply Z.div_le_lower_bound; [lia |];
        pose proof (Z.mul_div_le i 3 ltac:(lia)); lia).
  split; [rewrite Lc; f_equal; lia |].
  split; [rewrite Le; f_equal; lia |].
  rewrite Ew. cbn [map fst GameFinal.list_max] in Em. injection Em as <-.
  assert (Fx : Forall (fun x => x <= 2000 + i * 400 - 200) (map fst rest)).
  { clear - F. induction F as [| xy l [Hx _] _ IH]; cbn [map];
      constructor; [lia | exact IH]. }
  pose proof (max_from (map fst rest) 0 (2000 + i * 400 - 200)
                       ltac:(lia) Fx).
  lia.
Qed.

(** Level 2 out of 30, with a generator that stays within its
    bounds. *)
Lemma X18_final_generated_level_loaded_witness :
  let g := GameFinal.mkGame
             true [] [] []
             (GameFinal.mkPlayer (Rect.mk 80 40 40 60) 1 0 0 false false
                                 0 3 0)
             0 (fst (GameFinal.generate_levels Lcg.seed Lcg.randint 30 1))
             0 false false None 0 in
  match GameFinal.load_level Lcg.seed Lcg.choice sample_assets 2 g with
  | Some g' =>
      List.length (GameFinal.coins g') = 7%nat
      /\ List.length (GameFinal.enemies g') = 3%nat
  | None => False
  end.
Proof.
  intro g.
  destruct (GameFinal.load_level Lcg.seed Lcg.choice sample_assets 2 g)
    as [g' |] eqn:E; [| vm_compute in E; discriminate].
  destruct (X18_final_generated_level_loaded
              Z Lcg.seed Lcg.randint Lcg.choice sample_assets 30 1 g g' 2)
    as (rest & _ & _ & _ & _ & Lc & Le & _).
  - intros lo hi r H. unfold Lcg.randint. cbn [fst].
    pose proof (Z.mod_pos_bound (Lcg.next r) (hi - lo + 1) ltac:(lia)).
    lia.
  - simpl. lia.
  - reflexivity.
  - lia.
  - exact E.
  - split; [exact Lc | exact Le].
Defined.


(** ** The game over and win states, and the restart (C9) *)

Section Restart.

Variable Rng : Type.
Variable seed : Z -> Rng.
Variable randint : Z -> Z -> Rng -> Z * Rng.
Variable choice : nat -> Rng -> nat * Rng.

(** [main] of game_full.py has no restart: its loop never leaves a
    terminal state. *)
Lemma full_run_terminal (a : Assets) (inputs : list Keys)
      (g : GameFull.Game) :
  GameFull.game_over g = true \/ GameFull.game_completed g = true ->
  GameFullMain.run a inputs g = Some g.
Proof.
  intro H. induction inputs as [| keys inputs IH]; simpl; [reflexivity |].
  rewrite (full_frame_terminal a keys g H). exact IH.
Qed.

(** Entries above the ground give one platform each, in their order. *)
Lemma spawn_platforms_above (a : Assets) (world_width : Z)
      (l : list (Z * Z)) (acc : list GameFinal.Platform) :
  Forall (fun xy => snd xy < GameFinal.SCREEN_HEIGHT - 40) l ->
  fold_left (GameFinal.spawn_platform a world_width) l acc
  = acc ++ map (platform_at a) l.
Proof.
  intro F. revert acc.
  induction F as [| [x y] l Hy _ IH]; intro acc; cbn [fold_left map].
  - symmetry. apply app_nil_r.
  - assert (Es : GameFinal.spawn_platform a world_width acc (x, y)
                 = acc ++ [platform_at a (x, y)]).
    { unfold GameFinal.spawn_platform. cbn [snd] in Hy.
      destruct (Z.geb_spec y (GameFinal.SCREEN_HEIGHT - 40)); [lia |].
      reflexivity. }
    rewrite Es, IH, <- app_assoc. reflexivity.
Qed.

(** Level 0 of the generated levels, loaded: what the game holds then. *)
Lemma first_level_loaded (a : Assets) (count : Z) (g0 : Rng)
      (g g' : GameFinal.Game Rng) :
  (forall (lo hi : Z) (r : Rng),
      lo <= hi -> lo <= fst (randint lo hi r) <= hi) ->
  GameFinal.levels g
  = fst (GameFinal.generate_levels seed randint count g0) ->
  0 < count ->
  GameFinal.load_level seed choice a 0 g = Some g' ->
  exists entries,
    getitem (GameFinal.levels g) 0
    = Some ((0, GameFinal.SCREEN_HEIGHT - 40) :: entries)
    /\ List.length entries = 8%nat
    /\ Forall (drawn_in_level 0) entries
    /\ GameFinal.world_width g' = fold_left Z.max (map fst entries) 0 + 500
    /\ GameFinal.platforms g'
       = ground_tiles a (GameFinal.world_width g')
           ++ map (platform_at a) entries
    /\ List.length (GameFinal.coins g') = 6%nat
    /\ Forall (fun c => exists xy,
                   In xy entries
                   /\ c = put_on (coin_w a) (coin_h a) (platform_at a xy))
              (GameFinal.coins g')
    /\ List.length (GameFinal.enemies g') = 3%nat
    /\ Forall (fun e => exists xy,
                   In xy entries
                   /\ GameFinal.enemy_rect e
                      = put_on (enemy_w a) (enemy_h a) (platform_at a xy)
                   /\ (GameFinal.enemy_direction e = -1
                       \/ GameFinal.enemy_direction e = 1)
                   /\ GameFinal.enemy_speed e = GameFinal.ENEMY_SPEED)
              (GameFinal.enemies g')
    /\ exists xy,
        In xy entries
        /\ (forall q, In q entries ->
                      key_le (platform_at a xy) (platform_at a q))
        /\ GameFinal.rect (GameFinal.player g')
           = Rect.set_midbottom (GameFinal.rect (GameFinal.player g))
                                (fst xy + 20) (snd xy)
        /\ GameFinal.vel_y (GameFinal.player g') = 0%Q.
Proof.
  intros Hr Hl Hc H.
  destruct (final_level_drawn Rng seed randint Hr 0 ltac:(lia))
    as (entries & E & L & F).
  assert (Eg : getitem (GameFinal.levels g) 0
               = Some ((0, GameFinal.SCREEN_HEIGHT - 40) :: entries))
    by (rewrite Hl, final_level_at by lia; rewrite E; reflexivity).
  exists entries. split; [exact Eg |]. split; [exact L |]. split; [exact F |].
  destruct (final_load_level_platforms Rng seed choice a 0 g g' _ Eg H)
    as (m & Em & Ew & Ep).
  cbn [map fst GameFinal.list_max] in Em. injection Em as <-.
  split; [exact Ew |].
  assert (Fy : Forall (fun xy => snd xy < GameFinal.SCREEN_HEIGHT - 40)
                      entries).
  { clear - F. induction F as [| xy l [_ Hy] _ IH]; constructor;
      [| exact IH].
    change (GameFinal.SCREEN_HEIGHT - 40) with 560.
    change (GameFinal.SCREEN_HEIGHT - 150) with 450 in Hy. lia. }
  assert (Epl : GameFinal.platforms g'
                = ground_tiles a (GameFinal.world_width g')
                    ++ map (platform_at a) entries).
  { rewrite Ep, Ew. cbn [fold_left].
    rewrite spawn_platforms_above by exact Fy. f_equal.
    unfold GameFinal.spawn_platform, ground_tiles.
    change (GameFinal.SCREEN_HEIGHT - 40 >=? GameFinal.SCREEN_HEIGHT - 40)
      with true. cbv iota.
    rewrite (fold_left_snoc
               (fun tx => Rect.mk tx (GameFinal.SCREEN_HEIGHT - 40)
                                  (platform_w a) (platform_h a))).
    reflexivity. }
  split; [exact Epl |].
  assert (Er : raised (GameFinal.platforms g') = map (platform_at a) entries).
  { rewrite Ep, spawn_platforms_raised. cbn [filter snd raised app].
    change (GameFinal.SCREEN_HEIGHT - 40 <? GameFinal.SCREEN_HEIGHT - 50)
      with false. cbv iota. f_equal.
    clear - F. induction F as [| xy l [_ Hy] _ IH]; simpl; [reflexivity |].
    change (GameFinal.SCREEN_HEIGHT - 50) with 550 in *.
    change (GameFinal.SCREEN_HEIGHT - 150) with 450 in Hy.
    destruct (Z.ltb_spec (snd xy) 550); [| lia]. f_equal. exact IH. }
  destruct (final_load_level_sprites Rng seed choice a 0 g g' H)
    as (Lc & Le & Fc & Fe).
  cbv zeta in Lc, Le, Fc, Fe. rewrite Er in Lc, Le, Fc, Fe.
  rewrite length_map, L in Lc, Le.
  split; [exact Lc |]. split.
  { eapply Forall_impl; [| exact Fc].
    intros c (plat & Hin & Ec). apply in_map_iff in Hin.
    destruct Hin as (xy & <- & Hin). exists xy. split; assumption. }
  split; [exact Le |]. split.
  { eapply Forall_impl; [| exact Fe].
    intros e (plat & Hin & Ee). apply in_map_iff in Hin.
    destruct Hin as (xy & <- & Hin). exists xy. split; assumption. }
  destruct (final_load_level_player Rng seed choice a 0 g g' H) as [Ep' _].
  destruct (GameFinal.sort (raised (GameFinal.platforms g')))
    as [| plat others] eqn:Es.
  - apply sort_nil in Es. rewrite Er in Es.
    destruct entries; [discriminate L | discriminate Es].
  - destruct (sort_head _ _ _ Es) as [Hin Hmin]. rewrite Er in Hin, Hmin.
    apply in_map_iff in Hin. destruct Hin as (xy & <- & Hin).
    injection Ep' as Erect Ev.
    exists xy. split; [exact Hin |]. split.
    + intros q Hq. apply Hmin, in_map, Hq.
    + split; [exact Erect | exact Ev].
Qed.

End Restart.

(** C9: while [game_over] or [game_completed] holds, a frame of
    game_full.py changes nothing at all.  In game_final.py a frame of
    [Game.run] under [game_over] or [game_won], and the loop of the game
    over and win screens for as long as no restart key comes, leave the
    player, the coins, the enemies, the score, the lives and the level
    index as they are (only [running] may be cleared, by a request to
    quit).  The restart key, on the game over screen as on the win screen
    of game_final.py, sets [level_index] to 0 and loads level 0, which
    puts [lives] back to 3 and [score] to 0 and clears both flags; on a
    list of generated levels the load always succeeds.  What the game
    holds after the restart is level 0 and nothing else: when
    [random.randint] stays within its bounds and the platform image has a
    positive width, the platforms are the tiles of the ground across the
    world followed by the 8 platforms drawn for level 0, the world is 500
    wider than the rightmost of these, there are 6 coins and 3 enemies,
    each put on one of the 8 platforms, and the player stands, stopped, on
    the highest of them.  game_full.py has no restart: its loop, run for
    any number of frames under any keys, leaves a terminal state as it
    is. *)
Theorem C9_terminal_states_freeze_the_simulation :
  (forall (a : Assets) (keys : Keys) (g : GameFull.Game),
      GameFull.game_over g = true \/ GameFull.game_completed g = true ->
      GameFull.frame a keys g = Some g)
  /\ (forall (Rng : Type) (seed : Z -> Rng)
             (choice : nat -> Rng -> nat * Rng) (a : Assets) (keys : Keys)
             (events : list GameFinal.Event) (g : GameFinal.Game Rng),
         GameFinal.game_over g = true \/ GameFinal.game_won g = true ->
         exists g',
           GameFinal.run_frame seed choice a keys events g = Some g'
           /\ same_simulation g g')
  /\ (forall (Rng : Type) (seed : Z -> Rng)
             (choice : nat -> Rng -> nat * Rng) (a : Assets)
             (batches : list (list GameFinal.Event))
             (g : GameFinal.Game Rng),
         forallb (forallb (fun e => negb (is_restart e))) batches = true ->
         exists g' waiting,
           GameFinal.handle_game_over seed choice a batches g
           = Some (g', waiting)
           /\ GameFinal.handle_win seed choice a batches g
              = Some (g', waiting)
           /\ same_simulation g g')
  /\ (forall (Rng : Type) (seed : Z -> Rng)
             (randint : Z -> Z -> Rng -> Z * Rng)
             (choice : nat -> Rng -> nat * Rng) (a : Assets) (count : Z)
             (g0 : Rng) (rest : list (list GameFinal.Event))
             (g : GameFinal.Game Rng),
         GameFinal.levels g
         = fst (GameFinal.generate_levels seed randint count g0) ->
         0 < count ->
         GameFinal.running g = true ->
         exists g',
           GameFinal.handle_game_over
             seed choice a ([GameFinal.KEYDOWN GameFinal.K_r] :: rest) g
           = Some (g', false)
           /\ GameFinal.handle_win
                seed choice a ([GameFinal.KEYDOWN GameFinal.K_r] :: rest) g
              = Some (g', false)
           /\ GameFinal.load_level seed choice a 0 (set_level_index 0 g)
              = Some g'
           /\ GameFinal.level_index g' = 0
           /\ GameFinal.lives (GameFinal.player g') = 3
           /\ GameFinal.score (GameFinal.player g') = 0
           /\ GameFinal.game_over g' = false
           /\ GameFinal.game_won g' = false
           /\ ((forall (lo hi : Z) (r : Rng),
                   lo <= hi -> lo <= fst (randint lo hi r) <= hi) ->
               0 < platform_w a ->
               exists entries,
                 getitem (GameFinal.levels g) 0
                 = Some ((0, GameFinal.SCREEN_HEIGHT - 40) :: entries)
                 /\ List.length entries = 8%nat
                 /\ Forall (drawn_in_level 0) entries
                 /\ GameFinal.world_width g'
                    = fold_left Z.max (map fst entries) 0 + 500
                 /\ GameFinal.platforms g'
                    = ground_tiles a (GameFinal.world_width g')
                        ++ map (platform_at a) entries
                 /\ List.length (GameFinal.coins g') = 6%nat
                 /\ Forall (fun c => exists xy,
                                In xy entries
                                /\ c = put_on (coin_w a) (coin_h a)
                                              (platform_at a xy))
                           (GameFinal.coins g')
                 /\ List.length (GameFinal.enemies g') = 3%nat
                 /\ Forall (fun e => exists xy,
                                In xy entries
                                /\ GameFinal.enemy_rect e
                                   = put_on (enemy_w a) (enemy_h a)
                                            (platform_at a xy)
                                /\ (GameFinal.enemy_direction e = -1
                                    \/ GameFinal.enemy_direction e = 1)
                                /\ GameFinal.enemy_speed e
                                   = GameFinal.ENEMY_SPEED)
                           (GameFinal.enemies g')
                 /\ exists xy,
                     In xy entries
                     /\ (forall q, In q entries ->
                                   key_le (platform_at a xy)
                                          (platform_at a q))
                     /\ GameFinal.rect (GameFinal.player g')
                        = Rect.set_midbottom
                            (GameFinal.rect (GameFinal.player g))
                            (fst xy + 20) (snd xy)
                     /\ GameFinal.vel_y (GameFinal.player g') = 0%Q))
  /\ (forall (a : Assets) (inputs : list Keys) (g : GameFull.Game),
         GameFull.game_over g = true \/ GameFull.game_completed g = true ->
         GameFullMain.run a inputs g = Some g).
Proof.
  split; [exact full_frame_terminal |]. split; [| split; [| split]].
  - intros Rng seed choice a keys events g H.
    rewrite (final_frame_terminal Rng seed choice a keys events g H).
    eexists. split; [reflexivity |].
    destruct (GameFinal.quit_requested events);
      [apply same_simulation_stop |]; apply same_simulation_refl.
  - intros Rng seed choice a batches g H.
    destruct (wait_loop_quiet Rng seed choice a batches g H)
      as (g' & w & E & Hs).
    exists g', w. split; [exact E |]. split; [exact E | exact Hs].
  - intros Rng seed randint choice a count g0 rest g Hl Hc Hr.
    destruct (final_load_level_total Rng seed randint choice a count g0
                                     (set_level_index 0 g) 0%nat)
      as [g' E]; [exact Hl | lia |].
    change (Z.of_nat 0) with 0 in E.
    destruct (load_level_resets Rng seed choice a 0 _ g' E)
      as (Hi & _ & Hlives & Hscore & Hover & Hwon & _).
    assert (Eo : GameFinal.handle_game_over
                   seed choice a ([GameFinal.KEYDOWN GameFinal.K_r] :: rest) g
                 = Some (g', false)).
    { cbn [GameFinal.handle_game_over fold_left]. rewrite Hr.
      rewrite wait_event_restart, E. reflexivity. }
    exists g'. split; [exact Eo |]. split; [exact Eo |].
    split; [exact E |]. split; [exact Hi |]. split; [exact Hlives |].
    split; [exact Hscore |]. split; [exact Hover |]. split; [exact Hwon |].
    intros Hrange _.
    exact (first_level_loaded Rng seed randint choice a count g0
                              (set_level_index 0 g) g' Hrange Hl Hc E).
  - exact full_run_terminal.
Qed.

(** A lost game of game_full.py, which two more frames leave as it is;
    and a lost game of game_final.py, on its thirty levels, at the restart
    key: it holds the 6 coins and the 3 enemies of level 0 again, on
    a world that is at least 550 wide. *)
Lemma C9_terminal_states_freeze_the_simulation_witness :
  let a := mkAssets 120 20 40 60 20 20 40 40 in
  let g := GameFull.mkGame [] 3 7 0 true false [] [] [] 2300
                           (GameFull.mkPlayer (Rect.mk 100 400 40 60) 0%Q
                                              false) 0 in
  let f := GameFinal.mkGame
             true [] [] []
             (GameFinal.mkPlayer (Rect.mk 100 400 40 60) 1 0 0%Q false
                                 false 0 0 7)
             4 (fst (GameFinal.generate_levels Lcg.seed Lcg.randint 30 0))
             2500 true false None 0 in
  GameFull.frame a no_keys g = Some g
  /\ GameFullMain.run a [no_keys; key_right] g = Some g
  /\ exists f',
      GameFinal.handle_game_over
        Lcg.seed Lcg.choice a [[GameFinal.KEYDOWN GameFinal.K_r]] f
      = Some (f', false)
      /\ GameFinal.level_index f' = 0
      /\ GameFinal.lives (GameFinal.player f') = 3
      /\ GameFinal.score (GameFinal.player f') = 0
      /\ List.length (GameFinal.coins f') = 6%nat
      /\ List.length (GameFinal.enemies f') = 3%nat
      /\ (List.length (GameFinal.platforms f') >= 8)%nat.
Proof.
  intros a g f. split; [| split].
  - apply (proj1 C9_terminal_states_freeze_the_simulation a no_keys g).
    left. reflexivity.
  - apply (proj2 (proj2 (proj2 (proj2
             C9_terminal_states_freeze_the_simulation)))).
    left. reflexivity.
  - destruct (proj1 (proj2 (proj2 (proj2
                C9_terminal_states_freeze_the_simulation)))
                    Z Lcg.seed Lcg.randint Lcg.choice a 30 0 [] f
                    eq_refl eq_refl eq_refl)
      as (f' & E & _ & _ & Hi & Hl & Hs & _ & _ & Hc).
    destruct Hc as (entries & _ & L & _ & _ & Ep & Lc & _ & Le & _).
    + intros lo hi r H. unfold Lcg.randint. cbn [fst].
      pose proof (Z.mod_pos_bound (Lcg.next r) (hi - lo + 1) ltac:(lia)).
      lia.
    + simpl. lia.
    + exists f'. split; [exact E |]. split; [exact Hi |].
      split; [exact Hl |]. split; [exact Hs |]. split; [exact Lc |].
      split; [exact Le |].
      rewrite Ep, length_app, length_map, L. lia.
Defined.

(** ** game_final.py: what the program never does *)

Section FinalNever.

Variable Rng : Type.
Variable seed : Z -> Rng.
Variable randint : Z -> Z -> Rng -> Z * Rng.
Variable choice : nat -> Rng -> nat * Rng.
Variable g0 : Rng.

Lemma update_entities_keeps (a : Assets) (g g' : GameFinal.Game Rng) :
  GameFinal.update_entities seed choice a g = Some g' ->
  GameFinal.levels g' = GameFinal.levels g
  /\ GameFinal.level_index g <= GameFinal.level_index g'.
Proof.
  intro H.
  destruct (update_entities_cases Rng seed choice a g g' H)
    as [[-> _] | [(_ & _ & _ & ->) | (_ & _ & _ & El)]].
  - match goal with
    | |- context [GameFinal.fall ?x] =>
        destruct (fall_keeps Rng x) as (_ & _ & _ & Ei & El & _)
    end.
    rewrite Ei, El. cbn [GameFinal.levels GameFinal.level_index].
    split; [reflexivity | lia].
  - match goal with
    | |- context [GameFinal.fall ?x] =>
        destruct (fall_keeps Rng x) as (_ & _ & _ & Ei & El & _)
    end.
    rewrite Ei, El. cbn [GameFinal.levels GameFinal.level_index].
    split; [reflexivity | lia].
  - apply load_level_resets in El. destruct El as (Ei & El & _).
    rewrite Ei, El. cbn [GameFinal.levels GameFinal.level_index].
    split; [reflexivity | lia].
Qed.

Lemma run_frame_sound (a : Assets) (keys : Keys)
      (events : list GameFinal.Event) (g g' : GameFinal.Game Rng) :
  final_sound seed randint g0 g ->
  GameFinal.run_frame seed choice a keys events g = Some g' ->
  final_sound seed randint g0 g'.
Proof.
  intros [Hl Hi]. unfold GameFinal.run_frame.
  set (g1 := if GameFinal.quit_requested events then _ else g).
  assert (H1 : GameFinal.levels g1 = GameFinal.levels g
               /\ GameFinal.level_index g1 = GameFinal.level_index g)
    by (unfold g1; destruct (GameFinal.quit_requested events);
        split; reflexivity).
  clearbody g1.
  set (g2 := if negb (GameFinal.game_over g1) && negb (GameFinal.game_won g1)
             then _ else g1).
  assert (H2 : GameFinal.levels g2 = GameFinal.levels g
               /\ GameFinal.level_index g2 = GameFinal.level_index g)
    by (unfold g2;
        destruct (negb (GameFinal.game_over g1)
                  && negb (GameFinal.game_won g1)); exact H1).
  clearbody g2. destruct H2 as [E2 I2].
  destruct (negb (GameFinal.game_over g2) && negb (GameFinal.game_won g2)).
  - intro H. apply update_entities_keeps in H. destruct H as [El Ei].
    split; [congruence | lia].
  - intro E. injection E as <-. split; [congruence | lia].
Qed.

Lemma wait_events_sound (a : Assets) (events : list GameFinal.Event)
      (g : GameFinal.Game Rng) (waiting : bool) :
  final_sound seed randint g0 g ->
  exists g' waiting',
    fold_left (GameFinal.wait_event seed choice a) events
              (Some (g, waiting)) = Some (g', waiting')
    /\ final_sound seed randint g0 g'.
Proof.
  revert g waiting.
  induction events as [| e events IH]; intros g waiting Hs; cbn [fold_left].
  - exists g, waiting. split; [reflexivity | exact Hs].
  - destruct e as [| key |]; cbn [GameFinal.wait_event].
    + apply IH. exact Hs.
    + destruct (key =? GameFinal.K_r).
      * match goal with
        | |- context [GameFinal.load_level seed choice a ?i ?x] =>
            destruct (final_load_level_total
                        Rng seed randint choice a GameFinal.LEVEL_COUNT
                        g0 x 0 (proj1 Hs) ltac:(vm_compute; lia))
              as [g1 E1]
        end.
        cbn [GameFinal.level_index Z.of_nat] in *. rewrite E1.
        cbn [option_map]. apply IH.
        apply load_level_resets in E1. destruct E1 as (Ei & El & _).
        split; [rewrite El; exact (proj1 Hs) | rewrite Ei; simpl; lia].
      * apply IH. exact Hs.
    + apply IH. exact Hs.
Qed.

Lemma handle_game_over_sound (a : Assets)
      (batches : list (list GameFinal.Event)) (g : GameFinal.Game Rng) :
  final_sound seed randint g0 g ->
  exists g' waiting,
    GameFinal.handle_game_over seed choice a batches g = Some (g', waiting)
    /\ final_sound seed randint g0 g'.
Proof.
  revert g. induction batches as [| events batches IH]; intros g Hs;
    cbn [GameFinal.handle_game_over].
  - exists g, true. split; [reflexivity | exact Hs].
  - destruct (GameFinal.running g);
      [| exists g, true; split; [reflexivity | exact Hs]].
    destruct (wait_events_sound a events g true Hs) as (g1 & w1 & E & Hs1).
    rewrite E. destruct w1.
    + apply IH. exact Hs1.
    + exists g1, false. split; [reflexivity | exact Hs1].
Qed.

Lemma final_run_total (a : Assets) (inputs : list GameFinalMain.Input)
      (g : GameFinal.Game Rng) :
  final_sound seed randint g0 g ->
  exists g', GameFinalMain.run seed choice a inputs g = Some g'.
Proof.
  revert g. induction inputs as [| i inputs IH]; intros g Hs;
    cbn [GameFinalMain.run].
  - exists g. reflexivity.
  - destruct (GameFinal.running g); [| exists g; reflexivity].
    destruct (final_frame_total
                Rng seed randint choice a (GameFinalMain.keys i)
                (GameFinalMain.events i) GameFinal.LEVEL_COUNT g0 g
                (proj1 Hs) (proj2 Hs)) as [g1 E1].
    rewrite E1.
    pose proof (run_frame_sound a _ _ g g1 Hs E1) as Hs1.
    destruct (GameFinal.game_over g1 || GameFinal.game_won g1);
      [| apply IH; exact Hs1].
    unfold GameFinal.handle_win.
    destruct (handle_game_over_sound a (GameFinalMain.screen_events i)
                                     g1 Hs1) as (g2 & w2 & E2 & Hs2).
    assert (E : (if GameFinal.game_over g1
                 then GameFinal.handle_game_over
                        seed choice a (GameFinalMain.screen_events i) g1
                 else GameFinal.handle_game_over
                        seed choice a (GameFinalMain.screen_events i) g1)
                = Some (g2, w2))
      by (destruct (GameFinal.game_over g1); exact E2).
    rewrite E.
    destruct (w2 && GameFinal.running g2); [exists g2; reflexivity |].
    apply IH. exact Hs2.
Qed.

Lemma final_initial_sound (a : Assets) :
  exists gi,
    GameFinalMain.initial seed randint choice a g0 = Some gi
    /\ final_sound seed randint g0 gi.
Proof.
  unfold GameFinalMain.initial.
  destruct (GameFinal.generate_levels seed randint GameFinal.LEVEL_COUNT g0)
    as [levels r] eqn:Eg.
  match goal with
  | |- context [GameFinal.load_level seed choice a 0 ?x] =>
      destruct (final_load_level_total
                  Rng seed randint choice a GameFinal.LEVEL_COUNT g0 x 0)
        as [gi Ei]
  end.
  - cbn [GameFinal.levels]. rewrite Eg. reflexivity.
  - vm_compute. lia.
  - cbn [Z.of_nat] in Ei. exists gi. split; [exact Ei |].
    apply load_level_resets in Ei. destruct Ei as (Ei & El & _).
    split; [rewrite El; cbn [GameFinal.levels]; rewrite Eg; reflexivity |].
    rewrite Ei. simpl. lia.
Qed.

End FinalNever.

(** X19: game_final.py raises no exception from its own logic, whatever
    the generator draws, the keys and the events: [Game.__init__] finds
    level 0 in the list it has generated, [max] is never applied to an
    empty list since every level holds its ground, and neither the end
    of a level nor the restart key reads the list of levels out of range.
    From the start, every sequence of iterations of [Game.run] yields a
    state.  (The platform image is taken to have a positive width, the
    step of the [range] that tiles the ground.) *)
Theorem X19_final_program_never_raises :
  forall (Rng : Type) (seed : Z -> Rng)
         (randint : Z -> Z -> Rng -> Z * Rng)
         (choice : nat -> Rng -> nat * Rng) (a : Assets) (g0 : Rng)
         (inputs : list GameFinalMain.Input),
    0 < platform_w a ->
    exists gi g,
      GameFinalMain.initial seed randint choice a g0 = Some gi
      /\ GameFinalMain.run seed choice a inputs gi = Some g.
Proof.
  intros Rng seed randint choice a g0 inputs _.
  destruct (final_initial_sound Rng seed randint choice g0 a)
    as (gi & Ei & Hs).
  destruct (final_run_total Rng seed randint choice g0 a inputs gi Hs)
    as [g Er].
  exists gi, g. split; assumption.
Qed.

(** The start of game_final.py and two iterations, the second with the
    window closed. *)
Lemma X19_final_program_never_raises_witness :
  exists gi g,
    GameFinalMain.initial Lcg.seed Lcg.randint Lcg.choice sample_assets 1
    = Some gi
    /\ GameFinalMain.run
         Lcg.seed Lcg.choice sample_assets
         [GameFinalMain.mkInput key_right [] [];
          GameFinalMain.mkInput no_keys [GameFinal.QUIT] []]
         gi
       = Some g.
Proof.
  apply (X19_final_program_never_raises
           Z Lcg.seed Lcg.randint Lcg.choice sample_assets 1).
  simpl. lia.
Defined.


(** ** Standing on a platform, frame after frame *)

Section Flicker.

Lemma add_y_half (r : Rect.t) :
  0 <= Rect.y r -> Rect.add_y r (1 # 2) = r.
Proof.
  intro Hy. rewrite (proj1 (add_y_rounds r (1 # 2))).
  - change (Qfloor (1 # 2)) with 0. destruct r as [x y w h].
    unfold Rect.set_y. cbn [Rect.x Rect.y Rect.w Rect.h].
    rewrite Z.add_0_r. reflexivity.
  - apply Qle_trans with (inject_Z 0 + 0)%Q; [unfold Qle; simpl; lia |].
    apply Qplus_le_compat; [rewrite <- Zle_Qle; exact Hy |].
    unfold Qle. simpl. lia.
Qed.

Lemma add_y_one (r : Rect.t) : 0 <= Rect.y r -> Rect.add_y r 1 = sunk r.
Proof.
  intro Hy. rewrite (proj1 (add_y_rounds r 1)).
  - reflexivity.
  - apply Qle_trans with (inject_Z 0 + 0)%Q; [unfold Qle; simpl; lia |].
    apply Qplus_le_compat; [rewrite <- Zle_Qle; exact Hy |].
    unfold Qle. simpl. lia.
Qed.

Lemma raised_back (r : Rect.t) (q : Rect.t) :
  Rect.top q = Rect.bottom r ->
  Rect.set_bottom (sunk r) (Rect.top q) = r.
Proof.
  intro H. destruct r as [x y w h].
  unfold Rect.set_bottom, sunk, Rect.set_y, Rect.bottom in *.
  cbn [Rect.x Rect.y Rect.w Rect.h] in *. rewrite H. f_equal. lia.
Qed.

(** The landing guard of game_full.py holds for a player that has sunk
    one unit at speed 1. *)
Lemma sunk_guard (r q : Rect.t) :
  Rect.top q = Rect.bottom r ->
  Float.leb (Float.sub (Float.of_int (Rect.bottom (sunk r))) 1)
            (Float.of_int (Rect.top q)) = true.
Proof.
  intro H. apply leb_le. unfold Float.sub, Float.of_int.
  rewrite Qred_correct, H.
  assert (E : Rect.bottom (sunk r) = Rect.bottom r + 1)
    by (unfold Rect.bottom, sunk, Rect.set_y; simpl; lia).
  rewrite E, inject_Z_plus. unfold Qle, Qminus, Qplus, Qopp, inject_Z.
  simpl. lia.
Qed.

Lemma main_horizontal_idle (l : list Rect.t) (r : Rect.t) :
  fold_left (MainPy.horizontal_step 0) l r = r.
Proof.
  induction l as [| q l IH]; simpl; [reflexivity |].
  unfold MainPy.horizontal_step at 2.
  destruct (Rect.colliderect r q); exact IH.
Qed.

Lemma set_x_same (r : Rect.t) : Rect.set_x r (Rect.x r + 0) = r.
Proof.
  destruct r as [x y w h]. unfold Rect.set_x. simpl.
  rewrite Z.add_0_r. reflexivity.
Qed.

End Flicker.

(** X20: in main.py and game_full.py a player that stands still on a
    platform is grounded every other frame only.  From rest ([vel_y = 0],
    bottom on the platforms, no key) one update leaves the player in
    place, falling at one half and not grounded; the next one sinks it a
    unit into the platform and puts it back, at rest and grounded.  A
    jump key that is pressed in the frame between is ignored. *)
Theorem X20_standing_player_is_grounded_every_other_frame :
  forall (platforms : list Rect.t) (r : Rect.t),
    rests_on r platforms ->
    (forall (g : bool),
        GameFull.update platforms (GameFull.mkPlayer r 0 g)
        = GameFull.mkPlayer r (1 # 2) false)
    /\ GameFull.update platforms (GameFull.mkPlayer r (1 # 2) false)
       = GameFull.mkPlayer r 0 true
    /\ (forall (keys : Keys),
           snd (GameFull.handle_input keys
                                      (GameFull.mkPlayer r (1 # 2) false))
           = GameFull.mkPlayer r (1 # 2) false)
    /\ (forall (vx : Z) (g : bool),
           MainPy.update no_keys platforms (MainPy.mkPlayer r vx 0 g)
           = MainPy.mkPlayer r 0 (1 # 2) false)
    /\ (forall (vx : Z),
           MainPy.update key_space platforms
                         (MainPy.mkPlayer r vx (1 # 2) false)
           = MainPy.mkPlayer r 0 0 true).
Proof.
  intros platforms r (Hy & Hno & (q0 & Hq0 & Hc0) & Htop).
  destruct (first_such (Rect.colliderect (sunk r)) platforms q0 Hq0 Hc0)
    as (pre & P & post & Epl & Hpre & HP).
  assert (HPin : In P platforms)
    by (rewrite Epl; apply in_or_app; right; left; reflexivity).
  pose proof (Htop P HPin HP) as HPtop.
  split; [| split; [| split; [| split]]].
  - intro g. unfold GameFull.update. cbn [GameFull.vel_y GameFull.rect].
    change (GameFull.apply_gravity 0) with (1 # 2)%Q.
    rewrite (add_y_half r Hy). unfold GameFull.vertical_collisions.
    cbn [GameFull.vel_y GameFull.rect].
    induction platforms as [| q l IH] in Hno |- *; [reflexivity |].
    cbn [fold_left]. unfold GameFull.vertical_step at 2.
    cbn [GameFull.rect]. rewrite (Hno q (or_introl eq_refl)).
    apply IH. intros q' Hq'. apply Hno. right. exact Hq'.
  - unfold GameFull.update.
    cbn [GameFull.vel_y GameFull.rect GameFull.on_ground].
    change (GameFull.apply_gravity (1 # 2)) with 1%Q.
    rewrite (add_y_one r Hy), Epl.
    rewrite (full_lands_on_first pre post P
               (GameFull.mkPlayer (sunk r) 1 false)).
    + cbn [GameFull.rect]. rewrite (raised_back r P HPtop). reflexivity.
    + reflexivity.
    + intros q Hq. unfold full_lands. cbn [GameFull.rect].
      rewrite (Hpre q Hq). reflexivity.
    + unfold full_lands. cbn [GameFull.rect GameFull.vel_y].
      rewrite HP, (sunk_guard r P HPtop). reflexivity.
  - intro keys. unfold GameFull.handle_input. cbn [GameFull.on_ground].
    rewrite andb_false_r. reflexivity.
  - intros vx g. unfold MainPy.update.
    cbn [MainPy.on_ground MainPy.vy MainPy.rect K_LEFT K_RIGHT K_SPACE
         no_keys andb].
    change (MainPy.apply_gravity 0) with (1 # 2)%Q.
    rewrite set_x_same, main_horizontal_idle, (add_y_half r Hy).
    unfold MainPy.vertical_collisions.
    cbn [MainPy.rect MainPy.vx MainPy.vy].
    apply main_pass_no_overlap. exact Hno.
  - intro vx. unfold MainPy.update.
    cbn [MainPy.on_ground MainPy.vy MainPy.rect K_LEFT K_RIGHT K_SPACE
         key_space andb].
    change (MainPy.apply_gravity (1 # 2)) with 1%Q.
    rewrite set_x_same, main_horizontal_idle, (add_y_one r Hy), Epl.
    rewrite (main_lands_on_first pre post P
               (MainPy.mkPlayer (sunk r) 0 1 false)).
    + cbn [MainPy.rect MainPy.vx]. rewrite (raised_back r P HPtop).
      reflexivity.
    + reflexivity.
    + exact Hpre.
    + exact HP.
Qed.

(** A player that stands on the first platform of a level. *)
Lemma X20_standing_player_is_grounded_every_other_frame_witness :
  let platforms := [Rect.mk 100 540 120 20; Rect.mk 320 500 120 20] in
  let r := Rect.mk 110 480 40 60 in
  GameFull.update platforms (GameFull.mkPlayer r 0 true)
  = GameFull.mkPlayer r (1 # 2) false
  /\ GameFull.update platforms (GameFull.mkPlayer r (1 # 2) false)
     = GameFull.mkPlayer r 0 true.
Proof.
  intros platforms r.
  assert (H : rests_on r platforms).
  { split; [simpl; lia |].
    split; [intros q [<- | [<- | []]]; reflexivity |].
    split; [exists (Rect.mk 100 540 120 20);
            split; [left; reflexivity | reflexivity] |].
    intros q [<- | [<- | []]] Hc; [reflexivity | discriminate Hc]. }
  destruct (X20_standing_player_is_grounded_every_other_frame platforms r H)
    as (H1 & H2 & _).
  split; [exact (H1 true) | exact H2].
Defined.


(** ** game_final.py: several platforms in the way *)

Section Sideways.

Lemma final_horizontal_keeps (vx : Z) (l : list GameFinal.Platform)
      (r : Rect.t) :
  let r' := fold_left (GameFinal.horizontal_step vx) l r in
  Rect.y r' = Rect.y r /\ Rect.w r' = Rect.w r /\ Rect.h r' = Rect.h r.
Proof.
  cbv zeta. revert r. induction l as [| q l IH]; intro r; cbn [fold_left].
  - repeat split.
  - destruct (IH (GameFinal.horizontal_step vx r q)) as (Ey & Ew & Eh).
    rewrite Ey, Ew, Eh. unfold GameFinal.horizontal_step.
    destruct (vx >? 0); [repeat split |].
    destruct (vx <? 0); repeat split.
Qed.

Lemma final_horizontal_idle (l : list GameFinal.Platform) (r : Rect.t) :
  fold_left (GameFinal.horizontal_step 0) l r = r.
Proof. induction l as [| q l IH]; simpl; [reflexivity | exact IH]. Qed.

End Sideways.

(** X21: in the horizontal pass of game_final.py the last platform
    overlapped decides.  The platforms that overlap the player are
    collected first; the loop then puts the player against each in turn,
    without testing again, so that the player ends against the last of
    them in the order of the group: its right edge at the left of that
    platform when it moves right, its left edge at the right of that
    platform when it moves left.  A player with [vel_x = 0], or that
    overlaps no platform, is not moved; and nothing but the abscissa of
    the player changes. *)
Theorem X21_final_last_overlapped_platform_decides_sideways :
  forall (platforms : list GameFinal.Platform) (p : GameFinal.Player),
    let hits := filter (Rect.colliderect (GameFinal.rect p)) platforms in
    let p' := GameFinal.handle_horizontal_collisions platforms p in
    p' = GameFinal.set_rect p (GameFinal.rect p')
    /\ (GameFinal.vel_x p = 0 \/ hits = [] ->
        GameFinal.rect p' = GameFinal.rect p)
    /\ (forall (pre : list GameFinal.Platform) (P : GameFinal.Platform),
           hits = pre ++ [P] ->
           (0 < GameFinal.vel_x p ->
            GameFinal.rect p'
            = Rect.set_right (GameFinal.rect p) (Rect.left P))
           /\ (GameFinal.vel_x p < 0 ->
               GameFinal.rect p'
               = Rect.set_left (GameFinal.rect p) (Rect.right P))).
Proof.
  intros platforms p hits p'.
  assert (Er : GameFinal.rect p'
               = fold_left (GameFinal.horizontal_step (GameFinal.vel_x p))
                           hits (GameFinal.rect p)) by reflexivity.
  split; [reflexivity |]. rewrite Er. clear Er. split.
  - intros [E | E]; rewrite E; [apply final_horizontal_idle | reflexivity].
  - intros pre P E. rewrite E, fold_left_app. cbn [fold_left].
    destruct (final_horizontal_keeps (GameFinal.vel_x p) pre
                                     (GameFinal.rect p)) as (Ey & Ew & Eh).
    unfold GameFinal.horizontal_step at 1 3.
    set (r1 := fold_left _ pre (GameFinal.rect p)) in *. clearbody r1.
    destruct r1 as [x1 y1 w1 h1]. destruct (GameFinal.rect p) as [x y w h].
    cbn [Rect.y Rect.w Rect.h] in *. subst y1 w1 h1.
    split; intro Hv.
    + apply Z.gtb_lt in Hv. rewrite Hv. reflexivity.
    + assert (Hn : (GameFinal.vel_x p >? 0) = false)
        by (rewrite Z.gtb_ltb; apply Z.ltb_ge; lia).
      apply Z.ltb_lt in Hv. rewrite Hn, Hv. reflexivity.
Qed.

(** A player that moves right into two platforms at once: the second of
    the group decides. *)
Lemma X21_final_last_overlapped_platform_decides_sideways_witness :
  let platforms := [Rect.mk 130 400 100 20; Rect.mk 120 440 100 20] in
  let p := GameFinal.mkPlayer (Rect.mk 100 400 40 60) 1 5 0 false false
                              0 3 0 in
  GameFinal.rect (GameFinal.handle_horizontal_collisions platforms p)
  = Rect.mk 80 400 40 60.
Proof.
  intros platforms p.
  exact (proj1 (proj2 (proj2
                         (X21_final_last_overlapped_platform_decides_sideways
                            platforms p))
                      [Rect.mk 130 400 100 20] (Rect.mk 120 440 100 20)
                      eq_refl)
               ltac:(simpl; lia)).
Defined.

(** ** The animation counters *)

Section AnimationFacts.

Lemma py_mod_range (i n : Z) :
  0 < n -> exists k, Animation.py_mod i n = Some k /\ 0 <= k < n.
Proof.
  intro H. unfold Animation.py_mod.
  destruct (Z.eqb_spec n 0); [lia |].
  exists (i mod n). split; [reflexivity | apply Z.mod_pos_bound, H].
Qed.

End AnimationFacts.

(** X22: the animation counters always hold an index of an image.  With
    [n] images and an index from [0] to [n - 1], an update of the player
    of game_full.py, of a coin of game_full.py and game_ultra.py, and of
    a coin of game_final.py leaves an index from [0] to [n - 1]; so does
    an update of the player of game_ultra.py when there are two images or
    more, and with one image only its modulo by [len(self.frames) - 1]
    divides by zero once the timer of a moving player reaches 8.  The index
    advances by one, modulo [n], every 8 updates of the player of
    game_full.py and every 10 updates of a coin; and the first running
    image that game_ultra.py shows after the idle one is the second, not
    the first. *)
Theorem X22_animation_index_stays_in_range :
  forall (n : Z) (s : Animation.t),
    0 <= Animation.frame_index s < n ->
    (exists s', Animation.full_player n s = Some s'
                /\ 0 <= Animation.frame_index s' < n)
    /\ (exists s', Animation.coin n s = Some s'
                   /\ 0 <= Animation.frame_index s' < n)
    /\ (exists s', Animation.final_coin n s = Some s'
                   /\ 0 <= Animation.frame_index s' < n)
    /\ (forall moving : bool,
           1 < n ->
           exists s', Animation.ultra_player n moving s = Some s'
                      /\ 0 <= Animation.frame_index s' < n)
    /\ (7 <= Animation.frame_timer s ->
        Animation.ultra_player 1 true s = None)
    /\ Animation.repeat (Animation.full_player n) 8
                        (Animation.mk (Animation.frame_index s) 0)
       = Some (Animation.mk ((Animation.frame_index s + 1) mod n) 0)
    /\ Animation.repeat (Animation.coin n) 10
                        (Animation.mk (Animation.frame_index s) 0)
       = Some (Animation.mk ((Animation.frame_index s + 1) mod n) 0)
    /\ (2 < n -> 7 <= Animation.frame_timer s ->
        Animation.ultra_player
          n true (Animation.mk 0 (Animation.frame_timer s))
        = Some (Animation.mk 2 0)).
Proof.
  intros n s Hs. assert (Hn : 0 < n) by lia.
  assert (Hz : (n =? 0) = false) by (apply Z.eqb_neq; lia).
  repeat split.
  - unfold Animation.full_player.
    destruct (Animation.frame_timer s + 1 >=? 8);
      [| eexists; split; [reflexivity | exact Hs]].
    destruct (py_mod_range (Animation.frame_index s + 1) n Hn)
      as (k & -> & Hk).
    eexists. split; [reflexivity | exact Hk].
  - unfold Animation.coin.
    destruct (Animation.frame_timer s + 1 >=? 10);
      [| eexists; split; [reflexivity | exact Hs]].
    destruct (py_mod_range (Animation.frame_index s + 1) n Hn)
      as (k & -> & Hk).
    eexists. split; [reflexivity | exact Hk].
  - unfold Animation.final_coin.
    destruct ((Animation.frame_timer s + 1) mod 10 =? 0);
      [| eexists; split; [reflexivity | exact Hs]].
    destruct (py_mod_range (Animation.frame_index s + 1) n Hn)
      as (k & -> & Hk).
    eexists. split; [reflexivity | exact Hk].
  - intros moving H1. unfold Animation.ultra_player.
    destruct moving; [| eexists; split; [reflexivity | simpl; lia]].
    destruct (Animation.frame_timer s + 1 >=? 8);
      [| eexists; split; [reflexivity | exact Hs]].
    destruct (py_mod_range (Animation.frame_index s + 1) (n - 1)
                           ltac:(lia)) as (k & -> & Hk).
    eexists. split; [reflexivity | simpl; lia].
  - intro Ht. unfold Animation.ultra_player, Animation.py_mod.
    assert (Hge : (Animation.frame_timer s + 1 >=? 8) = true)
      by (rewrite Z.geb_leb; apply Z.leb_le; lia).
    rewrite Hge. reflexivity.
  - unfold Animation.repeat, Animation.full_player, Animation.py_mod.
    cbn [Animation.frame_timer Animation.frame_index Z.add Z.geb
         Z.compare Pos.add Pos.succ Pos.compare Pos.compare_cont
         option_map].
    rewrite Hz. reflexivity.
  - unfold Animation.repeat, Animation.coin, Animation.py_mod.
    cbn [Animation.frame_timer Animation.frame_index Z.add Z.geb
         Z.compare Pos.add Pos.succ Pos.compare Pos.compare_cont
         option_map].
    rewrite Hz. reflexivity.
  - intros H2 Ht. unfold Animation.ultra_player, Animation.py_mod.
    cbn [Animation.frame_timer Animation.frame_index].
    assert (Hge : (Animation.frame_timer s + 1 >=? 8) = true)
      by (rewrite Z.geb_leb; apply Z.leb_le; lia).
    rewrite Hge.
    assert (Hz1 : (n - 1 =? 0) = false) by (apply Z.eqb_neq; lia).
    rewrite Hz1. cbn [option_map]. change (0 + 1) with 1.
    rewrite Z.mod_small by lia. reflexivity.
Qed.

(** The player of game_ultra.py, with its four images, at the third
    running image. *)
Lemma X22_animation_index_stays_in_range_witness :
  exists s', Animation.ultra_player 4 true (Animation.mk 3 7) = Some s'
             /\ 0 <= Animation.frame_index s' < 4.
Proof.
  apply (proj1 (proj2 (proj2 (proj2 (X22_animation_index_stays_in_range
                                       4 (Animation.mk 3 7)
                                       ltac:(simpl; lia)))))).
  lia.
Defined.


(** ** game_ultra.py: the loop of [main] *)

Section UltraLoop.

Lemma ultra_place_platforms (a : Assets) (base_y step : Z) (l : list Z)
      (acc : GameFull.LevelData) :
  GameFull.data_platforms
    (fold_left (GameUltraMain.place_platform a base_y step) l acc)
  = GameFull.data_platforms acc
      ++ map (fun j => (100 + j * step, base_y + - (j mod 4 * 30))) l.
Proof.
  revert acc. induction l as [| j l IH]; intro acc; cbn [fold_left map].
  - rewrite app_nil_r. reflexivity.
  - rewrite IH. unfold GameUltraMain.place_platform.
    cbn [GameFull.data_platforms]. rewrite <- app_assoc. reflexivity.
Qed.

Lemma ultra_generate_levels_map (n sh : Z) (a : Assets) :
  GameUltraMain.generate_levels n sh a
  = map (GameUltraMain.generate_level sh a) (range n).
Proof.
  unfold GameUltraMain.generate_levels.
  apply (fold_left_snoc (GameUltraMain.generate_level sh a) (range n) []).
Qed.

Lemma ultra_level_at (n sh : Z) (a : Assets) (i : Z) :
  0 <= i < n ->
  getitem (GameUltraMain.generate_levels n sh a) i
  = Some (GameUltraMain.generate_level sh a i).
Proof.
  intro H. rewrite <- (Z2Nat.id i) at 1 by lia. apply getitem_nth.
  rewrite ultra_generate_levels_map.
  rewrite (nth_error_map (GameUltraMain.generate_level sh a)).
  rewrite range_nth by lia. cbn [option_map]. rewrite Z2Nat.id by lia.
  reflexivity.
Qed.

Lemma range_head (n : Z) : 0 < n -> exists tl, range n = 0 :: tl.
Proof.
  intro H. unfold range. destruct (Z.to_nat n) as [| k] eqn:E; [lia |].
  eexists. reflexivity.
Qed.

(** Every level of the list has a first platform, and the spawn point is
    read off it. *)
Lemma ultra_load_ok (a : Assets) (i : Z) :
  0 <= i < 30 ->
  exists P rest co en len,
    GameUltraMain.load_level
      a (GameUltraMain.generate_levels 30 GameUltraMain.screen_height a) i
    = Some (P :: rest, co, en, len)
    /\ Rect.w P = platform_w a
    /\ NoDup (ids co)
    /\ GameUltraMain.spawn a (P :: rest)
       = Some (Rect.x P + 10, Rect.y P - player_h a).
Proof.
  intro H. unfold GameUltraMain.load_level.
  rewrite (ultra_level_at 30 GameUltraMain.screen_height a i H).
  unfold GameUltraMain.generate_level at 1.
  rewrite ultra_place_platforms. cbn [GameFull.data_platforms app].
  assert (0 <= i / 3) by (apply Z.div_pos; lia).
  destruct (range_head (10 + i / 3) ltac:(lia)) as [tl ->].
  cbn [map fst snd]. do 5 eexists.
  split; [reflexivity |]. split; [reflexivity |].
  split; [unfold ids; rewrite make_coins_ids; apply seq_NoDup |].
  reflexivity.
Qed.

Lemma ultra_snap_keeps_size (l : list Rect.t) (p : GameUltra.Player) :
  Rect.w (GameUltra.rect (GameUltra.snap_to_platform l p))
  = Rect.w (GameUltra.rect p)
  /\ Rect.h (GameUltra.rect (GameUltra.snap_to_platform l p))
     = Rect.h (GameUltra.rect p).
Proof.
  induction l as [| q l IH]; simpl; [split; reflexivity |].
  destruct (_ && _); [| exact IH].
  destruct (_ && _); [split; reflexivity | exact IH].
Qed.

Lemma ultra_pass_keeps_size (l : list Rect.t) (p : GameUltra.Player) :
  Rect.w (GameUltra.rect (fold_left GameUltra.vertical_step l p))
  = Rect.w (GameUltra.rect p)
  /\ Rect.h (GameUltra.rect (fold_left GameUltra.vertical_step l p))
     = Rect.h (GameUltra.rect p).
Proof.
  revert p. induction l as [| q l IH]; intro p; simpl;
    [split; reflexivity |].
  destruct (IH (GameUltra.vertical_step p q)) as [Ew Eh].
  rewrite Ew, Eh. unfold GameUltra.vertical_step.
  destruct (Rect.colliderect _ _); [| split; reflexivity].
  destruct (Float.ltb 0 _); [split; reflexivity |].
  destruct (Float.ltb _ 0); split; reflexivity.
Qed.

Lemma ultra_horizontal_keeps_height (dx : Q) (l : list Rect.t)
      (r : Rect.t) :
  Rect.h (fold_left (GameUltra.horizontal_step dx) l r) = Rect.h r.
Proof.
  revert r. induction l as [| q l IH]; intro r; simpl; [reflexivity |].
  rewrite IH. unfold GameUltra.horizontal_step.
  destruct (Rect.colliderect r q); [| reflexivity].
  destruct (Float.ltb 0 dx); [reflexivity |].
  destruct (Float.ltb dx 0); reflexivity.
Qed.

Lemma ultra_update_keeps_size (platforms : list Rect.t) (dx : Q)
      (p : GameUltra.Player) :
  Rect.w (GameUltra.rect (GameUltra.update platforms dx p))
  = Rect.w (GameUltra.rect p)
  /\ Rect.h (GameUltra.rect (GameUltra.update platforms dx p))
     = Rect.h (GameUltra.rect p).
Proof.
  unfold GameUltra.update, GameUltra.vertical_collisions,
    GameUltra.second_pass. cbv zeta.
  match goal with
  | |- context [fold_left GameUltra.vertical_step platforms ?q] =>
      destruct (ultra_pass_keeps_size platforms q) as [Ew Eh];
      set (p1 := fold_left GameUltra.vertical_step platforms q) in *
  end.
  cbn [GameUltra.rect GameUltra.apply_gravity] in Ew, Eh.
  unfold Rect.add_y, Rect.set_y in Ew, Eh. cbn [Rect.w Rect.h] in Ew, Eh.
  rewrite ultra_horizontal_keeps_width in Ew.
  rewrite ultra_horizontal_keeps_height in Eh.
  unfold Rect.add_x, Rect.set_x in Ew, Eh. cbn [Rect.w Rect.h] in Ew, Eh.
  clearbody p1.
  destruct (negb (GameUltra.on_ground p1) && _).
  - destruct (ultra_snap_keeps_size platforms p1) as [Sw Sh].
    split; congruence.
  - split; assumption.
Qed.

Lemma ultra_handle_input_rect (keys : Keys) (p : GameUltra.Player) :
  GameUltra.rect (snd (GameUltra.handle_input keys p)) = GameUltra.rect p.
Proof.
  unfold GameUltra.handle_input. destruct (_ && _); reflexivity.
Qed.

Lemma ultra_enemy_collision_cases (enemies : list GameUltra.Enemy)
      (lives sx sy : Z) (p : GameUltra.Player) :
  GameUltraMain.enemy_collision enemies lives sx sy p = (lives, p)
  \/ GameUltraMain.enemy_collision enemies lives sx sy p
     = (lives - 1, GameUltra.reset_position sx sy p).
Proof.
  induction enemies as [| e enemies IH]; simpl.
  - left. reflexivity.
  - destruct (Rect.colliderect _ _); [right; reflexivity | exact IH].
Qed.

Lemma ultra_frame_sound (a : Assets) (keys : Keys)
      (g : GameUltraMain.Game) :
  ultra_sound a g ->
  exists g', GameUltraMain.frame a keys g = Some g' /\ ultra_sound a g'.
Proof.
  intros Hs. pose proof Hs as (Hnd & Hl & Elev & Hsp & Hw & Hh).
  unfold GameUltraMain.frame.
  destruct (negb (GameUltraMain.game_over g)
            && negb (GameUltraMain.game_completed g));
    [| exists g; split; [reflexivity | exact Hs]].
  unfold GameUltraMain.simulate.
  pose proof (ultra_handle_input_rect keys (GameUltraMain.player g)) as Hr.
  destruct (GameUltra.handle_input keys (GameUltraMain.player g))
    as [dx p]. cbn [snd] in Hr.
  destruct (ultra_update_keeps_size (GameUltraMain.platforms g) dx p)
    as [Uw Uh].
  rewrite Hr in Uw, Uh.
  set (p1 := GameUltra.update (GameUltraMain.platforms g) dx p) in *.
  clearbody p1.
  rewrite (full_collect_coins_filter _ _ _ Hnd).
  assert (Hsize : forall (p2 : GameUltra.Player) (sx sy : Z) (b : bool),
             p2 = p1 \/ (exists sx' sy', p2 = GameUltra.reset_position
                                                sx' sy' p1) ->
             Rect.w (GameUltra.rect
                       (if b then GameUltra.reset_position sx sy p2
                        else p2)) = player_w a
             /\ Rect.h (GameUltra.rect
                          (if b then GameUltra.reset_position sx sy p2
                           else p2)) = player_h a).
  { intros p2 sx sy b [-> | (sx' & sy' & ->)]; destruct b;
      unfold GameUltra.reset_position, Rect.set_x, Rect.set_y;
      cbn [GameUltra.rect Rect.w Rect.h]; split; congruence. }
  destruct (ultra_enemy_collision_cases
              (map GameUltra.enemy_update (GameUltraMain.enemies g))
              (GameUltraMain.lives g) (GameUltraMain.spawn_x g)
              (GameUltraMain.spawn_y g) p1) as [C | C]; rewrite C.
  all: destruct (filter _ (GameUltraMain.coins g)) as [| c left] eqn:Eleft.
  all: try (destruct (Z.geb_spec (GameUltraMain.current_level g + 1)
                        (Z.of_nat (List.length (GameUltraMain.levels g))))
             as [Hge | Hlt];
            [| rewrite Elev in Hlt |- *;
               rewrite ultra_generate_levels_map, length_map, range_length
                 in Hlt;
               destruct (ultra_load_ok a (GameUltraMain.current_level g + 1)
                           ltac:(lia))
                 as (P & rest & co & en & len & -> & HPw & Hco & ->)]).
  all: eexists; (split; [reflexivity |]).
  all: unfold ultra_sound;
    cbn [GameUltraMain.coins GameUltraMain.current_level
         GameUltraMain.levels GameUltraMain.platforms
         GameUltraMain.spawn_x GameUltraMain.spawn_y GameUltraMain.player].
  all: repeat match goal with
              | |- _ /\ _ => split
              end;
    try exact Hsp; try exact Elev; try lia; try (constructor; fail);
    try (rewrite <- Eleft; apply filter_ids_NoDup, Hnd);
    try exact Hco;
    try (exists P, rest; repeat split; assumption);
    try (apply Hsize; left; reflexivity);
    try (apply Hsize; right; eexists; eexists; reflexivity);
    try (apply (Hsize _ 0 0 false); left; reflexivity);
    try (apply (Hsize _ 0 0 false); right; eexists; eexists; reflexivity).
Qed.

Lemma ultra_run_sound (a : Assets) (inputs : list Keys)
      (g : GameUltraMain.Game) :
  ultra_sound a g ->
  exists g', GameUltraMain.run a inputs g = Some g' /\ ultra_sound a g'.
Proof.
  revert g. induction inputs as [| keys inputs IH]; intros g Hs; simpl.
  - exists g. split; [reflexivity | exact Hs].
  - destruct (ultra_frame_sound a keys g Hs) as (g1 & E1 & Hs1).
    rewrite E1. apply IH. exact Hs1.
Qed.

Lemma ultra_initial_sound (a : Assets) :
  exists g0, GameUltraMain.initial a = Some g0 /\ ultra_sound a g0.
Proof.
  unfold GameUltraMain.initial.
  destruct (ultra_load_ok a 0 ltac:(lia))
    as (P & rest & co & en & len & -> & HPw & Hco & ->).
  eexists. split; [reflexivity |].
  unfold ultra_sound.
  cbn [GameUltraMain.coins GameUltraMain.current_level
       GameUltraMain.levels GameUltraMain.platforms GameUltraMain.spawn_x
       GameUltraMain.spawn_y GameUltraMain.player GameUltra.rect
       Rect.w Rect.h].
  split; [exact Hco |]. split; [lia |]. split; [reflexivity |].
  split; [| split; reflexivity].
  exists P, rest. repeat split. exact HPw.
Qed.

End UltraLoop.

(** X23: the loop of game_ultra.py raises no exception from its list
    handling, however long it runs and whatever the keys:
    [coins.remove(coin)] always finds its coin, [levels[idx]] is only read
    within the list, and [platforms[0]] exists in every level.  From the
    start of [main], every sequence of frames yields a state, in which
    the spawn point is the one read off the first platform of the
    level. *)
Theorem X23_ultra_loop_never_raises :
  forall (a : Assets) (inputs : list Keys),
  exists g0 g,
    GameUltraMain.initial a = Some g0
    /\ GameUltraMain.run a inputs g0 = Some g
    /\ GameUltraMain.spawn a (GameUltraMain.platforms g)
       = Some (GameUltraMain.spawn_x g, GameUltraMain.spawn_y g).
Proof.
  intros a inputs.
  destruct (ultra_initial_sound a) as (g0 & E0 & Hs0).
  destruct (ultra_run_sound a inputs g0 Hs0) as (g & Er & Hs).
  exists g0, g. split; [exact E0 |]. split; [exact Er |].
  destruct Hs as (_ & _ & _ & (P & rest & -> & _ & -> & ->) & _).
  reflexivity.
Qed.

(** X24: in game_ultra.py a respawn puts the player on the first
    platform of the level.  In every state the loop reaches from the start
    of [main], the player sent back to the spawn point is grounded and at
    rest, with its bottom at the top of the first platform and its left
    edge 10 to the right of the platform's: it stands on that platform,
    provided the platform image is more than 10 wide and the player image
    is not empty. *)
Theorem X24_ultra_respawn_stands_on_the_first_platform :
  forall (a : Assets) (inputs : list Keys) (g0 g : GameUltraMain.Game),
    0 < player_w a -> 10 < platform_w a ->
    GameUltraMain.initial a = Some g0 ->
    GameUltraMain.run a inputs g0 = Some g ->
    let p := GameUltra.reset_position
               (GameUltraMain.spawn_x g) (GameUltraMain.spawn_y g)
               (GameUltraMain.player g) in
    GameUltra.on_ground p = true
    /\ GameUltra.vel_y p = 0%Q
    /\ stands_on (GameUltra.rect p) (GameUltraMain.platforms g)
    /\ (exists P rest,
           GameUltraMain.platforms g = P :: rest
           /\ Rect.bottom (GameUltra.rect p) = Rect.top P
           /\ Rect.left (GameUltra.rect p) = Rect.left P + 10).
Proof.
  intros a inputs g0 g Hpw Hplw E0 Er p.
  destruct (ultra_initial_sound a) as (g0' & E0' & Hs0).
  rewrite E0 in E0'. injection E0' as <-.
  destruct (ultra_run_sound a inputs g0 Hs0) as (g' & Er' & Hs).
  rewrite Er in Er'. injection Er' as <-.
  destruct Hs as (_ & _ & _ & (P & rest & Ep & HPw & Ex & Ey) & Hw & Hh).
  split; [reflexivity |]. split; [reflexivity |].
  assert (Eb : Rect.bottom (GameUltra.rect p) = Rect.top P)
    by (unfold p, GameUltra.reset_position, Rect.bottom, Rect.top,
          Rect.set_x, Rect.set_y; cbn [GameUltra.rect Rect.y Rect.h];
        lia).
  assert (El : Rect.left (GameUltra.rect p) = Rect.left P + 10)
    by (unfold p, GameUltra.reset_position, Rect.left,
          Rect.set_x, Rect.set_y; cbn [GameUltra.rect Rect.x]; lia).
  split.
  - exists P. rewrite Ep. split; [left; reflexivity |].
    split; [exact Eb |].
    unfold Rect.right. rewrite El. unfold Rect.left in *.
    unfold p, GameUltra.reset_position, Rect.set_x, Rect.set_y.
    cbn [GameUltra.rect Rect.x Rect.w]. lia.
  - exists P, rest. split; [exact Ep |]. split; assumption.
Qed.

(** The start of game_ultra.py and two frames with the right arrow
    down. *)
Lemma X24_ultra_respawn_stands_on_the_first_platform_witness :
  match GameUltraMain.initial sample_assets with
  | Some g0 =>
      match GameUltraMain.run sample_assets [key_right; key_right] g0 with
      | Some g =>
          stands_on
            (GameUltra.rect
               (GameUltra.reset_position
                  (GameUltraMain.spawn_x g) (GameUltraMain.spawn_y g)
                  (GameUltraMain.player g)))
            (GameUltraMain.platforms g)
      | None => False
      end
  | None => False
  end.
Proof.
  destruct (GameUltraMain.initial sample_assets) as [g0 |] eqn:E0;
    [| vm_compute in E0; discriminate].
  destruct (GameUltraMain.run sample_assets [key_right; key_right] g0)
    as [g |] eqn:E1.
  - exact (proj1 (proj2 (proj2
                           (X24_ultra_respawn_stands_on_the_first_platform
                              sample_assets [key_right; key_right] g0 g
                              ltac:(simpl; lia) ltac:(simpl; lia) E0 E1)))).
  - vm_compute in E0. injection E0 as <-. vm_compute in E1. discriminate.
Defined.


(** ** The horizontal pass of main.py and game_ultra.py *)

Section SidewaysFirst.

Lemma main_horizontal_no_overlap (vx : Z) (l : list Rect.t) (r : Rect.t) :
  (forall q, In q l -> Rect.colliderect r q = false) ->
  fold_left (MainPy.horizontal_step vx) l r = r.
Proof.
  induction l as [| q l IH]; intro H; simpl; [reflexivity |].
  unfold MainPy.horizontal_step at 2. rewrite (H q (or_introl eq_refl)).
  apply IH. intros q' Hq'. apply H. right. exact Hq'.
Qed.

End SidewaysFirst.

(** X25: in main.py and game_ultra.py the horizontal pass tests every
    platform against the player as the loop has moved it so far.  A
    moving player is put against the first platform it overlaps, in
    iteration order: its right edge at the left of the platform when it
    moves right, its left edge at the right of the platform when it moves
    left; and there it stays if it overlaps none of the platforms that
    follow. *)
Theorem X25_moving_player_is_put_against_first_platform :
  (forall (vx : Z) (pre post : list Rect.t) (P r : Rect.t),
      vx <> 0 ->
      (forall q, In q pre -> Rect.colliderect r q = false) ->
      Rect.colliderect r P = true ->
      (forall q, In q post ->
                 Rect.colliderect (put_against (vx >? 0) r P) q = false) ->
      fold_left (MainPy.horizontal_step vx) (pre ++ P :: post) r
      = put_against (vx >? 0) r P)
  /\ (forall (dx : Q) (pre post : list Rect.t) (P r : Rect.t),
         ~ (dx == 0)%Q ->
         (forall q, In q pre -> Rect.colliderect r q = false) ->
         Rect.colliderect r P = true ->
         (forall q, In q post ->
                    Rect.colliderect (put_against (Float.ltb 0 dx) r P) q
                    = false) ->
         fold_left (GameUltra.horizontal_step dx) (pre ++ P :: post) r
         = put_against (Float.ltb 0 dx) r P).
Proof.
  split.
  - intros vx pre post P r Hv Hpre HP Hpost.
    rewrite fold_left_app, (main_horizontal_no_overlap vx pre r Hpre).
    cbn [fold_left].
    assert (E : MainPy.horizontal_step vx r P
                = put_against (vx >? 0) r P).
    { unfold MainPy.horizontal_step, put_against. rewrite HP.
      destruct (vx >? 0) eqn:E1; [reflexivity |].
      rewrite Z.gtb_ltb in E1. apply Z.ltb_ge in E1.
      assert (E2 : (vx <? 0) = true) by (apply Z.ltb_lt; lia).
      rewrite E2. reflexivity. }
    rewrite E. apply main_horizontal_no_overlap. exact Hpost.
  - intros dx pre post P r Hv Hpre HP Hpost.
    rewrite fold_left_app, (ultra_horizontal_no_overlap dx pre r Hpre).
    cbn [fold_left].
    assert (E : GameUltra.horizontal_step dx r P
                = put_against (Float.ltb 0 dx) r P).
    { unfold GameUltra.horizontal_step, put_against. rewrite HP.
      destruct (Float.ltb 0 dx) eqn:E1; [reflexivity |].
      apply ltb_ge in E1.
      assert (E2 : Float.ltb dx 0 = true).
      { apply ltb_lt. apply Qle_lt_or_eq in E1.
        destruct E1 as [E1 | E1]; [exact E1 | contradiction]. }
      rewrite E2. reflexivity. }
    rewrite E. apply ultra_horizontal_no_overlap. exact Hpost.
Qed.

(** A player of main.py that walks right into the second of three
    platforms. *)
Lemma X25_moving_player_is_put_against_first_platform_witness :
  fold_left (MainPy.horizontal_step 5)
            ([Rect.mk 0 500 60 20]
               ++ Rect.mk 130 400 100 20 :: [Rect.mk 300 400 100 20])
            (Rect.mk 100 380 40 60)
  = Rect.mk 90 380 40 60.
Proof.
  apply (proj1 X25_moving_player_is_put_against_first_platform
               5 [Rect.mk 0 500 60 20] [Rect.mk 300 400 100 20]
               (Rect.mk 130 400 100 20) (Rect.mk 100 380 40 60)).
  - lia.
  - intros q [<- | []]. reflexivity.
  - reflexivity.
  - intros q [<- | []]. reflexivity.
Defined.
